(** * ClearMap.Analysis.Graphs.GraphGt: edge-geometry store, sub-graphs and
    edge morphology

    A shallow embedding of the [Graph] wrapper class of
    [ClearMap/Analysis/Graphs/GraphGt.py].  Python objects become explicit
    state, exceptions become the [Raise] outcome of a state-and-exception
    monad, property dictionaries become finite maps keyed by name, and
    numpy index arithmetic is done on [Z] with the 64-bit wrap-around
    written out. *)

From stdpp Require Import gmap strings list fin_maps.
From Stdlib Require Import ZArith QArith.

Open Scope Z_scope.

(** ** Exceptions and outcomes *)

Inductive exn : Type :=
| KeyError (key : string)
| ValueError
| TypeError
| IndexError
| NotImplementedError
| ConsistencyError.

Inductive result (A : Type) : Type :=
| Ok (a : A)
| Raise (e : exn).
Arguments Ok {A} a.
Arguments Raise {A} e.

Definition result_bind {A B} (r : result A) (f : A -> result B) : result B :=
  match r with
  | Ok a => f a
  | Raise e => Raise e
  end.

(** ** numpy index arithmetic *)

Module Np.

(** Value of a signed 64-bit integer after an operation whose exact result
    is [z] (numpy's [int64] arithmetic wraps silently). *)
Definition wrap64 (z : Z) : Z := (z + 2 ^ 63) mod 2 ^ 64 - 2 ^ 63.

Definition int64_max : Z := 2 ^ 63 - 1.

Fixpoint cumsum_from (acc : Z) (l : list Z) : list Z :=
  match l with
  | [] => []
  | x :: l' => let a := wrap64 (acc + x) in a :: cumsum_from a l'
  end.

(** [np.cumsum(l)] on an integer array. *)
Definition cumsum (l : list Z) : list Z := cumsum_from 0 l.

(** [np.diff(indices, axis=1)[:, 0]] on an array of rows [(start, end)]. *)
Definition diff_rows (indices : list (Z * Z)) : list Z :=
  map (fun r => wrap64 (r.2 - r.1)) indices.

(** [c[:-1]] *)
Definition drop_last {A} (c : list A) : list A := take (length c - 1)%nat c.

(** [np.array([row0, row1]).T]: the two rows must have one length, the
    result has one row [(row0[i], row1[i])] per position. *)
Definition rows_T (row0 row1 : list Z) : result (list (Z * Z)) :=
  if (length row0 =? length row1)%nat then Ok (zip row0 row1) else Raise ValueError.

(** [np.array([np.hstack([0, c[:-1]]), c]).T], the expression shared by
    [_edge_geometry_indices_edge], [_set_edge_geometry_graph] and
    [resize_edge_geometry]. *)
Definition ranges_of_cumsum (c : list Z) : result (list (Z * Z)) :=
  rows_T (0 :: drop_last c) c.

(** Python slicing [a[start:end]] with both bounds given. *)
Definition slice_bound (len i : Z) : Z :=
  if i <? 0 then Z.max 0 (i + len) else Z.min i len.

Definition slice {A} (a : list A) (start stop : Z) : list A :=
  let len := Z.of_nat (length a) in
  let s := slice_bound len start in
  let e := slice_bound len stop in
  take (Z.to_nat (e - s)) (drop (Z.to_nat s) a).

(** First position of the maximum, [np.argmax]; an empty array raises. *)
Fixpoint argmax_from (best_i : nat) (best : Z) (i : nat) (l : list Z) : nat :=
  match l with
  | [] => best_i
  | x :: l' =>
      if best <? x then argmax_from i x (S i) l' else argmax_from best_i best (S i) l'
  end.

Definition argmax (l : list Z) : result nat :=
  match l with
  | [] => Raise ValueError
  | x :: l' => Ok (argmax_from 0%nat x 1%nat l')
  end.

Fixpoint insert_sorted (x : nat) (l : list nat) : list nat :=
  match l with
  | [] => [x]
  | y :: l' =>
      if (x <? y)%nat then x :: l
      else if (x =? y)%nat then l
      else y :: insert_sorted x l'
  end.

(** [np.unique]: the sorted distinct elements. *)
Definition unique (l : list nat) : list nat := foldr insert_sorted [] l.

End Np.

(** The canonical packing of per-edge lengths, as the specification words
    it: range [i] runs from the sum of the lengths before [i] to the sum of
    the lengths up to and including [i]. *)
Definition zsum (l : list Z) : Z := foldr Z.add 0 l.

Definition packing_law (L : list Z) (ranges : list (Z * Z)) : Prop :=
  length ranges = length L /\
  forall i : nat, (i < length L)%nat ->
    ranges !! i = Some (zsum (take i L), zsum (take (S i) L)).

Definition range_length (r : Z * Z) : Z := r.2 - r.1.

(** The three index lines of [resize_edge_geometry]. *)
Definition compact_indices (indices : list (Z * Z)) : result (list (Z * Z)) :=
  let indices_new := Np.diff_rows indices in
  let indices_new := Np.cumsum indices_new in
  Np.ranges_of_cumsum indices_new.

(** A valid per-edge range list: every range is ordered and non-negative,
    and the total number of samples is representable. *)
Definition valid_ranges (r : list (Z * Z)) : Prop :=
  Forall (fun p => 0 <= p.1 <= p.2) r /\ zsum (map range_length r) <= Np.int64_max.

(** ** Python values and the graph state *)

(** The values the wrapper stores and passes around.  A [sample] is one
    number of a geometry array (a coordinate, a radius, ...); the wrapper
    only ever copies samples.  An ndarray is given by its items along the
    first axis: numbers for a 1-D array, rows for a 2-D array, and so on;
    [PyRange s e] is a row [(s, e)] of an integer index array.  The array
    without items is the empty 1-D array; an array of shape [(0, d)] has no
    representation of its own. *)
#[warnings="-register-all"]
Inductive pyval (sample : Type) : Type :=
| PyNone
| PyStr (s : string)
| PyInt (z : Z)
| PySample (x : sample)
| PyRange (start stop : Z)
| PyNdarray (items : list (pyval sample))
| PyList (items : list (pyval sample)).
Arguments PyNone {sample}.
Arguments PyStr {sample} s.
Arguments PyInt {sample} z.
Arguments PySample {sample} x.
Arguments PyRange {sample} start stop.
Arguments PyNdarray {sample} items.
Arguments PyList {sample} items.

(** The engine's graph ([gt.Graph]): vertices are [0 .. num_vertices - 1],
    the edge with index [i] is the [i]-th entry of [gt_edges], vertex and
    edge property maps hold one value per vertex or edge in index order, a
    graph property holds one value.  [gt_view] is [Some (vfilt, efilt)] on
    a [gt.GraphView], which keeps the storage of the graph it filters. *)
Record gt_Graph (sample : Type) : Type := mk_gt_Graph {
  gt_directed : bool;
  gt_num_vertices : nat;
  gt_edges : list (nat * nat);
  gt_vertex_properties : gmap string (list (pyval sample));
  gt_edge_properties : gmap string (list (pyval sample));
  gt_graph_properties : gmap string (pyval sample);
  gt_view : option (option (list bool) * option (list bool))
}.
Arguments mk_gt_Graph {sample}.
Arguments gt_directed {sample}.
Arguments gt_num_vertices {sample}.
Arguments gt_edges {sample}.
Arguments gt_vertex_properties {sample}.
Arguments gt_edge_properties {sample}.
Arguments gt_graph_properties {sample}.
Arguments gt_view {sample}.

(** The wrapper object: the engine graph [_base] and the three cached mesh
    arrays ([PyNone] when not computed). *)
Record Graph (sample : Type) : Type := mk_Graph {
  base : gt_Graph sample;
  mesh_vertices : pyval sample;
  mesh_faces : pyval sample;
  faces_edge_ids : pyval sample
}.
Arguments mk_Graph {sample}.
Arguments base {sample}.
Arguments mesh_vertices {sample}.
Arguments mesh_faces {sample}.
Arguments faces_edge_ids {sample}.

(** How a caller names an edge: an engine edge descriptor, a pair of
    vertices, an integer index, or anything else. *)
Inductive edge_spec : Type :=
| EdgeDescriptor (i : nat)
| EdgeTuple (s t : nat)
| EdgeInt (i : Z)
| EdgeOther.

(** ** State and exceptions *)

(** A method run on a state [S]: it ends with a value or a raised
    exception, and in both cases with the state as mutated so far. *)
Definition M (S A : Type) : Type := S -> result A * S.

Definition ret {S A} (a : A) : M S A := fun s => (Ok a, s).

Definition raise {S A} (e : exn) : M S A := fun s => (Raise e, s).

Definition bind {S A B} (m : M S A) (f : A -> M S B) : M S B :=
  fun s =>
    match m s with
    | (Ok a, s') => f a s'
    | (Raise e, s') => (Raise e, s')
    end.

Definition get {S} : M S S := fun s => (Ok s, s).

Definition put {S} (s : S) : M S unit := fun _ => (Ok tt, s).

Definition lift {S A} (r : result A) : M S A := fun s => (r, s).

Notation "x <- c1 ;; c2" := (bind c1 (fun x => c2))
  (at level 100, c1 at next level, right associativity).

Notation "c1 ;;; c2" := (bind c1 (fun _ => c2))
  (at level 100, right associativity).

(** [for x in l: body(x)] *)
Fixpoint for_each {S A} (l : list A) (body : A -> M S unit) : M S unit :=
  match l with
  | [] => ret tt
  | x :: l' => body x ;;; for_each l' body
  end.

(** [[f(x) for x in l]] for an [f] that may raise. *)
Fixpoint map_result {A B} (f : A -> result B) (l : list A) : result (list B) :=
  match l with
  | [] => Ok []
  | x :: l' =>
      result_bind (f x) (fun y => result_bind (map_result f l') (fun ys => Ok (y :: ys)))
  end.

(** ** What the wrapper takes from outside *)

(** The zero a fresh [np.zeros] array is filled with. *)
Class Zero (sample : Type) : Type := zero : sample.

(** The structural operations of the graph engine and the two library
    routines the wrapper delegates to.  The wrapper only forwards to them;
    nothing below depends on what they compute. *)
Class Engine (sample : Type) : Type := {
  (** [base.add_vertex(n)] *)
  gt_add_vertex : nat -> gt_Graph sample -> gt_Graph sample;
  (** [base.vertex(v, add_missing=True)] *)
  gt_vertex_add_missing : Z -> gt_Graph sample -> result (gt_Graph sample);
  (** [base.remove_vertex(v)] *)
  gt_remove_vertex : nat -> gt_Graph sample -> result (gt_Graph sample);
  (** [base.add_edge(s, t)] *)
  gt_add_edge : nat -> nat -> gt_Graph sample -> result (gt_Graph sample);
  (** [base.add_edge_list(l)] *)
  gt_add_edge_list : list (nat * nat) -> gt_Graph sample -> result (gt_Graph sample);
  (** [base.remove_edge(e)] *)
  gt_remove_edge : nat -> gt_Graph sample -> result (gt_Graph sample);
  (** [gtt.label_components(base)]: the component label of every vertex and
      the number of vertices of every label *)
  gt_label_components : gt_Graph sample -> list Z * list Z;
  (** [GraphRendering.mesh_tube(graph=self, ...)] *)
  mesh_tube : Graph sample -> pyval sample * pyval sample * pyval sample
}.

(** ** The engine's property maps *)

Section Stores.
Context {sample : Type}.
Local Abbreviation val := (pyval sample).

(** [d[name]] on a Python dictionary. *)
Definition dict_get {V} (d : gmap string V) (name : string) : result V :=
  match d !! name with
  | Some v => Ok v
  | None => Raise (KeyError name)
  end.

(** [name in d] *)
Definition dict_has {V} (d : gmap string V) (name : string) : bool :=
  match d !! name with
  | Some _ => true
  | None => false
  end.

(** [d.keys()] *)
Definition dict_keys {V} (d : gmap string V) : list string := (map_to_list d).*1.

(** [a[i]] on an array of [items]. *)
Definition item_get (items : list val) (i : nat) : result val :=
  match items !! i with
  | Some v => Ok v
  | None => Raise IndexError
  end.

(** [a[i] = v] *)
Definition item_set (items : list val) (i : nat) (v : val) : result (list val) :=
  if (i <? length items)%nat then Ok (<[i := v]> items) else Raise IndexError.

(** The items of a Python sequence (ndarray or list). *)
Definition sequence_items (v : val) : result (list val) :=
  match v with
  | PyNdarray items => Ok items
  | PyList items => Ok items
  | _ => Raise TypeError
  end.

(** Modelled from the spec: [type_conversions.vertex_property_map_from_python],
    [edge_property_map_from_python], [set_vertex_property_map] and
    [set_edge_property_map] are not in the sources.  A property map is a
    typed array of length [n_vertices] or [n_edges] keyed positionally; it
    is filled from a sequence of that length, a sequence of another length
    is rejected, and without a source every entry is the default. *)
Definition property_map_from_python (n : nat) (source : option val) : result (list val) :=
  match source with
  | None => Ok (replicate n PyNone)
  | Some v =>
      result_bind (sequence_items v) (fun items =>
        if (length items =? n)%nat then Ok items else Raise ValueError)
  end.

(** Modelled from the spec: [type_conversions.vertex_property_map_to_python]
    and [edge_property_map_to_python] are not in the sources; the whole
    property map is returned as one array in index order. *)
Definition property_map_to_python (items : list val) : val := PyNdarray items.

(** [len(v)] *)
Definition py_len (v : val) : result Z :=
  result_bind (sequence_items v) (fun items => Ok (Z.of_nat (length items))).

(** [a.shape]: a number has shape [()], an array whose items all have the
    shape [s] has shape [(n,) + s]; a value that is no array has none. *)
Fixpoint np_shape (v : val) : option (list nat) :=
  match v with
  | PySample _ | PyInt _ => Some []
  | PyRange _ _ => Some [2%nat]
  | PyNdarray items =>
      match items with
      | [] => Some [0%nat]
      | x :: rest =>
          match np_shape x with
          | Some s =>
              if forallb (fun y => bool_decide (np_shape y = Some s)) rest
              then Some (length items :: s) else None
          | None => None
          end
      end
  | _ => None
  end.

(** [np.atleast_2d(a)]: a number becomes a [(1, 1)] array, a 1-D array of
    [n] numbers the one row of a [(1, n)] array, any other array is
    itself. *)
Definition np_atleast_2d (a : val) : val :=
  match np_shape a with
  | Some [] => PyNdarray [PyNdarray [a]]
  | Some [_] => PyNdarray [a]
  | _ => a
  end.

(** The items of an array along its first axis, with the shape of one
    item. *)
Definition np_rows (a : val) : result (list val * list nat) :=
  match a, np_shape a with
  | PyNdarray items, Some (_ :: s) => Ok (items, s)
  | _, _ => Raise TypeError
  end.

(** [np.concatenate(arrays, 0)]: needs at least one array, and all arrays
    must agree in every dimension but the first. *)
Definition np_concatenate (arrays : list val) : result val :=
  result_bind (map_result np_rows arrays) (fun rs =>
    match rs with
    | [] => Raise ValueError
    | r :: _ =>
        if forallb (fun r' => bool_decide (r'.2 = r.2)) rs
        then Ok (PyNdarray (concat (map fst rs)))
        else Raise ValueError
    end).

(** [np.vstack(values)] is [np.concatenate([np.atleast_2d(v) for v in values], 0)]. *)
Definition np_vstack (values : list val) : result val :=
  np_concatenate (map np_atleast_2d values).

(** The numbers of an array in row-major order. *)
Fixpoint np_flat (v : val) : list val :=
  match v with
  | PyNdarray items => concat (map np_flat items)
  | PyRange s e => [PyInt s; PyInt e]
  | x => [x]
  end.

(** [l] cut into consecutive rows of [width] entries. *)
Fixpoint chunks {A} (fuel width : nat) (l : list A) : list (list A) :=
  match fuel, l with
  | S fuel', _ :: _ => take width l :: chunks fuel' width (drop width l)
  | _, _ => []
  end.

(** [v.reshape(-1, order='A')]: the numbers of [v] as one 1-D array.  The
    memory layout of an array is not modelled: arrays are row-major, for
    which order ['A'] is order ['C']. *)
Definition reshape_flat (v : val) : result val :=
  match v with
  | PyNdarray _ | PyRange _ _ => Ok (PyNdarray (np_flat v))
  | _ => Raise TypeError
  end.

(** [v.reshape((-1, ndim))]: the numbers of [v] cut into rows of [ndim]
    entries; their count must be a multiple of [ndim], and the number of
    rows cannot be inferred for [ndim = 0]. *)
Definition reshape_rows (ndim : Z) (v : val) : result val :=
  match v with
  | PyNdarray _ | PyRange _ _ =>
      let flat := np_flat v in
      if ndim <=? 0 then Raise ValueError
      else if Z.of_nat (length flat) mod ndim =? 0
      then Ok (PyNdarray (map PyNdarray (chunks (length flat) (Z.to_nat ndim) flat)))
      else Raise ValueError
  | _ => Raise TypeError
  end.

(** The items of an [(n, 2)] integer array as rows [(start, end)]. *)
Definition index_row (v : val) : result (Z * Z) :=
  match v with
  | PyRange s e => Ok (s, e)
  | _ => Raise TypeError
  end.

Definition index_rows (v : val) : result (list (Z * Z)) :=
  result_bind (sequence_items v) (map_result index_row).

Definition indices_array (rows : list (Z * Z)) : val :=
  PyNdarray (map (fun r => PyRange r.1 r.2) rows).

(** [a == s] for a string [s] *)
Definition is_str (v : val) (s : string) : bool :=
  match v with
  | PyStr s' => bool_decide (s' = s)
  | _ => false
  end.

End Stores.

(** ** The wrapper class [Graph] *)

Section GraphClass.
Context {sample : Type} `{Zero sample} `{Engine sample}.
Local Abbreviation val := (pyval sample).
Local Abbreviation G := (Graph sample).
Local Abbreviation GM := (M (Graph sample)).

(** A direct update of [self._base]: it does not go through the [base]
    setter and leaves the cache alone. *)
Definition set__base (b : gt_Graph sample) : GM unit :=
  fun g => (Ok tt, mk_Graph b (mesh_vertices g) (mesh_faces g) (faces_edge_ids g)).

Definition get__base : GM (gt_Graph sample) := fun g => (Ok (base g), g).

Definition invalidate_caches : GM unit :=
  fun g => (Ok tt, mk_Graph (base g) PyNone PyNone PyNone).

(** [Graph(base=b)]: the [base] setter invalidates, then the three cache
    fields are set to [None]. *)
Definition Graph_from_base (b : gt_Graph sample) : G := mk_Graph b PyNone PyNone PyNone.

Definition is_view : GM bool := b <- get__base ;; ret (bool_decide (is_Some (gt_view b))).

(** *** Vertices *)

Definition n_vertices : GM nat := b <- get__base ;; ret (gt_num_vertices b).

(** [self.vertex(v)]: the engine rejects an index that is no vertex. *)
Definition vertex (v : nat) : GM nat :=
  b <- get__base ;;
  if (v <? gt_num_vertices b)%nat then ret v else raise ValueError.

Definition add_vertex (n_vertices : option nat) (vertex : option Z) : GM unit :=
  b <- get__base ;;
  match n_vertices, vertex with
  | Some n, _ => set__base (gt_add_vertex n b)
  | None, Some v => b' <- lift (gt_vertex_add_missing v b) ;; set__base b'
  | None, None => raise ValueError
  end ;;;
  invalidate_caches.

Definition remove_vertex (vertex : nat) : GM unit :=
  b <- get__base ;;
  b' <- lift (gt_remove_vertex vertex b) ;;
  set__base b' ;;;
  invalidate_caches.

Definition vertex_property (name : string) (vertex_ : option nat) : GM val :=
  b <- get__base ;;
  v_prop <- lift (dict_get (gt_vertex_properties b) name) ;;
  match vertex_ with
  | Some v => i <- vertex v ;; lift (item_get v_prop i)
  | None => ret (property_map_to_python v_prop)
  end.

Definition vertex_properties : GM (list string) :=
  b <- get__base ;; ret (dict_keys (gt_vertex_properties b)).

Definition store_vertex_property (name : string) (items : list val) : GM unit :=
  b <- get__base ;;
  set__base (mk_gt_Graph (gt_directed b) (gt_num_vertices b) (gt_edges b)
               (<[name := items]> (gt_vertex_properties b))
               (gt_edge_properties b) (gt_graph_properties b) (gt_view b)).

Definition add_vertex_property (name : string) (source : option val) : GM unit :=
  b <- get__base ;;
  v_prop <- lift (property_map_from_python (gt_num_vertices b) source) ;;
  store_vertex_property name v_prop.
  (* self.invalidate_caches() is commented out in the source *)

Definition set_vertex_property (name : string) (source : val) (vertex_ : option nat) : GM unit :=
  b <- get__base ;;
  if negb (dict_has (gt_vertex_properties b) name) then raise ValueError
  else
    v_prop <- lift (dict_get (gt_vertex_properties b) name) ;;
    match vertex_ with
    | Some v =>
        v_prop' <- lift (item_set v_prop v source) ;;
        store_vertex_property name v_prop'
    | None =>
        v_prop' <- lift (property_map_from_python (gt_num_vertices b) (Some source)) ;;
        store_vertex_property name v_prop'
    end.
  (* self.invalidate_caches() is commented out in the source *)

Definition define_vertex_property (name : string) (source : val) (vertex_ : option nat) : GM unit :=
  names <- vertex_properties ;;
  if bool_decide (name ∈ names) then set_vertex_property name source vertex_
  else
    match vertex_ with
    | None => add_vertex_property name (Some source)
    | Some v =>
        add_vertex_property name None ;;;
        set_vertex_property name source (Some v)
    end.

Definition remove_vertex_property (name : string) : GM unit :=
  b <- get__base ;;
  if negb (dict_has (gt_vertex_properties b) name) then raise ValueError
  else
    set__base (mk_gt_Graph (gt_directed b) (gt_num_vertices b) (gt_edges b)
                 (delete name (gt_vertex_properties b))
                 (gt_edge_properties b) (gt_graph_properties b) (gt_view b)) ;;;
    invalidate_caches.

(** *** Edges *)

Definition n_edges : GM nat := b <- get__base ;; ret (length (gt_edges b)).

(** [base.edge(s, t)]: the engine rejects an invalid vertex and answers
    [None] when no edge joins [s] to [t]. *)
Definition gt_edge (b : gt_Graph sample) (s t : nat) : result (option nat) :=
  if (s <? gt_num_vertices b)%nat && (t <? gt_num_vertices b)%nat then
    Ok (fst <$> list_find
          (fun e => bool_decide (e = (s, t) \/ (gt_directed b = false /\ e = (t, s))))
          (gt_edges b))
  else Raise ValueError.

(** [gtu.find_edge(base, base.edge_index, i)]: the edges whose index is [i]. *)
Definition gt_find_edge (b : gt_Graph sample) (i : Z) : list nat :=
  if (0 <=? i) && (i <? Z.of_nat (length (gt_edges b))) then [Z.to_nat i] else [].

Definition edge (e : edge_spec) : GM (option nat) :=
  b <- get__base ;;
  match e with
  | EdgeDescriptor i => ret (Some i)
  | EdgeTuple s t => lift (gt_edge b s t)
  | EdgeInt i =>
      match gt_find_edge b i with
      | found :: _ => ret (Some found)
      | [] => raise IndexError
      end
  | EdgeOther => raise ValueError
  end.

(** Using the answer of [edge] as a key of a property map. *)
Definition edge_key (e : option nat) : GM nat :=
  match e with
  | Some i => ret i
  | None => raise TypeError
  end.

Definition edge_index (e : edge_spec) : GM nat := d <- edge e ;; edge_key d.

Definition add_edge (e : (nat * nat) + list (nat * nat)) : GM unit :=
  b <- get__base ;;
  b' <- lift (match e with
              | inl (s, t) => gt_add_edge s t b
              | inr l => gt_add_edge_list l b
              end) ;;
  set__base b' ;;;
  invalidate_caches.

Definition remove_edge (e : edge_spec) : GM unit :=
  d <- edge e ;;
  i <- edge_key d ;;
  b <- get__base ;;
  b' <- lift (gt_remove_edge i b) ;;
  set__base b' ;;;
  invalidate_caches.

(** [base.get_edges()[:, :2]] *)
Definition edge_connectivity : GM (list (nat * nat)) := b <- get__base ;; ret (gt_edges b).

Definition edge_property (name : string) (edge_ : option edge_spec) : GM val :=
  b <- get__base ;;
  e_prop <- lift (dict_get (gt_edge_properties b) name) ;;
  match edge_ with
  | Some e => i <- edge_index e ;; lift (item_get e_prop i)
  | None => ret (property_map_to_python e_prop)
  end.

Definition edge_properties : GM (list string) :=
  b <- get__base ;; ret (dict_keys (gt_edge_properties b)).

Definition store_edge_property (name : string) (items : list val) : GM unit :=
  b <- get__base ;;
  set__base (mk_gt_Graph (gt_directed b) (gt_num_vertices b) (gt_edges b)
               (gt_vertex_properties b)
               (<[name := items]> (gt_edge_properties b))
               (gt_graph_properties b) (gt_view b)).

Definition add_edge_property (name : string) (source : option val) : GM unit :=
  b <- get__base ;;
  p <- lift (property_map_from_python (length (gt_edges b)) source) ;;
  store_edge_property name p ;;;
  invalidate_caches.

Definition set_edge_property (name : string) (source : val) (edge_ : option edge_spec) : GM unit :=
  b <- get__base ;;
  if negb (dict_has (gt_edge_properties b) name) then raise ValueError
  else
    p <- lift (dict_get (gt_edge_properties b) name) ;;
    match edge_ with
    | Some e =>
        i <- edge_index e ;;
        p' <- lift (item_set p i source) ;;
        store_edge_property name p'
    | None =>
        p' <- lift (property_map_from_python (length (gt_edges b)) (Some source)) ;;
        store_edge_property name p'
    end ;;;
    invalidate_caches.

Definition define_edge_property (name : string) (source : val) (edge_ : option edge_spec) : GM unit :=
  names <- edge_properties ;;
  if bool_decide (name ∈ names) then set_edge_property name source edge_
  else
    match edge_ with
    | None => add_edge_property name (Some source)
    | Some e =>
        add_edge_property name None ;;;
        set_edge_property name source (Some e)
    end.

Definition remove_edge_property (name : string) : GM unit :=
  names <- edge_properties ;;
  if negb (bool_decide (name ∈ names)) then raise ValueError
  else
    b <- get__base ;;
    set__base (mk_gt_Graph (gt_directed b) (gt_num_vertices b) (gt_edges b)
                 (gt_vertex_properties b)
                 (delete name (gt_edge_properties b))
                 (gt_graph_properties b) (gt_view b)) ;;;
    invalidate_caches.

(** [base.vertex(v).out_edges()]: the edges leaving [v]; in an undirected
    graph these are all the edges at [v]. *)
Definition gt_out_edges (b : gt_Graph sample) (v : nat) : list nat :=
  (filter (fun ie => ie.2.1 = v \/ (gt_directed b = false /\ ie.2.2 = v))
          (imap (fun i e => (i, e)) (gt_edges b))).*1.

Definition vertex_edges_iterator (v : nat) : GM (list nat) :=
  b <- get__base ;;
  if (v <? gt_num_vertices b)%nat then ret (gt_out_edges b v) else raise ValueError.

(** *** Graph properties *)

Definition graph_property (name : string) : GM val :=
  b <- get__base ;; lift (dict_get (gt_graph_properties b) name).

Definition graph_properties : GM (list string) :=
  b <- get__base ;; ret (dict_keys (gt_graph_properties b)).

Definition store_graph_property (name : string) (v : val) : GM unit :=
  b <- get__base ;;
  set__base (mk_gt_Graph (gt_directed b) (gt_num_vertices b) (gt_edges b)
               (gt_vertex_properties b) (gt_edge_properties b)
               (<[name := v]> (gt_graph_properties b)) (gt_view b)).

Definition add_graph_property (name : string) (source : val) : GM unit :=
  store_graph_property name source ;;;
  invalidate_caches.

Definition is_None (v : val) : bool :=
  match v with
  | PyNone => true
  | _ => false
  end.

Definition set_graph_property (name : string) (source : val) : GM unit :=
  names <- graph_properties ;;
  if negb (bool_decide (name ∈ names)) then raise ValueError
  else
    (if negb (is_None source) then store_graph_property name source else ret tt) ;;;
    invalidate_caches.

Definition define_graph_property (name : string) (source : val) : GM unit :=
  names <- graph_properties ;;
  if bool_decide (name ∈ names) then set_graph_property name source
  else add_graph_property name source.

Definition remove_graph_property (name : string) : GM unit :=
  names <- graph_properties ;;
  if negb (bool_decide (name ∈ names)) then raise ValueError
  else
    b <- get__base ;;
    set__base (mk_gt_Graph (gt_directed b) (gt_num_vertices b) (gt_edges b)
                 (gt_vertex_properties b) (gt_edge_properties b)
                 (delete name (gt_graph_properties b)) (gt_view b)) ;;;
    invalidate_caches.

(** *** The embedding space *)

Definition DEFAULT_N_DIMS : Z := 3.

(** The [shape] property and its setter. *)
Definition shape : GM (pyval sample) := graph_property "shape".

Definition set_shape (value : pyval sample) : GM unit := define_graph_property "shape" value.

Definition ndim : GM Z :=
  s <- shape ;;
  if is_None s then ret DEFAULT_N_DIMS
  else s <- shape ;; lift (py_len s).

(** *** Edge geometry: names and mode *)

Definition edge_geometry_type : GM val := graph_property "edge_geometry_type".

(** [f'{prefix}_{name}'] with the default prefix. *)
Definition edge_geometry_property_name (name : string) : string :=
  "edge_geometry" +:+ "_" +:+ name.

Definition edge_geometry_property_names : GM (list string) :=
  let prefix := edge_geometry_property_name "" in
  t <- edge_geometry_type ;;
  properties <- (if is_str t "graph" then graph_properties else edge_properties) ;;
  ret (filter (fun p => String.prefix prefix p = true /\ p <> "edge_geometry_type") properties).

Definition edge_geometry_properties : GM (list string) :=
  let prefix_len := String.length (edge_geometry_property_name "") in
  names <- edge_geometry_property_names ;;
  ret (map (fun p => String.substring prefix_len (String.length p - prefix_len) p) names).

Definition has_edge_geometry (name : string) : GM bool :=
  names <- edge_geometry_property_names ;;
  ret (bool_decide (edge_geometry_property_name name ∈ names)).

(** *** Edge geometry stored at each edge ('edge' mode) *)

(** [v[start:end]] *)
Definition py_slice (v : val) (r : Z * Z) : result val :=
  match v with
  | PyNdarray items => Ok (PyNdarray (Np.slice items r.1 r.2))
  | PyList items => Ok (PyList (Np.slice items r.1 r.2))
  | _ => Raise TypeError
  end.

(** [np.vstack(l)] for a sequence [l] of arrays. *)
Definition py_vstack (l : val) : result val :=
  result_bind (sequence_items l) np_vstack.

Definition _edge_geometry_scalar_edge (name : string) (edge_ : option edge_spec) : GM val :=
  let name := edge_geometry_property_name name in
  edge_property name edge_.

Definition _edge_geometry_vector_edge (name : string) (edge_ : option edge_spec)
    (reshape_ : bool) (ndim_ : option Z) (as_list : bool) : GM val :=
  let name := edge_geometry_property_name name in
  geometry <- edge_property name edge_ ;;
  if reshape_ then
    ndim <- match ndim_ with
            | None => ndim
            | Some n => ret n
            end ;;
    match edge_ with
    | None =>
        items <- lift (sequence_items geometry) ;;
        geometry <- lift (map_result (reshape_rows ndim) items) ;;
        if as_list then ret (PyList geometry) else lift (py_vstack (PyList geometry))
    | Some _ => lift (reshape_rows ndim geometry)
    end
  else ret geometry.

(** The part of [_edge_geometry_edge] before [return_indices] is looked at. *)
Definition _edge_geometry_edge_values (name : string) (edge_ : option edge_spec)
    (reshape_ : bool) (ndim_ : option Z) (as_list : bool) : GM val :=
  if bool_decide (name ∈ ["coordinates"; "mesh"])
  then _edge_geometry_vector_edge name edge_ reshape_ ndim_ as_list
  else _edge_geometry_scalar_edge name edge_.

Definition _set_edge_geometry_scalar_edge (name : string) (scalars : val)
    (edge_ : option edge_spec) : GM unit :=
  let name := edge_geometry_property_name name in
  define_edge_property name scalars edge_.

Definition _set_edge_geometry_vector_edge (name : string) (vectors : val)
    (indices : option val) (edge_ : option edge_spec) : GM unit :=
  let name := edge_geometry_property_name name in
  vectors <- match edge_ with
             | None =>
                 match indices with
                 | None =>
                     items <- lift (sequence_items vectors) ;;
                     l <- lift (map_result reshape_flat items) ;;
                     ret (PyList l)
                 | Some indices =>
                     rows <- lift (index_rows indices) ;;
                     l <- lift (map_result
                                  (fun r => result_bind (py_slice vectors r) reshape_flat) rows) ;;
                     ret (PyList l)
                 end
             | Some _ => ret vectors
             end ;;
  define_edge_property name vectors edge_.

Definition _set_edge_geometry_edge (name : string) (values : val)
    (indices : option val) (edge_ : option edge_spec) : GM unit :=
  if bool_decide (name ∈ ["coordinates"; "mesh"])
  then _set_edge_geometry_vector_edge name values indices edge_
  else if bool_decide (name ∈ ["radii"])
  then _set_edge_geometry_scalar_edge name values edge_
  else _set_edge_geometry_scalar_edge name values edge_.

Definition _remove_edge_geometry_edge (name : string) : GM unit :=
  let name := edge_geometry_property_name name in
  remove_edge_property name.

(** *** Edge geometry stored in one array ('graph' mode) *)

Definition _edge_geometry_indices_name_graph : string :=
  edge_geometry_property_name "indices".

Definition _edge_geometry_indices_graph (edge_ : option edge_spec) : GM val :=
  edge_property _edge_geometry_indices_name_graph edge_.

Definition _set_edge_geometry_indices_graph (indices : val) (edge_ : option edge_spec) : GM unit :=
  set_edge_property _edge_geometry_indices_name_graph indices edge_.

(** The answer is the values and, with [return_indices], the indices. *)
Definition _edge_geometry_graph (name : string) (edge_ : option edge_spec)
    (return_indices as_list : bool) : GM (val * option val) :=
  let name := edge_geometry_property_name name in
  match edge_ with
  | None =>
      values <- graph_property name ;;
      indices <- (if return_indices || as_list
                  then i <- _edge_geometry_indices_graph None ;; ret (Some i)
                  else ret None) ;;
      values <- (if as_list then
                   match indices with
                   | Some i =>
                       rows <- lift (index_rows i) ;;
                       l <- lift (map_result (py_slice values) rows) ;;
                       ret (PyList l)
                   | None => ret values
                   end
                 else ret values) ;;
      if return_indices then ret (values, indices) else ret (values, None)
  | Some e =>
      row <- _edge_geometry_indices_graph (Some e) ;;
      r <- lift (index_row row) ;;
      values <- graph_property name ;;
      v <- lift (py_slice values r) ;;
      ret (v, None)
  end.

Definition _set_edge_geometry_graph (name : string) (values : val)
    (indices : option val) (edge_ : option edge_spec) : GM unit :=
  match edge_ with
  | Some _ => raise NotImplementedError
  | None =>
      stacked <-
        match values with
        | PyList l =>
            indices <- match indices with
                       | None =>
                           lens <- lift (map_result py_len l) ;;
                           rows <- lift (Np.ranges_of_cumsum (Np.cumsum lens)) ;;
                           ret (Some (indices_array rows))
                       | Some i => ret (Some i)
                       end ;;
            values <- lift (py_vstack values) ;;
            ret (values, indices)
        | _ => ret (values, indices)
        end ;;
      let '(values, indices) := stacked in
      match indices with
      | Some i => define_edge_property _edge_geometry_indices_name_graph i None
      | None => ret tt
      end ;;;
      let name := edge_geometry_property_name name in
      define_graph_property name values
  end.

Definition _remove_edge_geometry_graph (name : string) : GM unit :=
  let name := edge_geometry_property_name name in
  names <- graph_properties ;;
  if bool_decide (name ∈ names) then remove_graph_property name else ret tt.

Definition _remove_edge_geometry_indices_graph : GM unit :=
  let name := _edge_geometry_indices_name_graph in
  names <- edge_properties ;;
  if bool_decide (name ∈ names) then remove_edge_property name else ret tt.

(** *** Remapping and compaction *)

(** [dst[start:end] = src]: the slice must be as long as [src]. *)
Definition assign_slice (dst : list val) (r : Z * Z) (src : list val) : result (list val) :=
  let len := Z.of_nat (length dst) in
  let s := Np.slice_bound len r.1 in
  let e := Np.slice_bound len r.2 in
  if Z.of_nat (length src) =? Z.max 0 (e - s)
  then Ok (take (Z.to_nat s) dst ++ src ++ drop (Z.to_nat (Z.max s e)) dst)
  else Raise ConsistencyError.

(** One step of the copy loop:
    [prop_new[indices_new[i, 0]:indices_new[i, 1]] = prop[indices[i, 0]:indices[i, 1]]]
    on the destination array held as state. *)
Definition remap_copy (prop : list val) (old new : Z * Z) : M (list val) unit :=
  prop_new <- get ;;
  prop_new' <- lift (assign_slice prop_new new (Np.slice prop old.1 old.2)) ;;
  put prop_new'.

(** Modelled from the spec: [ClearMap.Utils.array_utils.remap_array_ranges]
    is not in the sources.  For each [i] it copies
    [old_array[old_ranges[i].start : old_ranges[i].end]] into
    [new_array[new_ranges[i].start : new_ranges[i].end]] (the loop is the one
    the docstring of [_reduce_edge_geometry_properties] spells out); the
    lengths of [old_ranges[i]] and [new_ranges[i]] must be equal for every
    [i], which is validated before any write to the new array and whose
    violation is a [ConsistencyError].  The destination array is the state. *)
Definition remap_array_ranges (prop : list val) (indices indices_new : list (Z * Z)) :
    M (list val) unit :=
  if forallb (fun p => range_length p.1 =? range_length p.2) (zip indices indices_new)
  then for_each (zip indices indices_new) (fun p => remap_copy prop p.1 p.2)
  else raise ConsistencyError.

(** The array of zeros of a shape, and the items of
    [np.zeros((n,) + item_shape, prop.dtype)]. *)
Fixpoint zeros (shape : list nat) : val :=
  match shape with
  | [] => PySample zero
  | n :: shape' => PyNdarray (replicate n (zeros shape'))
  end.

Definition np_zeros (n : Z) (item_shape : list nat) : result (list val) :=
  if n <? 0 then Raise ValueError else Ok (replicate (Z.to_nat n) (zeros item_shape)).

Definition _reduce_edge_geometry_properties (indices indices_new : list (Z * Z)) : GM unit :=
  n <- lift (match last indices_new with
             | Some r => Ok r.2
             | None => Raise IndexError
             end) ;;
  names <- edge_geometry_property_names ;;
  for_each names (fun prop_name =>
    prop <- graph_property prop_name ;;
    rows <- lift (np_rows prop) ;;
    let '(prop, item_shape) := rows in
    prop_new <- lift (np_zeros n item_shape) ;;
    prop_new <- lift (match remap_array_ranges prop indices indices_new prop_new with
                      | (Ok _, a) => Ok a
                      | (Raise e, _) => Raise e
                      end) ;;
    set_graph_property prop_name (PyNdarray prop_new)).

Definition resize_edge_geometry : GM unit :=
  has <- has_edge_geometry "coordinates" ;;
  if negb has then ret tt
  else
    t <- edge_geometry_type ;;
    if negb (is_str t "graph") then ret tt
    else
      indices <- _edge_geometry_indices_graph None ;;
      indices <- lift (index_rows indices) ;;
      indices_new <- lift (compact_indices indices) ;;
      _set_edge_geometry_indices_graph (indices_array indices_new) None ;;;
      _reduce_edge_geometry_properties indices indices_new.

(** *** Edge geometry: the mode-independent front end *)

(** [self.edge_geometry(name)] with every other argument at its default
    ([edge=None], [as_list=True], [return_indices=False], [reshape=True]);
    this is the call [edge_geometry_lengths] makes. *)
Definition edge_geometry_default (name : string) : GM val :=
  t <- edge_geometry_type ;;
  if is_str t "graph" then
    r <- _edge_geometry_graph name None false true ;; ret r.1
  else _edge_geometry_edge_values name None true None true.

Definition edge_geometry_lengths (name : string) : GM (list Z) :=
  t <- edge_geometry_type ;;
  if is_str t "graph" then
    indices <- _edge_geometry_indices_graph None ;;
    rows <- lift (index_rows indices) ;;
    ret (Np.diff_rows rows)
  else
    values <- edge_geometry_default name ;;
    items <- lift (sequence_items values) ;;
    lift (map_result py_len items).

Definition _edge_geometry_indices_edge : GM val :=
  lengths <- edge_geometry_lengths "coordinates" ;;
  let indices := Np.cumsum lengths in
  rows <- lift (Np.ranges_of_cumsum indices) ;;
  ret (indices_array rows).

Definition _edge_geometry_edge (name : string) (edge_ : option edge_spec)
    (reshape_ : bool) (ndim_ : option Z) (as_list return_indices : bool) :
    GM (val * option val) :=
  edge_geometry <- _edge_geometry_edge_values name edge_ reshape_ ndim_ as_list ;;
  if return_indices then
    indices <- _edge_geometry_indices_edge ;;
    ret (edge_geometry, Some indices)
  else ret (edge_geometry, None).

Definition edge_geometry (name : string) (edge_ : option edge_spec)
    (as_list return_indices reshape_ : bool) (ndim_ : option Z) : GM (val * option val) :=
  t <- edge_geometry_type ;;
  if is_str t "graph" then _edge_geometry_graph name edge_ return_indices as_list
  else _edge_geometry_edge name edge_ reshape_ ndim_ as_list return_indices.

Definition set_edge_geometry (name : string) (values : val) (indices : option val)
    (edge_ : option edge_spec) : GM unit :=
  t <- edge_geometry_type ;;
  if is_str t "graph" then _set_edge_geometry_graph name values indices edge_
  else _set_edge_geometry_edge name values indices edge_.

Definition edge_geometry_indices : GM val :=
  t <- edge_geometry_type ;;
  if is_str t "graph" then _edge_geometry_indices_graph None
  else _edge_geometry_indices_edge.

Definition set_edge_geometry_type (edge_geometry_type_ : string) : GM unit :=
  if negb (bool_decide (edge_geometry_type_ ∈ ["graph"; "edge"])) then raise ValueError
  else
    t <- edge_geometry_type ;;
    if is_str t edge_geometry_type_ then ret tt
    else
      (if is_str t "graph" then
         indices <- _edge_geometry_indices_graph None ;;
         names <- edge_geometry_property_names ;;
         for_each names (fun name =>
           values <- edge_geometry name None false false true None ;;
           _remove_edge_geometry_graph name ;;;
           _set_edge_geometry_edge name values.1 (Some indices) None) ;;;
         _remove_edge_geometry_indices_graph
       else
         names <- edge_geometry_property_names ;;
         for_each names (fun name =>
           values <- edge_geometry name None true false true None ;;
           _remove_edge_geometry_edge name ;;;
           _set_edge_geometry_graph name values.1 None None)) ;;;
      set_graph_property "edge_geometry_type" (PyStr edge_geometry_type_) ;;;
      invalidate_caches.

(** [edge_meshes]: the cached triple, computed when a field is [None]. *)
Definition edge_meshes : GM (val * val * val) :=
  g <- get ;;
  (if is_None (mesh_vertices g) || is_None (mesh_faces g) then
     let '(v, f, ids) := mesh_tube g in
     put (mk_Graph (base g) v f ids)
   else ret tt) ;;;
  g <- get ;;
  ret (mesh_vertices g, mesh_faces g, faces_edge_ids g).

(** *** Sub-graphs *)

Definition mask_at (m : option (list bool)) (i : nat) : bool :=
  match m with
  | None => true
  | Some l => default false (l !! i)
  end.

Definition mask_fits (m : option (list bool)) (n : nat) : bool :=
  match m with
  | None => true
  | Some l => (length l =? n)%nat
  end.

(** [gt.GraphView(base, vfilt=vertex_filter, efilt=edge_filter)]: the
    filters are boolean arrays aligned to the vertex and edge indices. *)
Definition gt_GraphView (b : gt_Graph sample) (vfilt efilt : option (list bool)) :
    result (gt_Graph sample) :=
  if mask_fits vfilt (gt_num_vertices b) && mask_fits efilt (length (gt_edges b)) then
    Ok (mk_gt_Graph (gt_directed b) (gt_num_vertices b) (gt_edges b)
          (gt_vertex_properties b) (gt_edge_properties b) (gt_graph_properties b)
          (Some (vfilt, efilt)))
  else Raise ValueError.

Definition gt_vertex_kept (b : gt_Graph sample) (v : nat) : bool :=
  match gt_view b with
  | None => true
  | Some (vfilt, _) => mask_at vfilt v
  end.

(** An edge of a view is kept when its filter entry and both its end
    vertices are. *)
Definition gt_edge_kept (b : gt_Graph sample) (i : nat) : bool :=
  match gt_view b, gt_edges b !! i with
  | None, _ => true
  | Some (vfilt, efilt), Some e => mask_at efilt i && mask_at vfilt e.1 && mask_at vfilt e.2
  | Some _, None => false
  end.

(** The entries of [l] whose position is kept, in order. *)
Definition keep_items {A} (keep : nat -> bool) (l : list A) : list A :=
  (filter (fun ix => keep ix.1 = true) (imap (fun i x => (i, x)) l)).*2.

(** The index a kept vertex gets in the pruned graph. *)
Definition gt_new_index (b : gt_Graph sample) (v : nat) : nat :=
  length (filter (fun u => gt_vertex_kept b u = true) (seq 0 v)).

(** [gt.Graph(gv, prune=True)]: an independent graph holding the kept
    vertices and edges only, renumbered densely in their original relative
    order; property maps keep the entries of the kept vertices and edges,
    graph properties are copied. *)
Definition gt_Graph_prune (gv : gt_Graph sample) : gt_Graph sample :=
  mk_gt_Graph (gt_directed gv)
    (gt_new_index gv (gt_num_vertices gv))
    (map (fun e => (gt_new_index gv e.1, gt_new_index gv e.2))
         (keep_items (gt_edge_kept gv) (gt_edges gv)))
    (keep_items (gt_vertex_kept gv) <$> gt_vertex_properties gv)
    (keep_items (gt_edge_kept gv) <$> gt_edge_properties gv)
    (gt_graph_properties gv)
    None.

Definition sub_graph (vertex_filter edge_filter : option (list bool)) (view : bool) : GM G :=
  b <- get__base ;;
  gv <- lift (gt_GraphView b vertex_filter edge_filter) ;;
  if view then ret (Graph_from_base gv)
  else
    let g := Graph_from_base (gt_Graph_prune gv) in
    match resize_edge_geometry g with
    | (Ok _, g') => ret g'
    | (Raise e, _) => raise e
    end.

(** [label_components(return_vertex_counts=True)] *)
Definition label_components : GM (list Z * list Z) :=
  b <- get__base ;; ret (gt_label_components b).

Definition largest_component (view : bool) : GM G :=
  cc <- label_components ;;
  let '(components, counts) := cc in
  i <- lift (Np.argmax counts) ;;
  let vertex_filter := map (fun c => bool_decide (c = Z.of_nat i)) components in
  sub_graph (Some vertex_filter) None view.

End GraphClass.

(** ** Binary morphology on edge labels *)

Section Morphology.
Context {sample : Type} {A : Type} `{EqDecision A}.
Local Abbreviation G := (Graph sample).

(** Label arrays live in a store of arrays, so that an array and a copy of
    it are different objects; a label is passed by reference. *)
Local Abbreviation heap := (gmap nat (list A)).

Definition array_read (ref : nat) : M heap (list A) :=
  h <- get ;;
  match h !! ref with
  | Some a => ret a
  | None => raise TypeError
  end.

(** [np.array(label)]: a new array with the contents of [label]. *)
Definition np_array (label : nat) : M heap nat :=
  a <- array_read label ;;
  h <- get ;;
  let ref := fresh (dom h) in
  put (<[ref := a]> h) ;;;
  ret ref.

(** [label[i] = value] *)
Definition array_set (ref : nat) (i : nat) (value : A) : M heap unit :=
  a <- array_read ref ;;
  if (i <? length a)%nat then
    h <- get ;; put (<[ref := <[i := value]> a]> h)
  else raise IndexError.

(** [ec[edges]] for a boolean array [edges]. *)
Definition boolean_index {B} (ec : list B) (edges : list bool) : result (list B) :=
  if (length edges =? length ec)%nat
  then Ok ((filter (fun p => p.2 = true) (zip ec edges)).*1)
  else Raise IndexError.

(** A method of [self] that only reads the graph, run from code whose
    state is the array store. *)
Definition on_graph {B} (g : G) (m : M G B) : M heap B := lift (m g).1.

(** One pass of the loop body of [edge_propagate]. *)
Definition edge_propagate_round (g : G) (label : nat) (value : A) : M heap unit :=
  a <- array_read label ;;
  let edges := map (fun x => bool_decide (x = value)) a in
  ec <- on_graph g edge_connectivity ;;
  ec <- lift (boolean_index ec edges) ;;
  let vertices := Np.unique (concat (map (fun e => [e.1; e.2]) ec)) in
  for_each vertices (fun v =>
    es <- on_graph g (vertex_edges_iterator v) ;;
    for_each es (fun e =>
      i <- on_graph g (edge_index (EdgeDescriptor e)) ;;
      array_set label i value)).

(** [steps] is [None] or an integer; [range(steps)] is empty for a
    negative one. *)
Definition edge_propagate (g : G) (label : nat) (value : A) (steps : option Z) : M heap nat :=
  label <- np_array label ;;
  match steps with
  | None => ret label
  | Some n =>
      for_each (seq 0 (Z.to_nat n)) (fun _ => edge_propagate_round g label value) ;;;
      ret label
  end.

End Morphology.

Definition edge_dilate_binary {sample} (g : Graph sample) (label : nat) (steps : option Z) :
    M (gmap nat (list bool)) nat :=
  edge_propagate g label true steps.

Definition edge_erode_binary {sample} (g : Graph sample) (label : nat) (steps : option Z) :
    M (gmap nat (list bool)) nat :=
  edge_propagate g label false steps.

Definition edge_open_binary {sample} (g : Graph sample) (label : nat) (steps : option Z) :
    M (gmap nat (list bool)) nat :=
  label <- edge_erode_binary g label steps ;;
  edge_dilate_binary g label steps.

Definition edge_close_binary {sample} (g : Graph sample) (label : nat) (steps : option Z) :
    M (gmap nat (list bool)) nat :=
  label <- edge_dilate_binary g label steps ;;
  edge_erode_binary g label steps.

(** ** Mapping between vertex and edge labels *)

Section Mappings.
Context {sample : Type}.
Local Abbreviation GM := (M (Graph sample)).

(** [a[idx]] for an array [idx] of non-negative integers: every index has
    to be in range. *)
Definition np_take {A} (a : list A) (idx : list nat) : result (list A) :=
  map_result (fun i => match a !! i with
                       | Some x => Ok x
                       | None => Raise IndexError
                       end) idx.

(** [np.isin(elements, test)] *)
Definition np_isin (elements : list nat) (test : list Z) : list bool :=
  map (fun x => bool_decide (Z.of_nat x ∈ test)) elements.

(** An element-wise binary operation on two one-dimensional arrays, with
    numpy's broadcasting of an array of length one. *)
Definition np_elementwise {A B C} (f : A -> B -> C) (a : list A) (b : list B) :
    result (list C) :=
  if (length a =? length b)%nat then Ok (zip_with f a b)
  else
    match a, b with
    | [x], _ => Ok (map (f x) b)
    | _, [y] => Ok (map (fun x => f x y) a)
    | _, _ => Raise ValueError
    end.

Definition np_logical_and : list bool -> list bool -> result (list bool) :=
  np_elementwise andb.

Definition np_logical_or : list bool -> list bool -> result (list bool) :=
  np_elementwise orb.

(** [a[ids] = value] for an array [ids] of non-negative integers. *)
Definition np_put {A} (a : list A) (ids : list nat) (value : A) : result (list A) :=
  if forallb (fun i => (i <? length a)%nat) ids
  then Ok (foldl (fun a i => <[i := value]> a) a ids)
  else Raise IndexError.

Definition vertex_ids_to_vertex_masks (vertex_indices : list Z) :
    GM (list bool * list bool * list (nat * nat)) :=
  connectivity <- edge_connectivity ;;
  let start_mask := np_isin (map fst connectivity) vertex_indices in
  let end_mask := np_isin (map snd connectivity) vertex_indices in
  ret (start_mask, end_mask, connectivity).

Definition vertex_ids_to_connectivity (vertex_indices : list Z) : GM (list (nat * nat)) :=
  r <- vertex_ids_to_vertex_masks vertex_indices ;;
  let '(start_mask, end_mask, connectivity) := r in
  mask <- lift (np_logical_or start_mask end_mask) ;;
  lift (boolean_index connectivity mask).

(** The dictionary [mappings] of [vertex_filter_to_edge_filter]. *)
Definition mappings : gmap string (list bool -> list bool -> result (list bool)) :=
  {[ "both" := np_logical_and; "either" := np_logical_or;
     "and" := np_logical_and; "or" := np_logical_or ]}.

(** [mappings[mode]], with the [KeyError] of a missing mode turned into a
    [ValueError]. *)
Definition mappings_get (mode : string) :
    result (list bool -> list bool -> result (list bool)) :=
  match dict_get mappings mode with
  | Ok op => Ok op
  | Raise (KeyError _) => Raise ValueError
  | Raise e => Raise e
  end.

Definition vertex_filter_to_edge_filter (vertex_filter : list bool) (mode : string) :
    GM (list bool) :=
  connectivity <- edge_connectivity ;;
  start_vertex_follows_filter <- lift (np_take vertex_filter (map fst connectivity)) ;;
  end_vertex_follows_filter <- lift (np_take vertex_filter (map snd connectivity)) ;;
  operator <- lift (mappings_get mode) ;;
  lift (operator start_vertex_follows_filter end_vertex_follows_filter).

(** [edge_to_vertex_label_or] on a boolean edge label. *)
Definition edge_to_vertex_label_or (edge_label : list bool) : GM (list bool) :=
  n <- n_vertices ;;
  let label := replicate n false in
  ec <- edge_connectivity ;;
  ec <- lift (boolean_index ec edge_label) ;;
  let ids := Np.unique (concat (map (fun e => [e.1; e.2]) ec)) in
  lift (np_put label ids true).

(** [np.mean([a, b], axis=0)] of two boolean arrays: the exact mean of
    the entries taken as 0 and 1 (0, 1/2 and 1 are floats). *)
Definition np_mean2 (a b : list bool) : result (list Q) :=
  np_elementwise (fun x y => ((inject_Z (Z.b2z x) + inject_Z (Z.b2z y)) / inject_Z 2)%Q) a b.

(** [vertex_to_edge_label] on a boolean vertex label, without a method or
    with a method that gives a boolean array. *)
Definition vertex_to_edge_label (vertex_label : list bool)
    (method : option (list bool -> list bool -> result (list bool))) : GM (list bool) :=
  ec <- edge_connectivity ;;
  match method with
  | None =>
      s <- lift (np_take vertex_label (map fst ec)) ;;
      t <- lift (np_take vertex_label (map snd ec)) ;;
      m <- lift (np_mean2 s t) ;;
      ret (map (fun q => Qeq_bool q (inject_Z 1)) m)
  | Some method =>
      s <- lift (np_take vertex_label (map fst ec)) ;;
      t <- lift (np_take vertex_label (map snd ec)) ;;
      lift (method s t)
  end.

End Mappings.

(** ** The removal of edge geometry *)

Section Space.
Context {sample : Type}.
Local Abbreviation GM := (M (Graph sample)).

(** [remove_edge_geometry(name)]: [name] is [None], one name or a list. *)
Definition remove_edge_geometry (name : option (string + list string)) : GM unit :=
  name <- match name with
          | None =>
              t <- edge_geometry_type ;;
              (if is_str t "graph" then _remove_edge_geometry_indices_graph else ret tt) ;;;
              edge_geometry_properties
          | Some (inl n) => ret [n]
          | Some (inr l) => ret l
          end ;;
  for_each name (fun n =>
    t <- edge_geometry_type ;;
    if is_str t "graph" then _remove_edge_geometry_graph n
    else _remove_edge_geometry_edge n).

End Space.

(** ** Vocabulary of the statements *)

(** The graph is in packed ('graph') mode. *)
Definition in_graph_mode {sample} (g : Graph sample) : Prop :=
  gt_graph_properties (base g) !! "edge_geometry_type" = Some (PyStr "graph").

(** The lengths (along the first axis) of a list of per-edge arrays. *)
Definition lengths_of {B} (arrays : list (list B)) : list Z :=
  map (fun a => Z.of_nat (length a)) arrays.

(** [a] holds the items of an array with at least one item, every item of
    shape [item_shape]: for [item_shape = [d]] an [(n, d)] array with
    [n >= 1] rows. *)
Definition items_of_shape {sample} (item_shape : list nat) (a : list (pyval sample)) : Prop :=
  a <> [] /\ Forall (fun x => np_shape x = Some item_shape) a.

(** The mutations of the graph the wrapper offers: vertices, edges and the
    three kinds of properties. *)
Inductive mutation (sample : Type) : Type :=
| AddVertex (n_vertices : option nat) (vertex : option Z)
| RemoveVertex (vertex : nat)
| AddEdge (e : (nat * nat) + list (nat * nat))
| RemoveEdge (e : edge_spec)
| AddVertexProperty (name : string) (source : option (pyval sample))
| SetVertexProperty (name : string) (source : pyval sample) (vertex : option nat)
| DefineVertexProperty (name : string) (source : pyval sample) (vertex : option nat)
| RemoveVertexProperty (name : string)
| AddEdgeProperty (name : string) (source : option (pyval sample))
| SetEdgeProperty (name : string) (source : pyval sample) (e : option edge_spec)
| DefineEdgeProperty (name : string) (source : pyval sample) (e : option edge_spec)
| RemoveEdgeProperty (name : string)
| AddGraphProperty (name : string) (source : pyval sample)
| SetGraphProperty (name : string) (source : pyval sample)
| DefineGraphProperty (name : string) (source : pyval sample)
| RemoveGraphProperty (name : string).
Arguments AddVertex {sample}.
Arguments RemoveVertex {sample}.
Arguments AddEdge {sample}.
Arguments RemoveEdge {sample}.
Arguments AddVertexProperty {sample}.
Arguments SetVertexProperty {sample}.
Arguments DefineVertexProperty {sample}.
Arguments RemoveVertexProperty {sample}.
Arguments AddEdgeProperty {sample}.
Arguments SetEdgeProperty {sample}.
Arguments DefineEdgeProperty {sample}.
Arguments RemoveEdgeProperty {sample}.
Arguments AddGraphProperty {sample}.
Arguments SetGraphProperty {sample}.
Arguments DefineGraphProperty {sample}.
Arguments RemoveGraphProperty {sample}.

Definition mutate {sample} `{Engine sample} (op : mutation sample) : M (Graph sample) unit :=
  match op with
  | AddVertex n v => add_vertex n v
  | RemoveVertex v => remove_vertex v
  | AddEdge e => add_edge e
  | RemoveEdge e => remove_edge e
  | AddVertexProperty name source => add_vertex_property name source
  | SetVertexProperty name source v => set_vertex_property name source v
  | DefineVertexProperty name source v => define_vertex_property name source v
  | RemoveVertexProperty name => remove_vertex_property name
  | AddEdgeProperty name source => add_edge_property name source
  | SetEdgeProperty name source e => set_edge_property name source e
  | DefineEdgeProperty name source e => define_edge_property name source e
  | RemoveEdgeProperty name => remove_edge_property name
  | AddGraphProperty name source => add_graph_property name source
  | SetGraphProperty name source => set_graph_property name source
  | DefineGraphProperty name source => define_graph_property name source
  | RemoveGraphProperty name => remove_graph_property name
  end.

(** Adding, setting and defining a vertex property are the mutations whose
    call of [invalidate_caches] is commented out. *)
Definition keeps_cache {sample} (op : mutation sample) : bool :=
  match op with
  | AddVertexProperty _ _ | SetVertexProperty _ _ _ | DefineVertexProperty _ _ _ => true
  | _ => false
  end.

Definition mesh_cache {sample} (g : Graph sample) : pyval sample * pyval sample * pyval sample :=
  (mesh_vertices g, mesh_faces g, faces_edge_ids g).

Definition cache_invalid {sample} (g : Graph sample) : Prop :=
  mesh_cache g = (PyNone, PyNone, PyNone).

(** Judgements on methods, used to reason about them step by step. *)

(** The method never changes the state. *)
Definition reads {S B} (m : M S B) : Prop :=
  forall s r s', m s = (r, s') -> s' = s.

(** When the method raises, the state is as before the call. *)
Definition fails_clean {S B} (m : M S B) : Prop :=
  forall s e s', m s = (Raise e, s') -> s' = s.

(** The method leaves the cached mesh alone. *)
Definition preserves_cache {sample B} (m : M (Graph sample) B) : Prop :=
  forall g r g', m g = (r, g') -> mesh_cache g' = mesh_cache g.

(** The method ends with the cache invalidated, unless it raised before
    changing the graph. *)
Definition invalidates_cache {sample B} (m : M (Graph sample) B) : Prop :=
  forall g r g', m g = (r, g') ->
    (forall b, r = Ok b -> cache_invalid g') /\ (cache_invalid g' \/ g' = g).

(** The method changes no array of the store other than [ref], and does
    not drop [ref] from it. *)
Definition writes_only {A B} (ref : nat) (m : M (gmap nat (list A)) B) : Prop :=
  forall h r h', m h = (r, h') ->
    (forall k, k <> ref -> h' !! k = h !! k) /\ (is_Some (h !! ref) -> is_Some (h' !! ref)).

(** Every edge joins two vertices of the graph. *)
Definition wf_edges {sample} (b : gt_Graph sample) : Prop :=
  Forall (fun e => (e.1 < gt_num_vertices b)%nat /\ (e.2 < gt_num_vertices b)%nat) (gt_edges b).

(** Edge [i] is one of the edges the iterator gives at an end of edge [j]. *)
Definition reaches {sample} (b : gt_Graph sample) (j i : nat) : Prop :=
  exists e v, gt_edges b !! j = Some e /\ (v = e.1 \/ v = e.2) /\ i ∈ gt_out_edges b v.

(** Edges [j] and [i] have an end vertex in common. *)
Definition share_vertex {sample} (b : gt_Graph sample) (j i : nat) : Prop :=
  exists e e', gt_edges b !! j = Some e /\ gt_edges b !! i = Some e' /\
    (e'.1 = e.1 \/ e'.1 = e.2 \/ e'.2 = e.1 \/ e'.2 = e.2).

(** Every entry that is [True] in [a] is [True] in [c]. *)
Definition true_within (a c : list bool) : Prop :=
  forall i : nat, a !! i = Some true -> c !! i = Some true.

(** A property name that [edge_geometry_property_names] lists: it starts
    with the geometry prefix and is not the name of the mode property. *)
Definition is_geometry_name (p : string) : Prop :=
  String.prefix (edge_geometry_property_name "") p = true /\ p <> "edge_geometry_type"%string.






(** The method returns a reference to an array that holds [out]. *)
Definition returns_array {A} (m : M (gmap nat (list A)) nat) (h : gmap nat (list A))
    (out : list A) : Prop :=
  exists ref' h', m h = (Ok ref', h') /\ h' !! ref' = Some out.

(** What one round of [edge_propagate] does to the contents of the label
    array: the vertices of the edges that hold [value], the edges the
    iterator gives at these vertices, and [value] written at each of them. *)
Definition round_vertices {sample A} `{EqDecision A} (b : gt_Graph sample)
    (value : A) (label : list A) : list nat :=
  Np.unique (concat (map (fun e => [e.1; e.2])
    ((filter (fun p => p.2 = true)
        (zip (gt_edges b) (map (fun x => bool_decide (x = value)) label))).*1))).

Definition round_edges {sample A} `{EqDecision A} (b : gt_Graph sample)
    (value : A) (label : list A) : list nat :=
  concat (map (gt_out_edges b) (round_vertices b value label)).

Definition write_all {A} (value : A) (label : list A) (idx : list nat) : list A :=
  foldl (fun a i => <[i := value]> a) label idx.

Definition round_result {sample A} `{EqDecision A} (b : gt_Graph sample)
    (value : A) (label : list A) : list A :=
  write_all value label (round_edges b value label).

(** ** A reference engine and the graphs of the examples *)

Module Reference.

(** Samples are integers in the examples. *)
#[global] Instance Z_zero : Zero Z := 0.

Definition pad (n : nat) (items : list (pyval Z)) : list (pyval Z) :=
  items ++ replicate n PyNone.

Definition add_vertices (n : nat) (b : gt_Graph Z) : gt_Graph Z :=
  mk_gt_Graph (gt_directed b) (gt_num_vertices b + n)%nat (gt_edges b)
    (pad n <$> gt_vertex_properties b) (gt_edge_properties b)
    (gt_graph_properties b) (gt_view b).

Definition add_edges (l : list (nat * nat)) (b : gt_Graph Z) : gt_Graph Z :=
  let top := foldr (fun e m => Nat.max (S (Nat.max e.1 e.2)) m) 0%nat l in
  let b := add_vertices (top - gt_num_vertices b)%nat b in
  mk_gt_Graph (gt_directed b) (gt_num_vertices b) (gt_edges b ++ l)
    (gt_vertex_properties b) (pad (length l) <$> gt_edge_properties b)
    (gt_graph_properties b) (gt_view b).

Definition without (i : nat) (n : nat) : option (list bool) :=
  Some (map (fun j => negb (j =? i)%nat) (seq 0 n)).

(** Component labels by spreading the smallest vertex index along the
    edges, then numbering the components in order of their first vertex. *)
Definition spread (edges : list (nat * nat)) (lab : list nat) : list nat :=
  foldl (fun lab e =>
           let m := Nat.min (default 0%nat (lab !! e.1)) (default 0%nat (lab !! e.2)) in
           <[e.1 := m]> (<[e.2 := m]> lab)) lab edges.

Definition components_of (b : gt_Graph Z) : list Z * list Z :=
  let n := gt_num_vertices b in
  let lab := Nat.iter n (spread (gt_edges b)) (seq 0 n) in
  let roots := Np.unique lab in
  let dense := map (fun r => Z.of_nat (default 0%nat (fst <$> list_find (fun x => x = r) roots))) lab in
  (dense, map (fun r => Z.of_nat (length (filter (fun x => x = r) lab))) roots).

#[global] Instance engine : Engine Z := {|
  gt_add_vertex := add_vertices;
  gt_vertex_add_missing v b :=
    if v <? 0 then Raise ValueError
    else Ok (add_vertices (Z.to_nat v + 1 - gt_num_vertices b) b);
  gt_remove_vertex v b :=
    if (v <? gt_num_vertices b)%nat
    then result_bind (gt_GraphView b (without v (gt_num_vertices b)) None)
           (fun gv => Ok (gt_Graph_prune gv))
    else Raise ValueError;
  gt_add_edge s t b :=
    if (s <? gt_num_vertices b)%nat && (t <? gt_num_vertices b)%nat
    then Ok (add_edges [(s, t)] b) else Raise ValueError;
  gt_add_edge_list l b := Ok (add_edges l b);
  gt_remove_edge i b :=
    if (i <? length (gt_edges b))%nat
    then result_bind (gt_GraphView b None (without i (length (gt_edges b))))
           (fun gv => Ok (gt_Graph_prune gv))
    else Raise ValueError;
  gt_label_components := components_of;
  mesh_tube g :=
    (PyNdarray [], PyNdarray [], PyNdarray (map (fun i => PyInt (Z.of_nat i)) (seq 0 (length (gt_edges (base g))))))
|}.

(** The state a method leaves behind, and its outcome. *)
Definition state_after {S B} (m : M S B) (s : S) : S := (m s).2.
Definition outcome {S B} (m : M S B) (s : S) : result B := (m s).1.

(** [Graph()] with the default geometry mode: an empty undirected engine
    graph with the two graph properties the constructor adds. *)
Definition Graph_new : Graph Z :=
  state_after
    (add_graph_property "shape" PyNone ;;;
     add_graph_property "edge_geometry_type" (PyStr "graph"))
    (Graph_from_base (mk_gt_Graph false 0 [] ∅ ∅ ∅ None)).

(** The items of a 1-D geometry array of [n] samples
    [first, first + 1, ...]. *)
Definition samples (first : Z) (n : nat) : list (pyval Z) :=
  map (fun i => PySample (first + Z.of_nat i)) (seq 0 n).

(** The rows [(x, 0, 0)] of an [(n, 3)] coordinate array, [x] running from
    [first]. *)
Definition points (first : Z) (n : nat) : list (pyval Z) :=
  map (fun i => PyNdarray [PySample (first + Z.of_nat i); PySample 0; PySample 0]) (seq 0 n).

(** The scenario of the specification: 10 vertices, edges
    [(1,3), (2,5), (6,7), (7,9)], coordinates of lengths [3, 4, 5, 6]. *)
Definition scenario_arrays : list (list (pyval Z)) :=
  [points 100 3; points 200 4; points 300 5; points 400 6].


Definition scenario_bare : Graph Z :=
  state_after
    (add_vertex (Some 10%nat) None ;;;
     add_edge (inr [(1, 3); (2, 5); (6, 7); (7, 9)]%nat))
    Graph_new.

Definition scenario : Graph Z :=
  state_after
    (set_edge_geometry "coordinates" (PyList (map PyNdarray scenario_arrays)) None None)
    scenario_bare.

(** A directed graph with the edges [0 -> 1] and [2 -> 1]. *)
Definition scenario_directed : Graph Z :=
  Graph_from_base (mk_gt_Graph true 3 [(0, 1); (2, 1)]%nat ∅ ∅ ∅ None).

End Reference.

(** * Theorems *)

(** ** Index arithmetic *)

Lemma wrap64_small (z : Z) :
  - 2 ^ 63 <= z <= Np.int64_max -> Np.wrap64 z = z.
Proof.
  intros H. unfold Np.wrap64, Np.int64_max in *.
  rewrite Z.mod_small; lia.
Qed.

Lemma zsum_app (l1 l2 : list Z) : zsum (l1 ++ l2) = zsum l1 + zsum l2.
Proof. induction l1 as [|x l1 IH]; simpl; lia. Qed.

Lemma zsum_nonneg (l : list Z) : Forall (fun x => 0 <= x) l -> 0 <= zsum l.
Proof. induction 1; simpl; lia. Qed.

Lemma zsum_take_S (l : list Z) (i : nat) (x : Z) :
  l !! i = Some x -> zsum (take (S i) l) = zsum (take i l) + x.
Proof.
  intros H. rewrite (take_S_r _ _ _ H), zsum_app. simpl. lia.
Qed.

Lemma cumsum_from_length (acc : Z) (l : list Z) :
  length (Np.cumsum_from acc l) = length l.
Proof. revert acc. induction l as [|x l IH]; intros acc; simpl; [done|]. by rewrite IH. Qed.

Lemma cumsum_from_lookup (l : list Z) : forall (acc : Z) (i : nat),
  Forall (fun x => 0 <= x) l -> 0 <= acc -> acc + zsum l <= Np.int64_max ->
  (i < length l)%nat ->
  Np.cumsum_from acc l !! i = Some (acc + zsum (take (S i) l)).
Proof.
  induction l as [|x l IH]; intros acc i Hpos Hacc Hmax Hi; simpl in *; [lia|].
  inversion Hpos as [|? ? Hx Hl]; subst.
  pose proof (zsum_nonneg l Hl) as Hs.
  assert (Hw : Np.wrap64 (acc + x) = acc + x).
  { apply wrap64_small. unfold Np.int64_max in *. lia. }
  rewrite Hw. destruct i as [|i]; simpl.
  - f_equal. destruct l; simpl; lia.
  - rewrite IH; [f_equal; lia| done | lia | lia | lia].
Qed.

Lemma drop_last_length {A} (c : list A) : length (Np.drop_last c) = (length c - 1)%nat.
Proof. unfold Np.drop_last. rewrite length_take. lia. Qed.

Lemma ranges_of_cumsum_nonempty (c : list Z) :
  c <> [] -> Np.ranges_of_cumsum c = Ok (zip (0 :: Np.drop_last c) c).
Proof.
  intros Hc. unfold Np.ranges_of_cumsum, Np.rows_T. simpl.
  rewrite drop_last_length.
  destruct c as [|x c]; [done|]. simpl.
  rewrite Nat.sub_0_r, Nat.eqb_refl. done.
Qed.

Lemma ranges_of_cumsum_empty : Np.ranges_of_cumsum [] = Raise ValueError.
Proof. reflexivity. Qed.

(** The ranges built from the running sum of non-negative lengths obey the
    packing law. *)
Lemma ranges_of_cumsum_packing (L : list Z) :
  L <> [] -> Forall (fun x => 0 <= x) L -> zsum L <= Np.int64_max ->
  exists ranges,
    Np.ranges_of_cumsum (Np.cumsum L) = Ok ranges /\ packing_law L ranges.
Proof.
  intros Hne Hpos Hmax.
  assert (Hc : Np.cumsum L <> []).
  { intros E. apply (f_equal length) in E. unfold Np.cumsum in E.
    rewrite cumsum_from_length in E. destruct L; [done|discriminate]. }
  eexists. split; [by apply ranges_of_cumsum_nonempty|].
  assert (Hlen : length (Np.cumsum L) = length L) by apply cumsum_from_length.
  split.
  - rewrite length_zip_with, length_cons, drop_last_length. lia.
  - intros i Hi.
    assert (Hend : Np.cumsum L !! i = Some (zsum (take (S i) L))).
    { unfold Np.cumsum. rewrite cumsum_from_lookup; [f_equal; lia|done|lia|lia|done]. }
    assert (Hstart : (0 :: Np.drop_last (Np.cumsum L)) !! i = Some (zsum (take i L))).
    { destruct i as [|i]; [done|]. simpl.
      unfold Np.drop_last. rewrite lookup_take_lt by lia.
      unfold Np.cumsum. rewrite cumsum_from_lookup; [f_equal; lia|done|lia|lia|lia]. }
    apply lookup_zip_with_Some. eauto.
Qed.

(** ** Compaction of the per-edge ranges *)

Lemma valid_ranges_cons (p : Z * Z) (r : list (Z * Z)) :
  valid_ranges (p :: r) -> 0 <= p.1 <= p.2 /\ valid_ranges r.
Proof.
  intros [Hord Hsum]. inversion Hord as [|? ? Hp Hr]; subst.
  split; [done|]. split; [done|].
  simpl in Hsum. unfold range_length at 1 in Hsum. lia.
Qed.

Lemma valid_ranges_lengths_nonneg (r : list (Z * Z)) :
  valid_ranges r -> Forall (fun x => 0 <= x) (map range_length r).
Proof.
  intros [Hord _]. induction Hord as [|p r Hp _ IH]; simpl; constructor;
    [unfold range_length; lia | done].
Qed.

Lemma diff_rows_valid (r : list (Z * Z)) :
  valid_ranges r -> Np.diff_rows r = map range_length r.
Proof.
  induction r as [|p r IH]; intros Hv; [done|].
  destruct (valid_ranges_cons _ _ Hv) as [Hp Hr].
  pose proof (zsum_nonneg _ (valid_ranges_lengths_nonneg _ Hr)) as Hs.
  destruct Hv as [_ Hsum]. simpl in Hsum.
  unfold Np.diff_rows in *. simpl. rewrite IH by done. f_equal.
  apply wrap64_small. unfold range_length, Np.int64_max in *. lia.
Qed.

Lemma compact_indices_valid (r : list (Z * Z)) :
  valid_ranges r ->
  compact_indices r = Np.ranges_of_cumsum (Np.cumsum (map range_length r)).
Proof. intros Hv. unfold compact_indices. by rewrite diff_rows_valid. Qed.

Lemma packing_law_lengths (L : list Z) (r : list (Z * Z)) :
  packing_law L r -> map range_length r = L.
Proof.
  intros [Hlen Hlaw]. apply list_eq. intros i.
  rewrite list_lookup_fmap.
  destruct (decide (i < length L)%nat) as [Hi|Hi].
  - rewrite (Hlaw i Hi). simpl.
    destruct (lookup_lt_is_Some_2 L i Hi) as [x Hx]. rewrite Hx. f_equal.
    unfold range_length. simpl. rewrite (zsum_take_S _ _ _ Hx). lia.
  - rewrite (lookup_ge_None_2 r), (lookup_ge_None_2 L) by lia. done.
Qed.

Lemma zsum_take_le (L : list Z) (i : nat) :
  Forall (fun x => 0 <= x) L -> 0 <= zsum (take i L) <= zsum L.
Proof.
  intros Hpos.
  assert (E : zsum L = zsum (take i L) + zsum (drop i L)).
  { by rewrite <- zsum_app, take_drop. }
  pose proof (zsum_nonneg (take i L) (Forall_take _ _ _ Hpos)).
  pose proof (zsum_nonneg (drop i L) (Forall_drop _ _ _ Hpos)).
  lia.
Qed.

Lemma packing_law_valid (L : list Z) (r : list (Z * Z)) :
  Forall (fun x => 0 <= x) L -> zsum L <= Np.int64_max ->
  packing_law L r -> valid_ranges r.
Proof.
  intros Hpos Hmax Hlaw. split.
  - destruct Hlaw as [Hlen Hlaw]. apply Forall_lookup. intros i p Hp.
    assert (Hi : (i < length L)%nat).
    { rewrite <- Hlen. by eapply lookup_lt_Some. }
    rewrite (Hlaw i Hi) in Hp. injection Hp as <-. simpl.
    destruct (lookup_lt_is_Some_2 L i Hi) as [x Hx].
    rewrite (zsum_take_S _ _ _ Hx).
    pose proof (zsum_take_le L i Hpos).
    assert (0 <= x) by (eapply (proj1 (Forall_lookup _ _) Hpos); eauto).
    lia.
  - by rewrite (packing_law_lengths L r Hlaw).
Qed.

(** C3.  The compaction of [resize_edge_geometry] is idempotent and keeps
    every edge's length: for a valid range list, compacting the compacted
    ranges gives the compacted ranges again (also as outcomes: the one range
    list on which the compaction raises is the empty one), a non-empty list
    is always compacted, and range [i] of the result is as long as range
    [i] of the input. *)
Theorem compact_indices_idempotent_length_preserving (r : list (Z * Z)) :
  valid_ranges r ->
  result_bind (compact_indices r) compact_indices = compact_indices r /\
  (r <> [] -> exists r', compact_indices r = Ok r') /\
  (forall r', compact_indices r = Ok r' ->
     compact_indices r' = Ok r' /\
     length r' = length r /\
     forall (i : nat) (old new : Z * Z),
       r !! i = Some old -> r' !! i = Some new ->
       range_length new = range_length old).
Proof.
  intros Hv.
  pose proof (valid_ranges_lengths_nonneg r Hv) as Hpos.
  assert (Hmax : zsum (map range_length r) <= Np.int64_max) by apply Hv.
  assert (Hstep : forall r', compact_indices r = Ok r' ->
            packing_law (map range_length r) r').
  { intros r' Hr'. rewrite compact_indices_valid in Hr' by done.
    destruct r as [|p r]; [discriminate|].
    destruct (ranges_of_cumsum_packing (map range_length (p :: r)))
      as (r2 & Hr2 & Hlaw); [done|done|done|].
    rewrite Hr2 in Hr'. by injection Hr' as <-. }
  assert (Hidem : forall r', compact_indices r = Ok r' -> compact_indices r' = Ok r').
  { intros r' Hr'. pose proof (Hstep r' Hr') as Hlaw.
    rewrite compact_indices_valid by (by eapply packing_law_valid).
    rewrite (packing_law_lengths _ _ Hlaw).
    by rewrite <- compact_indices_valid. }
  split; [|split].
  - destruct (compact_indices r) as [r'|e] eqn:E; simpl; [by apply Hidem|done].
  - intros Hne. rewrite compact_indices_valid by done.
    destruct (ranges_of_cumsum_packing (map range_length r)) as (r2 & Hr2 & _);
      [by destruct r|done|done|]. eauto.
  - intros r' Hr'. split; [by apply Hidem|].
    pose proof (Hstep r' Hr') as Hlaw.
    pose proof (packing_law_lengths _ _ Hlaw) as Hlens.
    split.
    + destruct Hlaw as [Hlen _]. by rewrite Hlen, length_map.
    + intros i old new Hold Hnew.
      apply (f_equal (fun l => l !! i)) in Hlens.
      rewrite !list_lookup_fmap, Hold, Hnew in Hlens. simpl in Hlens.
      by injection Hlens.
Qed.

Lemma compact_indices_idempotent_length_preserving_witness :
  valid_ranges [(2, 5); (9, 13); (13, 13)] /\
  result_bind (compact_indices [(2, 5); (9, 13); (13, 13)]) compact_indices
    = compact_indices [(2, 5); (9, 13); (13, 13)].
Proof.
  assert (Hv : valid_ranges [(2, 5); (9, 13); (13, 13)]).
  { split; [repeat constructor; simpl; lia | vm_compute; discriminate]. }
  split; [exact Hv|].
  exact (proj1 (compact_indices_idempotent_length_preserving _ Hv)).
Defined.

(** ** Setting a packed geometry *)

Lemma dict_keys_elem {V} (d : gmap string V) (name : string) :
  name ∈ dict_keys d <-> is_Some (d !! name).
Proof.
  unfold dict_keys. rewrite list_elem_of_fmap. split.
  - intros [[k v] [-> Hin]]. apply elem_of_map_to_list in Hin. simpl. eauto.
  - intros [v Hv]. exists (name, v). split; [done|]. by apply elem_of_map_to_list.
Qed.

Lemma dict_has_keys {V} (d : gmap string V) (name : string) :
  bool_decide (name ∈ dict_keys d) = dict_has d name.
Proof.
  unfold dict_has. destruct (d !! name) as [v|] eqn:E.
  - apply bool_decide_eq_true. apply dict_keys_elem. eauto.
  - apply bool_decide_eq_false. rewrite dict_keys_elem, E. by intros [? ?].
Qed.

Section GeometryFacts.
Context {sample : Type} `{Zero sample} `{Engine sample}.

Lemma map_result_py_len (arrays : list (list (pyval sample))) :
  map_result py_len (map PyNdarray arrays) = Ok (lengths_of arrays).
Proof. induction arrays as [|a l IH]; simpl; [done|]. by rewrite IH. Qed.

Lemma np_shape_items (s : list nat) (a : list (pyval sample)) :
  items_of_shape s a -> np_shape (PyNdarray a) = Some (length a :: s).
Proof.
  intros [Hne Hall]. destruct a as [|x a]; [done|].
  apply Forall_cons in Hall as [Hx Ha]. simpl. rewrite Hx.
  assert (E : forallb (fun y => bool_decide (np_shape y = Some s)) a = true).
  { apply forallb_forall. intros y Hy. apply bool_decide_eq_true.
    rewrite Forall_forall in Ha. apply Ha. by apply list_elem_of_In. }
  by rewrite E.
Qed.

Lemma np_rows_items (s : list nat) (a : list (pyval sample)) :
  items_of_shape s a -> np_rows (PyNdarray a) = Ok (a, s).
Proof. intros Ha. unfold np_rows. by rewrite (np_shape_items s a Ha). Qed.

Lemma np_atleast_2d_matrix (s : list nat) (a : list (pyval sample)) :
  s <> [] -> items_of_shape s a -> np_atleast_2d (PyNdarray a) = PyNdarray a.
Proof.
  intros Hs Ha. unfold np_atleast_2d. rewrite (np_shape_items s a Ha). by destruct s.
Qed.

(** Arrays of two or more dimensions that agree in the shape of their
    items are stacked by joining their items. *)
Lemma py_vstack_arrays (s : list nat) (arrays : list (list (pyval sample))) :
  s <> [] -> arrays <> [] -> Forall (items_of_shape s) arrays ->
  py_vstack (PyList (map PyNdarray arrays)) = Ok (PyNdarray (concat arrays)).
Proof.
  intros Hs Hne Hall. unfold py_vstack, np_vstack, np_concatenate. simpl.
  assert (E : map_result np_rows (map np_atleast_2d (map PyNdarray arrays))
              = Ok (map (fun a => (a, s)) arrays)).
  { clear Hne. induction Hall as [|a l Ha Hl IH]; simpl; [done|].
    rewrite (np_atleast_2d_matrix s a Hs Ha), (np_rows_items s a Ha). simpl.
    by rewrite IH. }
  rewrite E. simpl. destruct arrays as [|a l]; [done|]. simpl.
  rewrite bool_decide_eq_true_2 by done. simpl.
  assert (F : forallb (fun r' : list (pyval sample) * list nat => bool_decide (r'.2 = s))
                (map (fun a => (a, s)) l) = true).
  { apply forallb_forall. intros r Hr. apply in_map_iff in Hr as (a' & <- & _).
    by apply bool_decide_eq_true. }
  rewrite F. do 3 f_equal. clear. induction l as [|b l IH]; simpl; [done|]. by rewrite IH.
Qed.

Lemma define_edge_property_whole (g : Graph sample) (name : string) (items : list (pyval sample)) :
  length items = length (gt_edges (base g)) ->
  define_edge_property name (PyNdarray items) None g =
    (Ok tt, mk_Graph
       (mk_gt_Graph (gt_directed (base g)) (gt_num_vertices (base g)) (gt_edges (base g))
          (gt_vertex_properties (base g))
          (<[name := items]> (gt_edge_properties (base g)))
          (gt_graph_properties (base g)) (gt_view (base g)))
       PyNone PyNone PyNone).
Proof.
  intros Hlen. destruct g as [b mv mf fe]. simpl in *.
  unfold define_edge_property, edge_properties, bind, get__base, ret. simpl.
  rewrite dict_has_keys.
  unfold set_edge_property, add_edge_property, bind, get__base, lift, ret,
    property_map_from_python, store_edge_property, set__base, invalidate_caches,
    dict_get, dict_has.
  destruct (gt_edge_properties b !! name) eqn:E; simpl; rewrite ?E; simpl;
    rewrite Hlen, Nat.eqb_refl; simpl; reflexivity.
Qed.

Lemma define_graph_property_array (g : Graph sample) (name : string) (items : list (pyval sample)) :
  define_graph_property name (PyNdarray items) g =
    (Ok tt, mk_Graph
       (mk_gt_Graph (gt_directed (base g)) (gt_num_vertices (base g)) (gt_edges (base g))
          (gt_vertex_properties (base g)) (gt_edge_properties (base g))
          (<[name := PyNdarray items]> (gt_graph_properties (base g))) (gt_view (base g)))
       PyNone PyNone PyNone).
Proof.
  destruct g as [b mv mf fe]. simpl.
  unfold define_graph_property, set_graph_property, add_graph_property, graph_properties,
    store_graph_property, bind, get__base, set__base, invalidate_caches, ret. simpl.
  destruct (bool_decide (name ∈ dict_keys (gt_graph_properties b))) eqn:E; simpl;
    rewrite ?E; simpl; reflexivity.
Qed.

Lemma zsum_lengths_concat {B} (arrays : list (list B)) :
  zsum (lengths_of arrays) = Z.of_nat (length (concat arrays)).
Proof.
  unfold lengths_of. induction arrays as [|a l IH]; simpl; [done|]. rewrite length_app, IH. lia.
Qed.

(** The graph a packed geometry leaves behind. *)
Lemma set_edge_geometry_graph_state (g : Graph sample) (name : string) (item_shape : list nat)
    (arrays : list (list (pyval sample))) :
  in_graph_mode g ->
  item_shape <> [] ->
  Forall (items_of_shape item_shape) arrays ->
  arrays <> [] ->
  length arrays = length (gt_edges (base g)) ->
  zsum (lengths_of arrays) <= Np.int64_max ->
  exists ranges,
    packing_law (lengths_of arrays) ranges /\
    set_edge_geometry name (PyList (map PyNdarray arrays)) None None g =
      (Ok tt, mk_Graph
         (mk_gt_Graph (gt_directed (base g)) (gt_num_vertices (base g)) (gt_edges (base g))
            (gt_vertex_properties (base g))
            (<["edge_geometry_indices"%string := map (fun r => PyRange r.1 r.2) ranges]>
               (gt_edge_properties (base g)))
            (<[edge_geometry_property_name name := PyNdarray (concat arrays)]>
               (gt_graph_properties (base g)))
            (gt_view (base g)))
         PyNone PyNone PyNone).
Proof.
  intros Hmode Hshape Hall Hne Hlen Hmax.
  set (L := lengths_of arrays) in *.
  destruct (ranges_of_cumsum_packing L) as (ranges & Hranges & Hlaw).
  { subst L; unfold lengths_of. by destruct arrays. }
  { subst L; unfold lengths_of. clear. induction arrays; simpl; constructor; [lia|done]. }
  { done. }
  exists ranges. split; [done|].
  unfold in_graph_mode in Hmode. destruct g as [b mv mf fe]. simpl in *.
  unfold set_edge_geometry, edge_geometry_type, graph_property, bind, get__base, lift, dict_get, ret.
  simpl. rewrite Hmode. simpl.
  unfold _set_edge_geometry_graph, bind, lift, ret. simpl.
  rewrite map_result_py_len. fold L. rewrite Hranges. simpl.
  rewrite (py_vstack_arrays item_shape) by done. simpl.
  unfold indices_array. rewrite define_edge_property_whole; simpl.
  2:{ rewrite length_map. destruct Hlaw as [-> _]. subst L; unfold lengths_of. by rewrite length_map. }
  rewrite define_graph_property_array. simpl. done.
Qed.

End GeometryFacts.



(** 1-D arrays of one length are stacked as the rows of a matrix: for four
    arrays of two radii the ranges cover eight samples, the stored array has
    four rows. *)
Example set_edge_geometry_radii_rows :
  let radii := [Reference.samples 100 2; Reference.samples 200 2;
                Reference.samples 300 2; Reference.samples 400 2] in
  let g' := Reference.state_after
              (set_edge_geometry "radii" (PyList (map PyNdarray radii)) None None)
              Reference.scenario_bare in
  gt_edge_properties (base g') !! "edge_geometry_indices"%string
    = Some [PyRange 0 2; PyRange 2 4; PyRange 4 6; PyRange 6 8] /\
  gt_graph_properties (base g') !! "edge_geometry_radii"%string
    = Some (PyNdarray (map PyNdarray radii)).
Proof. split; vm_compute; reflexivity. Qed.

(** A list without arrays raises as well: the index rows built from an
    empty running sum have lengths 1 and 0. *)
Example set_edge_geometry_no_arrays :
  set_edge_geometry "coordinates" (PyList []) None None Reference.Graph_new
  = (Raise ValueError, Reference.Graph_new).
Proof. vm_compute. reflexivity. Qed.

(** The instance the specification gives: lengths [3, 4, 5, 6] are stored as
    the indices [(0,3), (3,7), (7,12), (12,18)] over an array of length 18. *)
Example scenario_packed :
  gt_edge_properties (base Reference.scenario) !! "edge_geometry_indices"%string
    = Some [PyRange 0 3; PyRange 3 7; PyRange 7 12; PyRange 12 18] /\
  Reference.outcome (r <- graph_property "edge_geometry_coordinates" ;; lift (py_len r))
    Reference.scenario = Ok 18.
Proof. split; vm_compute; reflexivity. Qed.

(** ** Converting between the geometry modes *)

(** C1.  On the scenario graph (packed mode, coordinates set for its four
    edges) the conversion to 'edge' mode raises: the loop passes the full
    property name [edge_geometry_coordinates] to [edge_geometry], which
    prefixes it again and looks up a graph property that does not exist.
    Nothing has been converted when it raises. *)
Theorem set_edge_geometry_type_edge_raises :
  set_edge_geometry_type "edge" Reference.scenario =
    (Raise (KeyError "edge_geometry_edge_geometry_coordinates"), Reference.scenario).
Proof. vm_compute. reflexivity. Qed.

(** The names the conversion loops over carry the prefix already. *)
Example scenario_geometry_property_names :
  Reference.outcome edge_geometry_property_names Reference.scenario
    = Ok ["edge_geometry_coordinates"%string] /\
  Reference.outcome edge_geometry_properties Reference.scenario
    = Ok ["coordinates"%string].
Proof. split; vm_compute; reflexivity. Qed.

(** ** Single-edge writes in packed mode *)

(** C6.  In packed mode [set_edge_geometry] with an [edge] argument raises
    [NotImplementedError], whatever the name, the values, the indices and
    the edge are, and leaves the graph as it was. *)
Theorem set_edge_geometry_single_edge_packed {sample} (g : Graph sample) (name : string)
    (values : pyval sample) (indices : option (pyval sample)) (e : edge_spec) :
  in_graph_mode g ->
  set_edge_geometry name values indices (Some e) g = (Raise NotImplementedError, g).
Proof.
  intros Hmode. unfold in_graph_mode in Hmode.
  unfold set_edge_geometry, edge_geometry_type, graph_property, bind, get__base, lift,
    dict_get. simpl.
  rewrite Hmode. reflexivity.
Qed.

Lemma set_edge_geometry_single_edge_packed_witness :
  set_edge_geometry "coordinates" (PyNdarray (Reference.samples 1 3)) None
    (Some (EdgeInt 0)) Reference.scenario = (Raise NotImplementedError, Reference.scenario).
Proof.
  apply (set_edge_geometry_single_edge_packed Reference.scenario).
  vm_compute. reflexivity.
Defined.

(** ** Sub-graphs of a packed graph *)

(** C4.  Filtering the scenario graph to vertex [0] alone leaves no edge;
    the compaction run on the pruned graph then raises (the two rows built
    from an empty running sum have lengths 1 and 0), so [sub_graph] returns
    no graph. *)
Theorem sub_graph_without_edges_raises :
  sub_graph (Some (true :: replicate 9 false)) None false Reference.scenario
    = (Raise ValueError, Reference.scenario).
Proof. vm_compute. reflexivity. Qed.

(** The scenario of the specification: filtering to the vertices [0..4]
    keeps the edge [(1, 3)] only, with indices [(0, 3)] and a packed array
    holding exactly the three coordinate rows of that edge. *)
Example sub_graph_scenario :
  exists s : Graph Z,
    sub_graph (Some (replicate 5 true ++ replicate 5 false)) None false Reference.scenario
      = (Ok s, Reference.scenario) /\
    gt_num_vertices (base s) = 5%nat /\
    gt_edges (base s) = [(1, 3)]%nat /\
    gt_view (base s) = None /\
    gt_edge_properties (base s) !! "edge_geometry_indices"%string = Some [PyRange 0 3] /\
    gt_graph_properties (base s) !! "edge_geometry_coordinates"%string
      = Some (PyNdarray (Reference.points 100 3)).
Proof. eexists. split; [vm_compute; reflexivity|]. repeat split. Qed.

(** ** The guard of the range remap *)

Section Remap.
Context {sample : Type}.

(** C5.  When some position holds an old and a new range of different
    lengths, the remap raises [ConsistencyError] and the destination array
    is as it was: nothing has been written. *)
Theorem remap_array_ranges_length_guard (prop dst : list (pyval sample))
    (indices indices_new : list (Z * Z)) (i : nat) (old new : Z * Z) :
  indices !! i = Some old -> indices_new !! i = Some new ->
  range_length old <> range_length new ->
  remap_array_ranges prop indices indices_new dst = (Raise ConsistencyError, dst).
Proof.
  intros Hold Hnew Hne. unfold remap_array_ranges.
  assert (Hin : (old, new) ∈ zip indices indices_new).
  { apply list_elem_of_lookup. exists i. apply lookup_zip_with_Some. eauto. }
  destruct (forallb _ _) eqn:E; [|reflexivity].
  rewrite forallb_forall in E. apply list_elem_of_In in Hin.
  specialize (E _ Hin). simpl in E. apply Z.eqb_eq in E. done.
Qed.

End Remap.

Lemma remap_array_ranges_length_guard_witness :
  remap_array_ranges (Reference.samples 0 6) [(0, 2); (2, 6)] [(0, 2); (2, 5)]
    (replicate 5 (PySample 0))
  = (Raise ConsistencyError, replicate 5 (PySample 0)).
Proof.
  apply (remap_array_ranges_length_guard _ _ _ _ 1%nat (2, 6) (2, 5));
    [reflexivity | reflexivity | vm_compute; discriminate].
Defined.

(** ** Mutations and the mesh cache *)

Section Judgements.
Context {S : Type}.

Lemma reads_ret {B} (b : B) : reads (S := S) (ret b).
Proof. intros s r s' E. by injection E as _ <-. Qed.

Lemma reads_raise {B} (e : exn) : reads (S := S) (B := B) (raise e).
Proof. intros s r s' E. by injection E as _ <-. Qed.

Lemma reads_lift {B} (x : result B) : reads (S := S) (lift x).
Proof. intros s r s' E. by injection E as _ <-. Qed.

Lemma reads_get : reads (S := S) get.
Proof. intros s r s' E. by injection E as _ <-. Qed.

Lemma reads_bind {B C} (m : M S B) (f : B -> M S C) :
  reads m -> (forall b, reads (f b)) -> reads (bind m f).
Proof.
  intros Hm Hf s r s' E. unfold bind in E.
  destruct (m s) as [[b|e] s1] eqn:E1.
  - apply Hm in E1 as ->. by eapply Hf.
  - injection E as _ <-. by eapply Hm.
Qed.

Lemma reads_fails_clean {B} (m : M S B) : reads m -> fails_clean m.
Proof. intros Hm s e s' E. by eapply Hm. Qed.

Lemma fails_clean_bind {B C} (m : M S B) (f : B -> M S C) :
  reads m -> (forall b, fails_clean (f b)) -> fails_clean (bind m f).
Proof.
  intros Hm Hf s e s' E. unfold bind in E.
  destruct (m s) as [[b|e1] s1] eqn:E1.
  - apply Hm in E1 as ->. by eapply Hf.
  - injection E as _ <-. by eapply Hm.
Qed.

Lemma fails_clean_put (s0 : S) : fails_clean (put s0).
Proof. intros s e s' E. discriminate. Qed.

End Judgements.

Section Cache.
Context {sample : Type} `{Engine sample}.
Local Abbreviation G := (Graph sample).

Lemma reads_get__base : reads (get__base (sample := sample)).
Proof. intros s r s' E. by injection E as _ <-. Qed.

Lemma fails_clean_set__base (b : gt_Graph sample) : fails_clean (set__base b).
Proof. intros s e s' E. discriminate. Qed.

Lemma preserves_cache_reads {B} (m : M G B) : reads m -> preserves_cache m.
Proof. intros Hm g r g' E. by rewrite (Hm _ _ _ E). Qed.

Lemma preserves_cache_set__base (b : gt_Graph sample) : preserves_cache (set__base (sample := sample) b).
Proof. intros g r g' E. by injection E as _ <-. Qed.

Lemma preserves_cache_bind {B C} (m : M G B) (f : B -> M G C) :
  preserves_cache m -> (forall b, preserves_cache (f b)) -> preserves_cache (bind m f).
Proof.
  intros Hm Hf g r g' E. unfold bind in E.
  destruct (m g) as [[b|e] g1] eqn:E1.
  - rewrite (Hf _ _ _ _ E). by eapply Hm.
  - injection E as _ <-. by eapply Hm.
Qed.

Lemma invalidates_cache_raise {B} (e : exn) : invalidates_cache (B := B) (raise (S := G) e).
Proof. intros g r g' E. injection E as <- <-. split; [discriminate|by right]. Qed.

Lemma invalidates_cache_after_read {B C} (m : M G B) (f : B -> M G C) :
  reads m -> (forall b, invalidates_cache (f b)) -> invalidates_cache (bind m f).
Proof.
  intros Hm Hf g r g' E. unfold bind in E.
  destruct (m g) as [[b|e] g1] eqn:E1.
  - apply Hm in E1 as ->. by eapply Hf.
  - injection E as <- <-. split; [discriminate|]. right. by eapply Hm.
Qed.

(** A step whose failures are clean, followed by [invalidate_caches]. *)
Lemma invalidates_cache_last {B} (m : M G B) :
  fails_clean m -> invalidates_cache (m ;;; invalidate_caches).
Proof.
  intros Hm g r g' E. unfold bind in E.
  destruct (m g) as [[b|e] g1] eqn:E1.
  - injection E as <- <-. split; [reflexivity|by left].
  - injection E as <- <-. split; [discriminate|]. right. by eapply Hm.
Qed.

Lemma invalidates_cache_seq {B C} (m1 : M G B) (m2 : M G C) :
  invalidates_cache m1 -> invalidates_cache m2 -> invalidates_cache (m1 ;;; m2).
Proof.
  intros H1 H2 g r g' E. unfold bind in E.
  destruct (m1 g) as [[b|e] g1] eqn:E1.
  - destruct (H1 _ _ _ E1) as [Hok _]. specialize (Hok b eq_refl).
    destruct (H2 _ _ _ E) as [Hok2 Hor]. split; [done|].
    destruct Hor as [?| ->]; by left.
  - injection E as <- <-. split; [discriminate|]. by destruct (H1 _ _ _ E1).
Qed.

Ltac reading :=
  repeat first
    [ apply reads_get__base | apply reads_ret | apply reads_raise | apply reads_lift
    | apply reads_get
    | apply reads_bind; [|intros ?]
    | match goal with
      | |- reads (match ?x with _ => _ end) => destruct x
      | |- reads (if ?x then _ else _) => destruct x
      end ].

Ltac failing_clean :=
  repeat first
    [ apply fails_clean_set__base
    | apply fails_clean_bind; [solve [reading]|intros ?]
    | match goal with
      | |- fails_clean (match ?x with _ => _ end) => destruct x
      | |- fails_clean (if ?x then _ else _) => destruct x
      end
    | apply reads_fails_clean; solve [reading] ].

Ltac invalidating :=
  repeat first
    [ apply invalidates_cache_raise
    | apply invalidates_cache_last; solve [failing_clean]
    | apply invalidates_cache_after_read; [solve [reading]|intros ?]
    | match goal with
      | |- invalidates_cache (match ?x with _ => _ end) => destruct x
      | |- invalidates_cache (if ?x then _ else _) => destruct x
      end ].

Lemma reads_edge_index (e : edge_spec) : reads (edge_index (sample := sample) e).
Proof. unfold edge_index, edge, edge_key. reading. Qed.

Lemma add_vertex_invalidates n v : invalidates_cache (add_vertex (sample := sample) n v).
Proof. unfold add_vertex. invalidating. Qed.

Lemma remove_vertex_invalidates v : invalidates_cache (remove_vertex (sample := sample) v).
Proof.
  unfold remove_vertex.
  apply invalidates_cache_after_read; [reading|intros b].
  apply invalidates_cache_after_read; [reading|intros b'].
  invalidating.
Qed.

Lemma add_edge_invalidates e : invalidates_cache (add_edge (sample := sample) e).
Proof.
  unfold add_edge.
  apply invalidates_cache_after_read; [reading|intros b].
  apply invalidates_cache_after_read; [reading|intros b'].
  invalidating.
Qed.

Lemma remove_edge_invalidates e : invalidates_cache (remove_edge (sample := sample) e).
Proof.
  unfold remove_edge.
  apply invalidates_cache_after_read; [unfold edge; reading|intros d].
  apply invalidates_cache_after_read; [unfold edge_key; reading|intros i].
  apply invalidates_cache_after_read; [reading|intros b].
  apply invalidates_cache_after_read; [reading|intros b'].
  invalidating.
Qed.

Lemma remove_vertex_property_invalidates name : invalidates_cache (remove_vertex_property (sample := sample) name).
Proof. unfold remove_vertex_property. invalidating. Qed.

Lemma add_edge_property_invalidates name source : invalidates_cache (add_edge_property (sample := sample) name source).
Proof.
  unfold add_edge_property, store_edge_property.
  apply invalidates_cache_after_read; [reading|intros b].
  apply invalidates_cache_after_read; [reading|intros p].
  invalidating.
Qed.

Lemma set_edge_property_invalidates name source e :
  invalidates_cache (set_edge_property (sample := sample) name source e).
Proof.
  unfold set_edge_property, store_edge_property.
  apply invalidates_cache_after_read; [reading|intros b].
  destruct (negb _); [invalidating|].
  apply invalidates_cache_after_read; [reading|intros p].
  apply invalidates_cache_last.
  destruct e as [e|].
  - apply fails_clean_bind; [apply reads_edge_index|intros i]. failing_clean.
  - failing_clean.
Qed.

Lemma define_edge_property_invalidates name source e :
  invalidates_cache (define_edge_property (sample := sample) name source e).
Proof.
  unfold define_edge_property, edge_properties.
  apply invalidates_cache_after_read; [reading|intros names].
  destruct (bool_decide _); [apply set_edge_property_invalidates|].
  destruct e as [e|]; [|apply add_edge_property_invalidates].
  apply invalidates_cache_seq;
    [apply add_edge_property_invalidates|apply set_edge_property_invalidates].
Qed.

Lemma remove_edge_property_invalidates name : invalidates_cache (remove_edge_property (sample := sample) name).
Proof. unfold remove_edge_property, edge_properties. invalidating. Qed.

Lemma add_graph_property_invalidates name source :
  invalidates_cache (add_graph_property (sample := sample) name source).
Proof. unfold add_graph_property, store_graph_property. invalidating. Qed.

Lemma set_graph_property_invalidates name source :
  invalidates_cache (set_graph_property (sample := sample) name source).
Proof. unfold set_graph_property, graph_properties, store_graph_property. invalidating. Qed.

Lemma define_graph_property_invalidates name source :
  invalidates_cache (define_graph_property (sample := sample) name source).
Proof.
  unfold define_graph_property, graph_properties.
  apply invalidates_cache_after_read; [reading|intros names].
  destruct (bool_decide _);
    [apply set_graph_property_invalidates|apply add_graph_property_invalidates].
Qed.

Lemma remove_graph_property_invalidates name : invalidates_cache (remove_graph_property (sample := sample) name).
Proof. unfold remove_graph_property, graph_properties. invalidating. Qed.

Ltac preserving :=
  repeat first
    [ apply preserves_cache_set__base
    | apply preserves_cache_reads; solve [reading]
    | apply preserves_cache_bind; [|intros ?]
    | match goal with
      | |- preserves_cache (match ?x with _ => _ end) => destruct x
      | |- preserves_cache (if ?x then _ else _) => destruct x
      end ].

Lemma add_vertex_property_preserves name source :
  preserves_cache (add_vertex_property (sample := sample) name source).
Proof. unfold add_vertex_property, store_vertex_property. preserving. Qed.

Lemma set_vertex_property_preserves name source v :
  preserves_cache (set_vertex_property (sample := sample) name source v).
Proof. unfold set_vertex_property, store_vertex_property. preserving. Qed.

Lemma define_vertex_property_preserves name source v :
  preserves_cache (define_vertex_property (sample := sample) name source v).
Proof.
  unfold define_vertex_property, vertex_properties.
  apply preserves_cache_bind; [preserving|intros names].
  destruct (bool_decide _); [apply set_vertex_property_preserves|].
  destruct v; [|apply add_vertex_property_preserves].
  apply preserves_cache_bind;
    [apply add_vertex_property_preserves|intros; apply set_vertex_property_preserves].
Qed.

(** C7 (amended).  Adding and removing vertices and edges, removing a vertex
    property, and adding, setting, defining and removing an edge or a graph
    property end with the cached mesh invalidated (a call that raises has
    either invalidated it or not changed the graph at all); adding, setting
    and defining a vertex property leave the cached mesh as it is. *)
Theorem mutation_mesh_cache (op : mutation sample) (g g' : Graph sample) (r : result unit) :
  mutate op g = (r, g') ->
  if keeps_cache op then mesh_cache g' = mesh_cache g
  else (r = Ok tt -> cache_invalid g') /\ (cache_invalid g' \/ g' = g).
Proof.
  intros Hrun.
  assert (Hinv : forall m : M G unit, invalidates_cache m -> m g = (r, g') ->
            (r = Ok tt -> cache_invalid g') /\ (cache_invalid g' \/ g' = g)).
  { intros m Hm E. destruct (Hm _ _ _ E) as [Hok Hor]. split; [|done].
    intros ->. by apply (Hok tt). }
  destruct op; simpl in *.
  - eapply Hinv; [apply add_vertex_invalidates|done].
  - eapply Hinv; [apply remove_vertex_invalidates|done].
  - eapply Hinv; [apply add_edge_invalidates|done].
  - eapply Hinv; [apply remove_edge_invalidates|done].
  - by eapply add_vertex_property_preserves.
  - by eapply set_vertex_property_preserves.
  - by eapply define_vertex_property_preserves.
  - eapply Hinv; [apply remove_vertex_property_invalidates|done].
  - eapply Hinv; [apply add_edge_property_invalidates|done].
  - eapply Hinv; [apply set_edge_property_invalidates|done].
  - eapply Hinv; [apply define_edge_property_invalidates|done].
  - eapply Hinv; [apply remove_edge_property_invalidates|done].
  - eapply Hinv; [apply add_graph_property_invalidates|done].
  - eapply Hinv; [apply set_graph_property_invalidates|done].
  - eapply Hinv; [apply define_graph_property_invalidates|done].
  - eapply Hinv; [apply remove_graph_property_invalidates|done].
Qed.

End Cache.

Lemma mutation_mesh_cache_witness :
  mutate (AddGraphProperty "shape" PyNone)
    (Reference.state_after edge_meshes Reference.scenario)
  = (Ok tt, Reference.state_after (add_graph_property "shape" PyNone)
              (Reference.state_after edge_meshes Reference.scenario)) /\
  cache_invalid (Reference.state_after (add_graph_property "shape" PyNone)
                   (Reference.state_after edge_meshes Reference.scenario)).
Proof.
  assert (E : mutate (AddGraphProperty "shape" PyNone)
                (Reference.state_after edge_meshes Reference.scenario)
              = (Ok tt, Reference.state_after (add_graph_property "shape" PyNone)
                          (Reference.state_after edge_meshes Reference.scenario)))
    by (vm_compute; reflexivity).
  split; [exact E|].
  exact (proj1 (mutation_mesh_cache _ _ _ _ E) eq_refl).
Defined.

(** The claim as stated fails for vertex properties: after the mesh has been
    read (and cached) on the scenario graph, adding a vertex property leaves
    the cache filled, and the next read returns the cached arrays. *)
Lemma add_vertex_property_keeps_mesh_cache :
  exists g' : Graph Z,
    mutate (AddVertexProperty "label" None)
      (Reference.state_after edge_meshes Reference.scenario) = (Ok tt, g') /\
    ~ cache_invalid g' /\
    Reference.outcome edge_meshes g'
      = Ok (mesh_cache (Reference.state_after edge_meshes Reference.scenario)).
Proof.
  eexists. split; [vm_compute; reflexivity|]. split.
  - vm_compute. discriminate.
  - vm_compute. reflexivity.
Qed.

(** ** The largest component *)



(** Ties go to the lowest label: counts [2, 3, 3] select label 1. *)
Example argmax_tie : Np.argmax [2; 3; 3] = Ok 1%nat.
Proof. reflexivity. Qed.

(** On the scenario graph the largest component is the path 6 - 7 - 9. *)
Example largest_component_scenario :
  exists s : Graph Z,
    largest_component false Reference.scenario = (Ok s, Reference.scenario) /\
    gt_num_vertices (base s) = 3%nat /\ gt_edges (base s) = [(0, 1); (1, 2)]%nat.
Proof. eexists. split; [vm_compute; reflexivity|]. split; reflexivity. Qed.

(** ** Binary morphology on edge labels: propagation, dilation, erosion *)

Lemma insert_sorted_elem (x y : nat) (l : list nat) :
  x ∈ Np.insert_sorted y l <-> x = y \/ x ∈ l.
Proof.
  induction l as [|z l IH]; simpl.
  - rewrite list_elem_of_singleton, elem_of_nil. tauto.
  - destruct (y <? z)%nat eqn:E1.
    + rewrite !elem_of_cons. tauto.
    + destruct (y =? z)%nat eqn:E2.
      * apply Nat.eqb_eq in E2 as ->. rewrite !elem_of_cons. tauto.
      * rewrite !elem_of_cons, IH. tauto.
Qed.

Lemma unique_elem (x : nat) (l : list nat) : x ∈ Np.unique l <-> x ∈ l.
Proof.
  unfold Np.unique. induction l as [|y l IH]; simpl; [done|].
  rewrite insert_sorted_elem, IH, elem_of_cons. tauto.
Qed.

Lemma elem_of_concat {B} (x : B) (ls : list (list B)) :
  x ∈ concat ls <-> exists l, x ∈ l /\ l ∈ ls.
Proof.
  induction ls as [|l ls IH]; simpl.
  - split; [by intros ?%elem_of_nil|]. intros [l [_ Hl]]. by apply elem_of_nil in Hl.
  - rewrite elem_of_app, IH. split.
    + intros [Hx|[l' [Hx Hl']]]; [exists l|exists l']; rewrite elem_of_cons; tauto.
    + intros [l' [Hx Hl']]. apply elem_of_cons in Hl' as [->|Hl']; [tauto|].
      right. by exists l'.
Qed.

Section WriteAll.
Context {A : Type}.

Lemma write_all_length (value : A) (idx : list nat) : forall label,
  length (write_all value label idx) = length label.
Proof.
  unfold write_all. induction idx as [|i idx IH]; intros label; simpl; [done|].
  rewrite IH. apply length_insert.
Qed.

Lemma write_all_lookup (value : A) (idx : list nat) : forall label (i : nat),
  write_all value label idx !! i =
    if bool_decide (i ∈ idx) then (if bool_decide (i < length label)%nat then Some value else None)
    else label !! i.
Proof.
  unfold write_all. induction idx as [|j idx IH]; intros label i.
  - rewrite bool_decide_eq_false_2; [done|]. apply not_elem_of_nil.
  - cbn [foldl]. rewrite IH, length_insert.
    rewrite (bool_decide_ext (i ∈ j :: idx) (i = j \/ i ∈ idx)) by apply elem_of_cons.
    destruct (decide (i ∈ idx)) as [Hin|Hin].
    + rewrite (bool_decide_eq_true_2 (i ∈ idx)) by done.
      rewrite (bool_decide_eq_true_2 (i = j \/ i ∈ idx)) by tauto. done.
    + rewrite (bool_decide_eq_false_2 (i ∈ idx)) by done.
      destruct (decide (i = j)) as [->|Hne].
      * rewrite (bool_decide_eq_true_2 (j = j \/ j ∈ idx)) by tauto.
        case_bool_decide.
        -- apply list_lookup_insert_eq; done.
        -- apply lookup_ge_None_2. rewrite length_insert. lia.
      * rewrite (bool_decide_eq_false_2 (i = j \/ i ∈ idx)) by tauto.
        apply list_lookup_insert_ne; done.
Qed.

End WriteAll.

Section Propagate.
Context {sample : Type} {A : Type} `{EqDecision A}.
Implicit Types (g : Graph sample) (h : gmap nat (list A)) (value : A).

Lemma array_read_ok h (ref : nat) (a : list A) :
  h !! ref = Some a -> array_read ref h = (Ok a, h).
Proof. intros E. unfold array_read, bind, get. simpl. rewrite E. done. Qed.

Lemma array_set_ok h (ref i : nat) (a : list A) value :
  h !! ref = Some a -> (i < length a)%nat ->
  array_set ref i value h = (Ok tt, <[ref := <[i := value]> a]> h).
Proof.
  intros E Hi. unfold array_set, bind. rewrite (array_read_ok _ _ _ E).
  apply Nat.ltb_lt in Hi. rewrite Hi. done.
Qed.

Lemma gt_out_edges_elem (b : gt_Graph sample) (v i : nat) :
  i ∈ gt_out_edges b v <->
  exists e, gt_edges b !! i = Some e /\ (e.1 = v \/ (gt_directed b = false /\ e.2 = v)).
Proof.
  unfold gt_out_edges. rewrite list_elem_of_fmap. split.
  - intros [[j e] [-> Hin]]. apply list_elem_of_filter in Hin as [Hp Hin].
    apply list_elem_of_lookup in Hin as [k Hk].
    rewrite list_lookup_imap in Hk.
    destruct (gt_edges b !! k) as [e'|] eqn:E; simpl in Hk; [|done].
    injection Hk as <- <-. exists e'. done.
  - intros [e [E Hp]]. exists (i, e). split; [done|].
    apply list_elem_of_filter. split; [done|].
    apply list_elem_of_lookup. exists i. rewrite list_lookup_imap, E. done.
Qed.

Lemma gt_out_edges_bound (b : gt_Graph sample) (v : nat) :
  Forall (fun i => (i < length (gt_edges b))%nat) (gt_out_edges b v).
Proof.
  apply Forall_forall. intros i Hi. apply gt_out_edges_elem in Hi as [e [E _]].
  by apply lookup_lt_Some in E.
Qed.

Lemma write_edges_ok g (ref : nat) value (idx : list nat) : forall (a : list A) h,
  h !! ref = Some a ->
  Forall (fun i => (i < length a)%nat) idx ->
  for_each idx (fun e =>
      i <- on_graph g (edge_index (EdgeDescriptor e)) ;; array_set ref i value) h
    = (Ok tt, <[ref := write_all value a idx]> h).
Proof.
  induction idx as [|i idx IH]; intros a h E Hall.
  - simpl. unfold ret. by rewrite insert_id.
  - apply Forall_cons in Hall as [Hi Hall].
    cbn [for_each]. unfold bind at 1. unfold bind at 1.
    unfold on_graph at 1. cbn.
    rewrite (array_set_ok _ _ _ _ _ E Hi).
    rewrite (IH (<[i := value]> a)).
    + by rewrite insert_insert_eq.
    + apply lookup_insert_eq.
    + rewrite length_insert. done.
Qed.

Lemma write_all_app value (a : list A) (l1 l2 : list nat) :
  write_all value a (l1 ++ l2) = write_all value (write_all value a l1) l2.
Proof. apply foldl_app. Qed.

Lemma write_vertices_ok g (ref : nat) value (vs : list nat) : forall (a : list A) h,
  h !! ref = Some a ->
  length a = length (gt_edges (base g)) ->
  Forall (fun v => (v < gt_num_vertices (base g))%nat) vs ->
  for_each vs (fun v =>
      es <- on_graph g (vertex_edges_iterator v) ;;
      for_each es (fun e =>
        i <- on_graph g (edge_index (EdgeDescriptor e)) ;; array_set ref i value)) h
    = (Ok tt, <[ref := write_all value a (concat (map (gt_out_edges (base g)) vs))]> h).
Proof.
  induction vs as [|v vs IH]; intros a h E Hlen Hall.
  - simpl. unfold ret. by rewrite insert_id.
  - apply Forall_cons in Hall as [Hv Hall].
    cbn [for_each map concat]. unfold bind at 1. unfold bind at 1.
    unfold on_graph at 1. cbn -[Nat.ltb gt_out_edges for_each]. apply Nat.ltb_lt in Hv. rewrite Hv.
    cbn -[gt_out_edges for_each].
    rewrite (write_edges_ok g ref value _ a h E).
    2:{ rewrite Hlen. apply gt_out_edges_bound. }
    rewrite (IH (write_all value a (gt_out_edges (base g) v))).
    + by rewrite insert_insert_eq, write_all_app.
    + apply lookup_insert_eq.
    + by rewrite write_all_length.
    + done.
Qed.

Lemma selected_edges_elem (b : gt_Graph sample) value (a : list A) (e : nat * nat) :
  e ∈ (filter (fun p => p.2 = true)
         (zip (gt_edges b) (map (fun x => bool_decide (x = value)) a))).*1 <->
  exists j, gt_edges b !! j = Some e /\ a !! j = Some value.
Proof.
  rewrite list_elem_of_fmap. split.
  - intros [[e' t] [-> Hin]]. apply list_elem_of_filter in Hin as [Ht Hin].
    simpl in Ht. subst t. apply list_elem_of_lookup in Hin as [j Hj].
    apply lookup_zip_with_Some in Hj as (x & y & Hxy & Hx & Hy).
    injection Hxy as <- Hy'. exists j. split; [done|].
    rewrite list_lookup_fmap in Hy. destruct (a !! j) as [z|]; [|done].
    simpl in Hy. injection Hy as Hy. rewrite <- Hy in Hy'.
    symmetry in Hy'. apply bool_decide_eq_true_1 in Hy'. by subst.
  - intros [j [He Ha]]. exists (e, true). split; [done|].
    apply list_elem_of_filter. split; [done|].
    apply list_elem_of_lookup. exists j.
    apply lookup_zip_with_Some. exists e, true. split; [done|]. split; [done|].
    rewrite list_lookup_fmap, Ha. simpl. by rewrite bool_decide_eq_true_2.
Qed.

Lemma round_vertices_elem (b : gt_Graph sample) value (a : list A) (v : nat) :
  v ∈ round_vertices b value a <->
  exists j e, gt_edges b !! j = Some e /\ a !! j = Some value /\ (v = e.1 \/ v = e.2).
Proof.
  unfold round_vertices. rewrite unique_elem, elem_of_concat. split.
  - intros [l [Hv Hl]]. apply list_elem_of_fmap in Hl as [e [-> He]].
    apply selected_edges_elem in He as [j [He Ha]]. exists j, e.
    rewrite !elem_of_cons, elem_of_nil in Hv. tauto.
  - intros (j & e & He & Ha & Hv). exists [e.1; e.2]. split.
    + rewrite !elem_of_cons. tauto.
    + apply list_elem_of_fmap. exists e. split; [done|].
      apply selected_edges_elem. by exists j.
Qed.

Lemma round_vertices_bound (b : gt_Graph sample) value (a : list A) :
  wf_edges b ->
  Forall (fun v => (v < gt_num_vertices b)%nat) (round_vertices b value a).
Proof.
  intros Hwf. apply Forall_forall. intros v Hv.
  apply round_vertices_elem in Hv as (j & e & He & _ & Hv).
  unfold wf_edges in Hwf. rewrite Forall_forall in Hwf.
  apply list_elem_of_lookup_2 in He. apply Hwf in He. destruct Hv; subst; tauto.
Qed.

Lemma edge_propagate_round_ok g (ref : nat) value (a : list A) h :
  h !! ref = Some a ->
  length a = length (gt_edges (base g)) ->
  wf_edges (base g) ->
  edge_propagate_round g ref value h = (Ok tt, <[ref := round_result (base g) value a]> h).
Proof.
  intros E Hlen Hwf. unfold edge_propagate_round.
  unfold bind at 1. rewrite (array_read_ok _ _ _ E).
  unfold bind at 1. unfold on_graph at 1. cbn -[for_each Np.unique boolean_index].
  unfold bind at 1. unfold boolean_index. rewrite length_map, Hlen, Nat.eqb_refl.
  cbn -[for_each Np.unique].
  apply (write_vertices_ok g ref value _ a h E Hlen).
  by apply round_vertices_bound.
Qed.

Lemma round_result_length (b : gt_Graph sample) value (a : list A) :
  length (round_result b value a) = length a.
Proof. apply write_all_length. Qed.

Lemma edge_propagate_rounds_ok g (ref : nat) value (n : nat) : forall (k : nat) (a : list A) h,
  h !! ref = Some a ->
  length a = length (gt_edges (base g)) ->
  wf_edges (base g) ->
  for_each (seq k n) (fun _ => edge_propagate_round g ref value) h
    = (Ok tt, <[ref := Nat.iter n (round_result (base g) value) a]> h).
Proof.
  induction n as [|n IH]; intros k a h E Hlen Hwf.
  - simpl. unfold ret. by rewrite insert_id.
  - cbn [seq for_each]. unfold bind at 1.
    rewrite (edge_propagate_round_ok g ref value a h E Hlen Hwf).
    rewrite (IH (S k) (round_result (base g) value a)).
    + by rewrite insert_insert_eq, Nat.iter_succ_r.
    + apply lookup_insert_eq.
    + by rewrite round_result_length.
    + done.
Qed.

Lemma np_array_ok h (ref : nat) (a : list A) :
  h !! ref = Some a ->
  np_array ref h = (Ok (fresh (dom h)), <[fresh (dom h) := a]> h).
Proof.
  intros E. unfold np_array. unfold bind at 1. rewrite (array_read_ok _ _ _ E). done.
Qed.

Lemma fresh_lookup h : h !! fresh (dom h) = None.
Proof. apply not_elem_of_dom. apply is_fresh. Qed.

Lemma edge_propagate_ok g (ref : nat) value (steps : Z) (a : list A) h :
  h !! ref = Some a ->
  length a = length (gt_edges (base g)) ->
  wf_edges (base g) ->
  edge_propagate g ref value (Some steps) h
    = (Ok (fresh (dom h)),
       <[fresh (dom h) := Nat.iter (Z.to_nat steps) (round_result (base g) value) a]> h).
Proof.
  intros E Hlen Hwf. unfold edge_propagate. unfold bind at 1.
  rewrite (np_array_ok _ _ _ E). unfold bind at 1.
  rewrite (edge_propagate_rounds_ok g _ value _ 0%nat a); [|apply lookup_insert_eq|done|done].
  by rewrite insert_insert_eq.
Qed.

End Propagate.

Section WritesOnly.
Context {A : Type}.
Local Abbreviation heap := (gmap nat (list A)).

Lemma writes_only_pure {B} (ref : nat) (m : M heap B) :
  (forall h, (m h).2 = h) -> writes_only ref m.
Proof.
  intros Hm h r h' E. specialize (Hm h). rewrite E in Hm. simpl in Hm. by subst.
Qed.

Lemma writes_only_ret {B} (ref : nat) (b : B) : writes_only (A := A) ref (ret b).
Proof. by apply writes_only_pure. Qed.

Lemma writes_only_raise {B} (ref : nat) (e : exn) : writes_only (A := A) (B := B) ref (raise e).
Proof. by apply writes_only_pure. Qed.

Lemma writes_only_lift {B} (ref : nat) (x : result B) : writes_only (A := A) ref (lift x).
Proof. by apply writes_only_pure. Qed.

Lemma writes_only_get (ref : nat) : writes_only (A := A) ref get.
Proof. by apply writes_only_pure. Qed.

Lemma writes_only_bind {B C} (ref : nat) (m : M heap B) (f : B -> M heap C) :
  writes_only ref m -> (forall b, writes_only ref (f b)) -> writes_only ref (bind m f).
Proof.
  intros Hm Hf h r h' E. unfold bind in E.
  destruct (m h) as [[b|e] h1] eqn:E1.
  - destruct (Hm _ _ _ E1) as [Hm1 Hm2]. destruct (Hf b _ _ _ E) as [Hf1 Hf2].
    split; [|tauto]. intros k Hk. rewrite Hf1, Hm1; done.
  - injection E as _ <-. apply (Hm _ _ _ E1).
Qed.

Lemma writes_only_for_each {B} (ref : nat) (l : list B) (body : B -> M heap unit) :
  (forall x, writes_only ref (body x)) -> writes_only ref (for_each l body).
Proof.
  intros Hb. induction l as [|x l IH]; simpl.
  - apply writes_only_ret.
  - apply writes_only_bind; [apply Hb|]. intros _. apply IH.
Qed.

Lemma writes_only_array_read (ref ref' : nat) : writes_only (A := A) ref (array_read ref').
Proof.
  apply writes_only_bind; [apply writes_only_get|]. intros h.
  destruct (h !! ref'); [apply writes_only_ret|apply writes_only_raise].
Qed.

Lemma writes_only_array_set (ref i : nat) (value : A) : writes_only ref (array_set ref i value).
Proof.
  intros h r h' E. cbv [array_set bind array_read get put raise ret] in E.
  destruct (h !! ref) as [a|] eqn:Ea; simpl in E.
  - destruct (i <? length a)%nat; simpl in E; injection E as _ <-.
    + split; [intros k Hk; by apply lookup_insert_ne|].
      intros _. rewrite lookup_insert_eq. eauto.
    + by rewrite Ea.
  - injection E as _ <-. by rewrite Ea.
Qed.

End WritesOnly.

Section Frame.
Context {sample : Type} {A : Type} `{EqDecision A}.

Lemma writes_only_round (g : Graph sample) (ref : nat) (value : A) :
  writes_only ref (edge_propagate_round g ref value).
Proof.
  unfold edge_propagate_round.
  apply writes_only_bind; [apply writes_only_array_read|]. intros a.
  apply writes_only_bind; [apply writes_only_lift|]. intros ec.
  apply writes_only_bind; [apply writes_only_lift|]. intros ec'.
  apply writes_only_for_each. intros v.
  apply writes_only_bind; [apply writes_only_lift|]. intros es.
  apply writes_only_for_each. intros e.
  apply writes_only_bind; [apply writes_only_lift|]. intros i.
  apply writes_only_array_set.
Qed.

(** [edge_propagate] leaves every array that exists when it is called as
    it is, whatever the label, the value, the number of steps and the graph,
    and also when it raises; the array it returns is a new one. *)
Theorem edge_propagate_frame (g : Graph sample) (h : gmap nat (list A)) (ref : nat)
    (value : A) (steps : option Z) :
  (forall (k : nat) (a : list A), h !! k = Some a ->
     (edge_propagate g ref value steps h).2 !! k = Some a) /\
  (forall ref' : nat, (edge_propagate g ref value steps h).1 = Ok ref' ->
     ref' <> ref /\ h !! ref' = None /\ is_Some ((edge_propagate g ref value steps h).2 !! ref')).
Proof.
  destruct (edge_propagate g ref value steps h) as [r h'] eqn:Ep. simpl.
  unfold edge_propagate in Ep. unfold bind at 1 in Ep.
  destruct (h !! ref) as [a|] eqn:E.
  2:{ cbv [np_array bind array_read get raise ret] in Ep. rewrite E in Ep.
      injection Ep as <- <-. split; [tauto|]. intros ref' [=]. }
  rewrite (np_array_ok _ _ _ E) in Ep.
  set (ref0 := fresh (dom h)) in Ep.
  assert (Hfresh : h !! ref0 = None) by apply fresh_lookup.
  assert (Hne : ref0 <> ref) by (intros ->; congruence).
  destruct steps as [n|].
  - unfold bind in Ep.
    destruct (for_each (seq 0 (Z.to_nat n)) (fun _ => edge_propagate_round g ref0 value)
                (<[ref0 := a]> h)) as [r1 h1] eqn:E1.
    destruct (writes_only_for_each ref0 _ _ (fun _ => writes_only_round g ref0 value) _ _ _ E1)
      as [Hw Hp].
    assert (Hkeep : forall k x, h !! k = Some x -> h1 !! k = Some x).
    { intros k x Hk. rewrite Hw by congruence. rewrite lookup_insert_ne by congruence. done. }
    destruct r1 as [[]|e]; injection Ep as <- <-.
    + split; [done|]. intros ref' [= <-]. split; [done|]. split; [done|].
      apply Hp. rewrite lookup_insert_eq. eauto.
    + split; [done|]. intros ref' [=].
  - injection Ep as <- <-. split.
    + intros k x Hk. rewrite lookup_insert_ne by congruence. done.
    + intros ref' [= <-]. rewrite lookup_insert_eq. eauto.
Qed.

End Frame.

Section Rounds.
Context {sample : Type} {A : Type} `{EqDecision A} (b : gt_Graph sample).

Lemma round_edges_elem (value : A) (a : list A) (i : nat) :
  i ∈ round_edges b value a <-> exists j, a !! j = Some value /\ reaches b j i.
Proof.
  unfold round_edges, reaches. rewrite elem_of_concat. split.
  - intros [l [Hi Hl]]. apply list_elem_of_fmap in Hl as [v [-> Hv]].
    apply round_vertices_elem in Hv as (j & e & He & Ha & Hv). exists j. split; [done|].
    by exists e, v.
  - intros (j & Ha & e & v & He & Hv & Hi). exists (gt_out_edges b v). split; [done|].
    apply list_elem_of_fmap. exists v. split; [done|].
    apply round_vertices_elem. by exists j, e.
Qed.

Lemma reaches_bound (j i : nat) :
  reaches b j i -> (j < length (gt_edges b))%nat /\ (i < length (gt_edges b))%nat.
Proof.
  intros (e & v & He & _ & Hi). split; [by apply lookup_lt_Some in He|].
  apply gt_out_edges_elem in Hi as [e' [He' _]]. by apply lookup_lt_Some in He'.
Qed.

Lemma reaches_refl (i : nat) : (i < length (gt_edges b))%nat -> reaches b i i.
Proof.
  intros Hi. apply lookup_lt_is_Some_2 in Hi as [e He]. exists e, e.1.
  split; [done|]. split; [by left|]. apply gt_out_edges_elem. exists e. split; [done|]. by left.
Qed.

Lemma reaches_sym (j i : nat) : gt_directed b = false -> reaches b j i -> reaches b i j.
Proof.
  intros Hu (e & v & He & Hv & Hi). apply gt_out_edges_elem in Hi as [e' [He' Hv']].
  exists e', v. split; [done|]. split.
  { destruct Hv' as [Hv'|[_ Hv']]; [left|right]; done. }
  apply gt_out_edges_elem. exists e. split; [done|].
  destruct Hv as [Hv|Hv]; [left|right]; done.
Qed.

Lemma round_result_lookup (value : A) (a : list A) (i : nat) :
  length a = length (gt_edges b) ->
  round_result b value a !! i =
    if bool_decide (i ∈ round_edges b value a) then Some value else a !! i.
Proof.
  intros Hlen. unfold round_result. rewrite write_all_lookup.
  destruct (decide (i ∈ round_edges b value a)) as [Hi|Hi].
  - rewrite !(bool_decide_eq_true_2 _ Hi). rewrite bool_decide_eq_true_2; [done|].
    apply round_edges_elem in Hi as [j [_ Hr]]. rewrite Hlen. apply reaches_bound in Hr as [_ Hr]. done.
  - by rewrite !(bool_decide_eq_false_2 _ Hi).
Qed.

Lemma round_result_value (value : A) (a : list A) (i : nat) :
  length a = length (gt_edges b) ->
  round_result b value a !! i = Some value <-> exists j, a !! j = Some value /\ reaches b j i.
Proof.
  intros Hlen. rewrite round_result_lookup by done. case_bool_decide as Hi.
  - rewrite round_edges_elem in Hi. tauto.
  - split; [|by rewrite <- round_edges_elem]. intros Ha. exists i. split; [done|].
    apply reaches_refl. rewrite <- Hlen. by apply lookup_lt_Some in Ha.
Qed.

Lemma round_result_other (value x : A) (a : list A) (i : nat) :
  length a = length (gt_edges b) -> x <> value ->
  round_result b value a !! i = Some x <->
    a !! i = Some x /\ forall j, reaches b j i -> a !! j <> Some value.
Proof.
  intros Hlen Hx. rewrite round_result_lookup by done. case_bool_decide as Hi.
  - rewrite round_edges_elem in Hi. destruct Hi as [j [Ha Hr]]. split.
    + intros [= ->]. done.
    + intros [_ Hno]. by destruct (Hno j Hr).
  - split; [|tauto]. intros Ha. split; [done|]. intros j Hr Hj. apply Hi.
    apply round_edges_elem. by exists j.
Qed.

End Rounds.

Section Binary.
Context {sample : Type} (b : gt_Graph sample).
Implicit Types a c : list bool.

Lemma true_within_refl a : true_within a a.
Proof. by intros i. Qed.

Lemma true_within_trans a c d : true_within a c -> true_within c d -> true_within a d.
Proof. intros H1 H2 i Hi. by apply H2, H1. Qed.

Lemma iter_round_length (value : bool) (n : nat) a :
  length (Nat.iter n (round_result b value) a) = length a.
Proof. induction n as [|n IH]; simpl; [done|]. by rewrite round_result_length. Qed.

Lemma dilate_round_grows a :
  length a = length (gt_edges b) -> true_within a (round_result b true a).
Proof.
  intros Hlen i Hi. apply round_result_value; [done|]. exists i. split; [done|].
  apply reaches_refl. rewrite <- Hlen. by apply lookup_lt_Some in Hi.
Qed.

Lemma erode_round_shrinks a :
  length a = length (gt_edges b) -> true_within (round_result b false a) a.
Proof. intros Hlen i Hi. by apply round_result_other in Hi as [Hi _]. Qed.

Lemma dilate_rounds_grow (n : nat) a :
  length a = length (gt_edges b) -> true_within a (Nat.iter n (round_result b true) a).
Proof.
  intros Hlen. induction n as [|n IH]; simpl; [apply true_within_refl|].
  eapply true_within_trans; [apply IH|]. apply dilate_round_grows.
  by rewrite iter_round_length.
Qed.

Lemma erode_rounds_shrink (n : nat) a :
  length a = length (gt_edges b) -> true_within (Nat.iter n (round_result b false) a) a.
Proof.
  intros Hlen. induction n as [|n IH]; simpl; [apply true_within_refl|].
  eapply true_within_trans; [|apply IH]. apply erode_round_shrinks.
  by rewrite iter_round_length.
Qed.

End Binary.

Section Morphology.
Context {sample : Type} (g : Graph sample).
Implicit Types (h : gmap nat (list bool)) (label : list bool).

Lemma edge_propagate_returns {A} `{EqDecision A} (value : A) (steps : Z)
    (a : list A) (h : gmap nat (list A)) (ref : nat) :
  h !! ref = Some a ->
  length a = length (gt_edges (base g)) ->
  wf_edges (base g) ->
  returns_array (edge_propagate g ref value (Some steps)) h
    (Nat.iter (Z.to_nat steps) (round_result (base g) value) a).
Proof.
  intros E Hlen Hwf. eexists _, _. split; [by apply edge_propagate_ok|].
  apply lookup_insert_eq.
Qed.

Lemma to_nat_succ_cases (steps : Z) :
  Z.to_nat (steps + 1) = S (Z.to_nat steps) \/
  (Z.to_nat (steps + 1) = 0%nat /\ Z.to_nat steps = 0%nat).
Proof. lia. Qed.

(** Dilation only adds: on a graph whose edges join existing vertices and a
    label array with one entry per edge, [edge_dilate_binary] returns an
    array of the same length in which every edge that was [True] is still
    [True], and one more step keeps every [True] of the step before. *)
Theorem edge_dilate_binary_superset h (ref : nat) label (steps : Z) :
  h !! ref = Some label ->
  length label = length (gt_edges (base g)) ->
  wf_edges (base g) ->
  exists out out',
    returns_array (edge_dilate_binary g ref (Some steps)) h out /\
    returns_array (edge_dilate_binary g ref (Some (steps + 1))) h out' /\
    length out = length label /\ true_within label out /\ true_within out out'.
Proof.
  intros E Hlen Hwf. eexists _, _.
  split; [by apply edge_propagate_returns|]. split; [by apply edge_propagate_returns|].
  split; [apply iter_round_length|]. split; [by apply dilate_rounds_grow|].
  destruct (to_nat_succ_cases steps) as [->|[-> ->]]; [|apply true_within_refl].
  simpl. apply dilate_round_grows. by rewrite iter_round_length.
Qed.

(** Erosion only removes: under the same conditions [edge_erode_binary]
    returns an array of the same length whose [True] edges were all [True]
    in the label, and one more step adds none. *)
Theorem edge_erode_binary_subset h (ref : nat) label (steps : Z) :
  h !! ref = Some label ->
  length label = length (gt_edges (base g)) ->
  wf_edges (base g) ->
  exists out out',
    returns_array (edge_erode_binary g ref (Some steps)) h out /\
    returns_array (edge_erode_binary g ref (Some (steps + 1))) h out' /\
    length out = length label /\ true_within out label /\ true_within out' out.
Proof.
  intros E Hlen Hwf. eexists _, _.
  split; [by apply edge_propagate_returns|]. split; [by apply edge_propagate_returns|].
  split; [apply iter_round_length|]. split; [by apply erode_rounds_shrink|].
  destruct (to_nat_succ_cases steps) as [->|[-> ->]]; [|apply true_within_refl].
  simpl. apply erode_round_shrinks. by rewrite iter_round_length.
Qed.

(** One more round of dilation makes [True] exactly the edges that the
    edge iterator gives at an end vertex of an edge that is [True] before
    the round. *)
Theorem edge_dilate_binary_round h (ref : nat) label (steps : Z) :
  h !! ref = Some label ->
  length label = length (gt_edges (base g)) ->
  wf_edges (base g) ->
  0 <= steps ->
  exists out out',
    returns_array (edge_dilate_binary g ref (Some steps)) h out /\
    returns_array (edge_dilate_binary g ref (Some (steps + 1))) h out' /\
    forall i : nat,
      out' !! i = Some true <-> exists j : nat, out !! j = Some true /\ reaches (base g) j i.
Proof.
  intros E Hlen Hwf Hs. eexists _, _.
  split; [by apply edge_propagate_returns|]. split; [by apply edge_propagate_returns|].
  intros i. replace (Z.to_nat (steps + 1)) with (S (Z.to_nat steps)) by lia. simpl.
  apply round_result_value. by rewrite iter_round_length.
Qed.

(** One more round of erosion keeps [True] exactly the edges for which
    every edge that reaches them through the iterator is [True] before the
    round. *)
Theorem edge_erode_binary_round h (ref : nat) label (steps : Z) :
  h !! ref = Some label ->
  length label = length (gt_edges (base g)) ->
  wf_edges (base g) ->
  0 <= steps ->
  exists out out',
    returns_array (edge_erode_binary g ref (Some steps)) h out /\
    returns_array (edge_erode_binary g ref (Some (steps + 1))) h out' /\
    forall i : nat,
      out' !! i = Some true <->
      (i < length label)%nat /\ forall j : nat, reaches (base g) j i -> out !! j = Some true.
Proof.
  intros E Hlen Hwf Hs. eexists _, _.
  split; [by apply edge_propagate_returns|]. split; [by apply edge_propagate_returns|].
  intros i. replace (Z.to_nat (steps + 1)) with (S (Z.to_nat steps)) by lia. simpl.
  set (out := Nat.iter (Z.to_nat steps) (round_result (base g) false) label).
  assert (Hout : length out = length (gt_edges (base g))).
  { unfold out. by rewrite iter_round_length. }
  rewrite round_result_other by done. split.
  - intros [Hi Hno]. split.
    + apply lookup_lt_Some in Hi. lia.
    + intros j Hr. specialize (Hno j Hr).
      apply reaches_bound in Hr as [Hj _]. rewrite <- Hout in Hj.
      apply lookup_lt_is_Some_2 in Hj as [[] Hj]; [done|]. by rewrite Hj in Hno.
  - intros [Hi Hall]. split.
    + apply Hall, reaches_refl. lia.
    + intros j Hr. rewrite (Hall j Hr). done.
Qed.

End Morphology.

Section OpenClose.
Context {sample : Type} (b : gt_Graph sample).
Implicit Types a c : list bool.
Local Abbreviation D := (round_result b true).
Local Abbreviation E := (round_result b false).

Lemma lookup_bool_cases a (i : nat) :
  (i < length a)%nat -> a !! i = Some true \/ a !! i = Some false.
Proof. intros Hi. apply lookup_lt_is_Some_2 in Hi as [[] Hi]; tauto. Qed.

Lemma dilate_round_mono a c :
  length a = length (gt_edges b) -> length c = length (gt_edges b) ->
  true_within a c -> true_within (D a) (D c).
Proof.
  intros Ha Hc Hac i Hi. apply round_result_value in Hi as [j [Hj Hr]]; [|done].
  apply round_result_value; [done|]. exists j. split; [|done]. by apply Hac.
Qed.

Lemma erode_round_mono a c :
  length a = length (gt_edges b) -> length c = length (gt_edges b) ->
  true_within a c -> true_within (E a) (E c).
Proof.
  intros Ha Hc Hac i Hi. apply round_result_other in Hi as [Hi Hno]; [|done..].
  apply round_result_other; [done..|]. split; [by apply Hac|].
  intros j Hr Hj. destruct (lookup_bool_cases a j) as [Hj'|Hj'].
  - rewrite Ha. by apply reaches_bound in Hr as [? _].
  - apply Hac in Hj'. congruence.
  - by apply (Hno j Hr).
Qed.

Lemma open_round a :
  gt_directed b = false -> length a = length (gt_edges b) -> true_within (D (E a)) a.
Proof.
  intros Hu Ha i Hi.
  apply round_result_value in Hi as [j [Hj Hr]]; [|by rewrite round_result_length].
  apply round_result_other in Hj as [Hj Hno]; [|done..].
  destruct (lookup_bool_cases a i) as [Hi|Hi]; [|done|].
  - rewrite Ha. by apply reaches_bound in Hr as [_ ?].
  - destruct (Hno i); [|done]. by apply reaches_sym.
Qed.

Lemma close_round a :
  gt_directed b = false -> length a = length (gt_edges b) -> true_within a (E (D a)).
Proof.
  intros Hu Ha i Hi.
  apply round_result_other; [by rewrite round_result_length|done|].
  split; [by apply dilate_round_grows|].
  intros j Hr Hj.
  assert (Ht : D a !! j = Some true); [|congruence].
  apply round_result_value; [done|]. exists i. split; [done|]. by apply reaches_sym.
Qed.

Lemma open_rounds (n : nat) : forall a,
  gt_directed b = false -> length a = length (gt_edges b) ->
  true_within (Nat.iter n D (Nat.iter n E a)) a.
Proof.
  induction n as [|n IH]; intros a Hu Ha; [apply true_within_refl|].
  rewrite (Nat.iter_succ_r n _ E a), Nat.iter_succ.
  eapply true_within_trans; [|by apply open_round].
  apply dilate_round_mono.
  - by rewrite !iter_round_length, round_result_length.
  - by rewrite round_result_length.
  - apply IH; [done|]. by rewrite round_result_length.
Qed.

Lemma close_rounds (n : nat) : forall a,
  gt_directed b = false -> length a = length (gt_edges b) ->
  true_within a (Nat.iter n E (Nat.iter n D a)).
Proof.
  induction n as [|n IH]; intros a Hu Ha; [apply true_within_refl|].
  rewrite (Nat.iter_succ_r n _ D a), Nat.iter_succ.
  eapply true_within_trans; [by apply close_round|].
  apply erode_round_mono.
  - by rewrite round_result_length.
  - by rewrite !iter_round_length, round_result_length.
  - apply IH; [done|]. by rewrite round_result_length.
Qed.

End OpenClose.

Section OpenCloseMethods.
Context {sample : Type} (g : Graph sample).
Implicit Types (h : gmap nat (list bool)) (label : list bool).

Lemma propagate_twice_returns (v1 v2 : bool) (steps : Z) h (ref : nat) label :
  h !! ref = Some label ->
  length label = length (gt_edges (base g)) ->
  wf_edges (base g) ->
  returns_array
    (r <- edge_propagate g ref v1 (Some steps) ;; edge_propagate g r v2 (Some steps)) h
    (Nat.iter (Z.to_nat steps) (round_result (base g) v2)
       (Nat.iter (Z.to_nat steps) (round_result (base g) v1) label)).
Proof.
  intros E Hlen Hwf. unfold returns_array, bind.
  rewrite (edge_propagate_ok g ref v1 steps label h E Hlen Hwf).
  apply edge_propagate_returns; [apply lookup_insert_eq| |done].
  by rewrite iter_round_length.
Qed.

(** In an undirected graph the opening of a label (erosion, then dilation
    with the same number of steps) is within the label. *)
Theorem edge_open_binary_within h (ref : nat) label (steps : Z) :
  h !! ref = Some label ->
  length label = length (gt_edges (base g)) ->
  wf_edges (base g) ->
  gt_directed (base g) = false ->
  exists out,
    returns_array (edge_open_binary g ref (Some steps)) h out /\
    length out = length label /\ true_within out label.
Proof.
  intros E Hlen Hwf Hu. eexists. split; [by apply propagate_twice_returns|].
  split; [by rewrite !iter_round_length|]. by apply open_rounds.
Qed.

(** In an undirected graph the closing of a label (dilation, then erosion
    with the same number of steps) contains the label. *)
Theorem edge_close_binary_contains h (ref : nat) label (steps : Z) :
  h !! ref = Some label ->
  length label = length (gt_edges (base g)) ->
  wf_edges (base g) ->
  gt_directed (base g) = false ->
  exists out,
    returns_array (edge_close_binary g ref (Some steps)) h out /\
    length out = length label /\ true_within label out.
Proof.
  intros E Hlen Hwf Hu. eexists. split; [by apply propagate_twice_returns|].
  split; [by rewrite !iter_round_length|]. by apply close_rounds.
Qed.

End OpenCloseMethods.

Section PropagateEdgeCases.
Context {sample : Type} {A : Type} `{EqDecision A} (g : Graph sample).

(** Without a round to run ([steps] is [None], zero or negative)
    [edge_propagate] returns a copy of the label, whatever the graph and the
    length of the label. *)
Theorem edge_propagate_no_round (h : gmap nat (list A)) (ref : nat) (a : list A)
    (value : A) (steps : option Z) :
  h !! ref = Some a ->
  (forall n, steps = Some n -> n <= 0) ->
  returns_array (edge_propagate g ref value steps) h a.
Proof.
  intros E Hs. exists (fresh (dom h)), (<[fresh (dom h) := a]> h).
  split; [|apply lookup_insert_eq].
  unfold edge_propagate. unfold bind at 1. rewrite (np_array_ok _ _ _ E).
  destruct steps as [n|]; [|done].
  replace (Z.to_nat n) with 0%nat by (specialize (Hs n eq_refl); lia). done.
Qed.

(** A label whose length is not the number of edges makes the first round
    raise [IndexError], at the boolean indexing of the connectivity array. *)
Theorem edge_propagate_length_mismatch (h : gmap nat (list A)) (ref : nat) (a : list A)
    (value : A) (steps : Z) :
  h !! ref = Some a ->
  length a <> length (gt_edges (base g)) ->
  0 < steps ->
  (edge_propagate g ref value (Some steps) h).1 = Raise IndexError.
Proof.
  intros E Hlen Hs. unfold edge_propagate. unfold bind at 1. rewrite (np_array_ok _ _ _ E).
  destruct (Z.to_nat steps) as [|n] eqn:En; [lia|].
  unfold bind at 1. cbn [seq for_each]. unfold bind at 1.
  unfold edge_propagate_round. unfold bind at 1.
  rewrite (array_read_ok _ _ a) by apply lookup_insert_eq.
  unfold bind at 1. unfold on_graph at 1. cbn -[for_each Np.unique boolean_index].
  unfold bind at 1. unfold boolean_index. rewrite length_map.
  apply Nat.eqb_neq in Hlen. rewrite Hlen. done.
Qed.

End PropagateEdgeCases.

Lemma edge_dilate_binary_superset_witness :
  exists out out',
    returns_array (edge_dilate_binary Reference.scenario 0 (Some 1))
      {[0%nat := [false; false; true; false]]} out /\
    returns_array (edge_dilate_binary Reference.scenario 0 (Some (1 + 1)))
      {[0%nat := [false; false; true; false]]} out' /\
    length out = length [false; false; true; false] /\
    true_within [false; false; true; false] out /\ true_within out out'.
Proof.
  apply (edge_dilate_binary_superset Reference.scenario).
  - reflexivity.
  - vm_compute. reflexivity.
  - unfold wf_edges. apply (bool_decide_unpack _). vm_compute. exact I.
Defined.

Example edge_dilate_binary_scenario :
  returns_array (edge_dilate_binary Reference.scenario 0 (Some 1))
    {[0%nat := [false; false; true; false]]} [false; false; true; true].
Proof. eexists _, _. split; vm_compute; reflexivity. Qed.

Lemma edge_erode_binary_subset_witness :
  exists out out',
    returns_array (edge_erode_binary Reference.scenario 0 (Some 1))
      {[0%nat := [true; true; true; false]]} out /\
    returns_array (edge_erode_binary Reference.scenario 0 (Some (1 + 1)))
      {[0%nat := [true; true; true; false]]} out' /\
    length out = length [true; true; true; false] /\
    true_within out [true; true; true; false] /\ true_within out' out.
Proof.
  apply (edge_erode_binary_subset Reference.scenario).
  - reflexivity.
  - vm_compute. reflexivity.
  - unfold wf_edges. apply (bool_decide_unpack _). vm_compute. exact I.
Defined.

Example edge_erode_binary_scenario :
  returns_array (edge_erode_binary Reference.scenario 0 (Some 1))
    {[0%nat := [true; true; true; false]]} [true; true; false; false].
Proof. eexists _, _. split; vm_compute; reflexivity. Qed.

Lemma edge_dilate_binary_round_witness :
  exists out out',
    returns_array (edge_dilate_binary Reference.scenario 0 (Some 0))
      {[0%nat := [false; false; true; false]]} out /\
    returns_array (edge_dilate_binary Reference.scenario 0 (Some (0 + 1)))
      {[0%nat := [false; false; true; false]]} out' /\
    forall i : nat,
      out' !! i = Some true <->
      exists j : nat, out !! j = Some true /\ reaches (base Reference.scenario) j i.
Proof.
  apply (edge_dilate_binary_round Reference.scenario _ _ [false; false; true; false]).
  - reflexivity.
  - vm_compute. reflexivity.
  - unfold wf_edges. apply (bool_decide_unpack _). vm_compute. exact I.
  - lia.
Defined.

Lemma edge_erode_binary_round_witness :
  exists out out',
    returns_array (edge_erode_binary Reference.scenario 0 (Some 0))
      {[0%nat := [true; true; true; false]]} out /\
    returns_array (edge_erode_binary Reference.scenario 0 (Some (0 + 1)))
      {[0%nat := [true; true; true; false]]} out' /\
    forall i : nat,
      out' !! i = Some true <->
      (i < length [true; true; true; false])%nat /\
      forall j : nat, reaches (base Reference.scenario) j i -> out !! j = Some true.
Proof.
  apply (edge_erode_binary_round Reference.scenario).
  - reflexivity.
  - vm_compute. reflexivity.
  - unfold wf_edges. apply (bool_decide_unpack _). vm_compute. exact I.
  - lia.
Defined.

Lemma edge_open_binary_within_witness :
  exists out,
    returns_array (edge_open_binary Reference.scenario 0 (Some 1))
      {[0%nat := [true; true; true; false]]} out /\
    length out = length [true; true; true; false] /\
    true_within out [true; true; true; false].
Proof.
  apply (edge_open_binary_within Reference.scenario).
  - reflexivity.
  - vm_compute. reflexivity.
  - unfold wf_edges. apply (bool_decide_unpack _). vm_compute. exact I.
  - vm_compute. reflexivity.
Defined.

Example edge_open_binary_scenario :
  returns_array (edge_open_binary Reference.scenario 0 (Some 1))
    {[0%nat := [true; true; true; false]]} [true; true; false; false].
Proof. eexists _, _. split; vm_compute; reflexivity. Qed.

Lemma edge_close_binary_contains_witness :
  exists out,
    returns_array (edge_close_binary Reference.scenario 0 (Some 1))
      {[0%nat := [false; false; true; false]]} out /\
    length out = length [false; false; true; false] /\
    true_within [false; false; true; false] out.
Proof.
  apply (edge_close_binary_contains Reference.scenario).
  - reflexivity.
  - vm_compute. reflexivity.
  - unfold wf_edges. apply (bool_decide_unpack _). vm_compute. exact I.
  - vm_compute. reflexivity.
Defined.

Lemma edge_propagate_no_round_witness :
  returns_array (edge_propagate Reference.scenario 0 true None)
    {[0%nat := [false; true]]} [false; true].
Proof.
  apply (edge_propagate_no_round Reference.scenario).
  - reflexivity.
  - discriminate.
Defined.

Lemma edge_propagate_length_mismatch_witness :
  (edge_propagate Reference.scenario 0 true (Some 1) {[0%nat := [false; true]]}).1
    = Raise IndexError.
Proof.
  apply (edge_propagate_length_mismatch Reference.scenario _ _ [false; true]).
  - reflexivity.
  - vm_compute. discriminate.
  - lia.
Defined.

(** ** Mapping between vertex and edge labels: facts *)

Lemma np_take_lookup {A} (a : list A) (idx : list nat) :
  Forall (fun i => (i < length a)%nat) idx ->
  exists l, np_take a idx = Ok l /\ length l = length idx /\
    forall (k i : nat), idx !! k = Some i -> l !! k = a !! i.
Proof.
  unfold np_take. induction idx as [|i idx IH]; intros Hall.
  - exists []. done.
  - apply Forall_cons in Hall as [Hi Hall]. destruct (IH Hall) as (l & E & Hlen & Hl).
    apply lookup_lt_is_Some_2 in Hi as [x Hx].
    exists (x :: l). simpl. rewrite Hx, E. simpl. split; [done|]. split; [by rewrite Hlen|].
    intros [|k] j Hk; simpl in *; [by injection Hk as <-|by apply Hl].
Qed.

Lemma np_take_out_of_range {A} (a : list A) (idx : list nat) :
  Exists (fun i => (length a <= i)%nat) idx -> np_take a idx = Raise IndexError.
Proof.
  unfold np_take. induction idx as [|i idx IH]; intros Hex.
  - by apply Exists_nil in Hex.
  - simpl. destruct (a !! i) as [x|] eqn:Hx; [|done].
    apply Exists_cons in Hex as [Hi|Hex].
    + apply lookup_lt_Some in Hx. lia.
    + by rewrite (IH Hex).
Qed.

Lemma np_take_outcome {A} (a : list A) (idx : list nat) :
  (exists l, np_take a idx = Ok l /\ length l = length idx) \/
  np_take a idx = Raise IndexError.
Proof.
  destruct (decide (Forall (fun i => (i < length a)%nat) idx)) as [Hall|Hno].
  - left. destruct (np_take_lookup a idx Hall) as (l & E & Hlen & _). eauto.
  - right. apply np_take_out_of_range. apply not_Forall_Exists in Hno; [|solve_decision].
    eapply Exists_impl; [exact Hno|]. simpl. lia.
Qed.

Lemma np_elementwise_same {A B C} (f : A -> B -> C) (a : list A) (b : list B) :
  length a = length b -> np_elementwise f a b = Ok (zip_with f a b).
Proof. intros E. unfold np_elementwise. by rewrite E, Nat.eqb_refl. Qed.

Lemma boolean_index_filter {B} (f : B -> bool) (l : list B) :
  boolean_index l (map f l) = Ok (filter (fun x => f x = true) l).
Proof.
  unfold boolean_index. rewrite length_map, Nat.eqb_refl. f_equal.
  induction l as [|x l IH]; [done|]. cbn [map zip zip_with].
  rewrite !filter_cons. cbn [snd]. rewrite <- IH.
  destruct (decide (f x = true)); done.
Qed.

Section MappingFacts.
Context {sample : Type}.
Implicit Types (g : Graph sample).

(** [vertex_ids_to_connectivity] returns, in the order of the edges, the
    end points of the edges that have an end in [vertex_indices]; it
    never raises and does not change the graph. *)
Theorem vertex_ids_to_connectivity_filter g (vertex_indices : list Z) :
  vertex_ids_to_connectivity vertex_indices g =
    (Ok (filter (fun e => Z.of_nat e.1 ∈ vertex_indices \/ Z.of_nat e.2 ∈ vertex_indices)
           (gt_edges (base g))), g).
Proof.
  unfold vertex_ids_to_connectivity, vertex_ids_to_vertex_masks, edge_connectivity, bind,
    get__base, ret, lift. simpl.
  unfold np_logical_or, np_isin. rewrite np_elementwise_same by by rewrite !length_map.
  set (f := fun e : nat * nat =>
              bool_decide (Z.of_nat e.1 ∈ vertex_indices) ||
              bool_decide (Z.of_nat e.2 ∈ vertex_indices)).
  assert (Hm : zip_with orb
            (map (fun x => bool_decide (Z.of_nat x ∈ vertex_indices)) (map fst (gt_edges (base g))))
            (map (fun x => bool_decide (Z.of_nat x ∈ vertex_indices)) (map snd (gt_edges (base g))))
          = map f (gt_edges (base g))).
  { induction (gt_edges (base g)) as [|e l IH]; [done|]. simpl. by rewrite IH. }
  rewrite Hm, boolean_index_filter. do 2 f_equal.
  apply list_filter_iff. intros e. unfold f.
  rewrite orb_true_iff, !bool_decide_eq_true. done.
Qed.

Lemma take_endpoints (b : gt_Graph sample) {A} (a : list A) :
  wf_edges b -> (gt_num_vertices b <= length a)%nat ->
  exists s t,
    np_take a (map fst (gt_edges b)) = Ok s /\ np_take a (map snd (gt_edges b)) = Ok t /\
    length s = length (gt_edges b) /\ length t = length (gt_edges b) /\
    forall (i : nat) e, gt_edges b !! i = Some e -> s !! i = a !! e.1 /\ t !! i = a !! e.2.
Proof.
  intros Hwf Hlen. unfold wf_edges in Hwf.
  destruct (np_take_lookup a (map fst (gt_edges b))) as (s & Es & Hs & Hsl).
  { apply Forall_fmap. eapply Forall_impl; [exact Hwf|]. simpl. lia. }
  destruct (np_take_lookup a (map snd (gt_edges b))) as (t & Et & Ht & Htl).
  { apply Forall_fmap. eapply Forall_impl; [exact Hwf|]. simpl. lia. }
  exists s, t. rewrite length_map in Hs, Ht. do 4 (split; [done|]).
  intros i e He. split; [apply Hsl|apply Htl]; by rewrite list_lookup_fmap, He.
Qed.

Lemma mappings_get_and (mode : string) :
  mode ∈ ["both"; "and"]%string -> mappings_get mode = Ok np_logical_and.
Proof. rewrite !elem_of_cons, elem_of_nil. intros [->|[->|[]]]; reflexivity. Qed.

Lemma mappings_get_or (mode : string) :
  mode ∈ ["either"; "or"]%string -> mappings_get mode = Ok np_logical_or.
Proof. rewrite !elem_of_cons, elem_of_nil. intros [->|[->|[]]]; reflexivity. Qed.

Lemma mappings_get_unknown (mode : string) :
  mode ∉ ["both"; "either"; "and"; "or"]%string -> mappings_get mode = Raise ValueError.
Proof.
  rewrite !not_elem_of_cons. intros (H1 & H2 & H3 & H4 & _).
  unfold mappings_get, dict_get, mappings.
  rewrite !lookup_insert_ne by done. rewrite lookup_singleton_ne by done. done.
Qed.

(** On a graph whose edges join existing vertices and a filter with an entry
    for every vertex, the modes 'both' and 'and' give for each edge the
    conjunction, the modes 'either' and 'or' the disjunction of the filter
    entries of its two ends; the graph is left as it is. *)
Theorem vertex_filter_to_edge_filter_modes g (vertex_filter : list bool) (mode : string)
    (op : bool -> bool -> bool) :
  wf_edges (base g) ->
  (gt_num_vertices (base g) <= length vertex_filter)%nat ->
  (mode ∈ ["both"; "and"]%string /\ op = andb) \/
  (mode ∈ ["either"; "or"]%string /\ op = orb) ->
  exists edge_filter,
    vertex_filter_to_edge_filter vertex_filter mode g = (Ok edge_filter, g) /\
    length edge_filter = length (gt_edges (base g)) /\
    forall (i : nat) e, gt_edges (base g) !! i = Some e ->
      exists x y, vertex_filter !! e.1 = Some x /\ vertex_filter !! e.2 = Some y /\
        edge_filter !! i = Some (op x y).
Proof.
  intros Hwf Hlen Hmode.
  destruct (take_endpoints (base g) vertex_filter Hwf Hlen) as (s & t & Es & Et & Hs & Ht & Hst).
  assert (Hop : mappings_get mode = Ok (np_elementwise op)).
  { destruct Hmode as [[Hm ->]|[Hm ->]]; [by apply mappings_get_and|by apply mappings_get_or]. }
  exists (zip_with op s t).
  unfold vertex_filter_to_edge_filter, edge_connectivity, bind, get__base, ret, lift. simpl.
  rewrite Es, Et, Hop. rewrite np_elementwise_same by congruence.
  split; [done|]. split; [rewrite length_zip_with; lia|].
  intros i e He. destruct (Hst i e He) as [Hsi Hti].
  assert (Hi : (i < length s)%nat) by (rewrite Hs; by apply lookup_lt_Some in He).
  apply lookup_lt_is_Some_2 in Hi as [x Hx].
  assert (Hi : (i < length t)%nat) by (rewrite Ht; by apply lookup_lt_Some in He).
  apply lookup_lt_is_Some_2 in Hi as [y Hy].
  exists x, y. rewrite <- Hsi, <- Hti. do 2 (split; [done|]).
  apply lookup_zip_with_Some. by exists x, y.
Qed.

(** A mode other than 'both', 'either', 'and' and 'or' raises
    [ValueError], once the filter has been read at the ends of all edges. *)
Theorem vertex_filter_to_edge_filter_unknown_mode g (vertex_filter : list bool)
    (mode : string) :
  wf_edges (base g) ->
  (gt_num_vertices (base g) <= length vertex_filter)%nat ->
  mode ∉ ["both"; "either"; "and"; "or"]%string ->
  vertex_filter_to_edge_filter vertex_filter mode g = (Raise ValueError, g).
Proof.
  intros Hwf Hlen Hmode.
  destruct (take_endpoints (base g) vertex_filter Hwf Hlen) as (s & t & Es & Et & _).
  unfold vertex_filter_to_edge_filter, edge_connectivity, bind, get__base, ret, lift. simpl.
  by rewrite Es, Et, mappings_get_unknown.
Qed.

(** A filter that is too short for an end of some edge raises
    [IndexError], whatever the mode: the filter is read before the mode is
    looked up. *)
Theorem vertex_filter_to_edge_filter_short_filter g (vertex_filter : list bool)
    (mode : string) (e : nat * nat) :
  e ∈ gt_edges (base g) ->
  (length vertex_filter <= e.1)%nat \/ (length vertex_filter <= e.2)%nat ->
  vertex_filter_to_edge_filter vertex_filter mode g = (Raise IndexError, g).
Proof.
  intros He Hshort.
  unfold vertex_filter_to_edge_filter, edge_connectivity, bind, get__base, ret, lift. simpl.
  destruct (np_take_outcome vertex_filter (map fst (gt_edges (base g))))
    as [(s & Es & _)|Es]; rewrite Es; [|done].
  rewrite np_take_out_of_range; [done|].
  destruct Hshort as [Hshort|Hshort].
  - exfalso. assert (Hex : Exists (fun i => (length vertex_filter <= i)%nat)
                             (map fst (gt_edges (base g)))).
    { apply Exists_exists. exists e.1. split; [|done]. apply list_elem_of_fmap. eauto. }
    rewrite (np_take_out_of_range _ _ Hex) in Es. done.
  - apply Exists_exists. exists e.2. split; [|done]. apply list_elem_of_fmap. eauto.
Qed.

Lemma map_bool_decide_true (l : list bool) : map (fun x => bool_decide (x = true)) l = l.
Proof. induction l as [|[] l IH]; simpl; by rewrite ?IH. Qed.

(** On a graph whose edges join existing vertices and an edge label with
    one entry per edge, [edge_to_vertex_label_or] returns one entry per
    vertex, [True] exactly at the ends of the edges labelled [True]. *)
Theorem edge_to_vertex_label_or_ends g (edge_label : list bool) :
  wf_edges (base g) ->
  length edge_label = length (gt_edges (base g)) ->
  exists label,
    edge_to_vertex_label_or edge_label g = (Ok label, g) /\
    length label = gt_num_vertices (base g) /\
    forall v : nat,
      label !! v = Some true <->
      exists (j : nat) e, gt_edges (base g) !! j = Some e /\ edge_label !! j = Some true /\
        (v = e.1 \/ v = e.2).
Proof.
  intros Hwf Hlen.
  set (ids := round_vertices (base g) true edge_label).
  exists (write_all true (replicate (gt_num_vertices (base g)) false) ids).
  split; [|split].
  - unfold edge_to_vertex_label_or, n_vertices, edge_connectivity, bind, get__base, ret, lift.
    simpl. unfold boolean_index. rewrite Hlen, Nat.eqb_refl. simpl.
    fold (gt_edges (base g)).
    rewrite <- (map_bool_decide_true edge_label) at 1.
    fold (round_vertices (base g) true edge_label). fold ids.
    unfold np_put. rewrite length_replicate.
    assert (Hall : forallb (fun i => (i <? gt_num_vertices (base g))%nat) ids = true).
    { apply forallb_forall. intros v Hv. apply Nat.ltb_lt.
      pose proof (round_vertices_bound (base g) true edge_label Hwf) as Hb.
      rewrite Forall_forall in Hb. apply Hb. by apply list_elem_of_In. }
    rewrite Hall. done.
  - by rewrite write_all_length, length_replicate.
  - intros v. rewrite write_all_lookup, length_replicate.
    rewrite <- (round_vertices_elem (base g) true edge_label v). fold ids.
    pose proof (round_vertices_bound (base g) true edge_label Hwf) as Hb.
    rewrite Forall_forall in Hb.
    destruct (decide (v ∈ ids)) as [Hv|Hv].
    + rewrite (bool_decide_eq_true_2 _ Hv).
      rewrite bool_decide_eq_true_2 by by apply Hb. done.
    + rewrite (bool_decide_eq_false_2 _ Hv). split; [|done].
      intros Hr. apply lookup_replicate in Hr as [? _]. done.
Qed.

(** A label whose length is not the number of edges raises [IndexError]. *)
Theorem edge_to_vertex_label_or_length_mismatch g (edge_label : list bool) :
  length edge_label <> length (gt_edges (base g)) ->
  edge_to_vertex_label_or edge_label g = (Raise IndexError, g).
Proof.
  intros Hlen.
  unfold edge_to_vertex_label_or, n_vertices, edge_connectivity, bind, get__base, ret, lift.
  simpl. unfold boolean_index. apply Nat.eqb_neq in Hlen. by rewrite Hlen.
Qed.

Lemma mean_is_one (x y : bool) :
  Qeq_bool ((inject_Z (Z.b2z x) + inject_Z (Z.b2z y)) / inject_Z 2) (inject_Z 1) = x && y.
Proof. by destruct x, y. Qed.

(** Without a method, [vertex_to_edge_label] on a boolean vertex label is
    [vertex_filter_to_edge_filter] in mode 'both': same result, same
    exception, on every graph and label. *)
Theorem vertex_to_edge_label_both g (vertex_label : list bool) :
  vertex_to_edge_label vertex_label None g =
  vertex_filter_to_edge_filter vertex_label "both" g.
Proof.
  unfold vertex_to_edge_label, vertex_filter_to_edge_filter, edge_connectivity, bind,
    get__base, ret, lift. simpl.
  destruct (np_take_outcome vertex_label (map fst (gt_edges (base g))))
    as [(s & Es & Hs)|Es]; rewrite Es; [|done].
  destruct (np_take_outcome vertex_label (map snd (gt_edges (base g))))
    as [(t & Et & Ht)|Et]; rewrite Et; [|done].
  rewrite (mappings_get_and "both") by (rewrite !elem_of_cons; tauto).
  rewrite !length_map in *.
  unfold np_mean2, np_logical_and. rewrite !np_elementwise_same by congruence.
  do 2 f_equal. clear. revert t. induction s as [|x s IH]; intros [|y t]; simpl; try done.
  by rewrite IH, mean_is_one.
Qed.

End MappingFacts.

Lemma vertex_filter_to_edge_filter_modes_witness :
  exists edge_filter,
    vertex_filter_to_edge_filter
      [false; true; true; true; false; true; false; true; false; true] "either"
      Reference.scenario = (Ok edge_filter, Reference.scenario) /\
    length edge_filter = length (gt_edges (base Reference.scenario)) /\
    forall (i : nat) e, gt_edges (base Reference.scenario) !! i = Some e ->
      exists x y,
        [false; true; true; true; false; true; false; true; false; true] !! e.1 = Some x /\
        [false; true; true; true; false; true; false; true; false; true] !! e.2 = Some y /\
        edge_filter !! i = Some (orb x y).
Proof.
  apply (vertex_filter_to_edge_filter_modes Reference.scenario).
  - unfold wf_edges. apply (bool_decide_unpack _). vm_compute. exact I.
  - vm_compute. lia.
  - right. split; [|reflexivity]. apply (bool_decide_unpack _). vm_compute. exact I.
Defined.

Example vertex_filter_to_edge_filter_scenario :
  Reference.outcome (vertex_filter_to_edge_filter
             [false; true; true; true; false; true; false; true; false; true] "both")
    Reference.scenario = Ok [true; true; false; true].
Proof. vm_compute. reflexivity. Qed.

Lemma vertex_filter_to_edge_filter_unknown_mode_witness :
  vertex_filter_to_edge_filter (replicate 10 true) "all" Reference.scenario
    = (Raise ValueError, Reference.scenario).
Proof.
  apply (vertex_filter_to_edge_filter_unknown_mode Reference.scenario).
  - unfold wf_edges. apply (bool_decide_unpack _). vm_compute. exact I.
  - vm_compute. lia.
  - apply (bool_decide_unpack _). vm_compute. exact I.
Defined.

Lemma vertex_filter_to_edge_filter_short_filter_witness :
  vertex_filter_to_edge_filter (replicate 8 true) "all" Reference.scenario
    = (Raise IndexError, Reference.scenario).
Proof.
  apply (vertex_filter_to_edge_filter_short_filter Reference.scenario _ _ (7, 9)%nat).
  - apply (bool_decide_unpack _). vm_compute. exact I.
  - right. vm_compute. lia.
Defined.

Lemma edge_to_vertex_label_or_ends_witness :
  exists label,
    edge_to_vertex_label_or [true; false; false; true] Reference.scenario
      = (Ok label, Reference.scenario) /\
    length label = gt_num_vertices (base Reference.scenario) /\
    forall v : nat,
      label !! v = Some true <->
      exists (j : nat) e, gt_edges (base Reference.scenario) !! j = Some e /\
        [true; false; false; true] !! j = Some true /\ (v = e.1 \/ v = e.2).
Proof.
  apply (edge_to_vertex_label_or_ends Reference.scenario).
  - unfold wf_edges. apply (bool_decide_unpack _). vm_compute. exact I.
  - vm_compute. reflexivity.
Defined.

Example edge_to_vertex_label_or_scenario :
  Reference.outcome (edge_to_vertex_label_or [true; false; false; true]) Reference.scenario
    = Ok [false; true; false; true; false; false; false; true; false; true].
Proof. vm_compute. reflexivity. Qed.

Lemma edge_to_vertex_label_or_length_mismatch_witness :
  edge_to_vertex_label_or [true; false] Reference.scenario
    = (Raise IndexError, Reference.scenario).
Proof.
  apply (edge_to_vertex_label_or_length_mismatch Reference.scenario).
  vm_compute. discriminate.
Defined.

(** ** The property dictionaries, the shape and the geometry names *)

Section PropertyFacts.
Context {sample : Type} `{Zero sample} `{Engine sample}.
Implicit Types (g : Graph sample) (name : string).

Lemma dict_has_missing {V} (d : gmap string V) name : d !! name = None -> dict_has d name = false.
Proof. intros E. unfold dict_has. by rewrite E. Qed.

Lemma dict_has_present {V} (d : gmap string V) name (v : V) :
  d !! name = Some v -> dict_has d name = true.
Proof. intros E. unfold dict_has. by rewrite E. Qed.

(** Setting or removing a property under a name that the dictionary does
    not hold raises [ValueError], for vertex, edge and graph properties
    alike, and leaves the graph as it is. *)
Theorem missing_property_raises g (vname ename gname : string) (source : pyval sample)
    (v : option nat) (e : option edge_spec) :
  gt_vertex_properties (base g) !! vname = None ->
  gt_edge_properties (base g) !! ename = None ->
  gt_graph_properties (base g) !! gname = None ->
  set_vertex_property vname source v g = (Raise ValueError, g) /\
  remove_vertex_property vname g = (Raise ValueError, g) /\
  set_edge_property ename source e g = (Raise ValueError, g) /\
  remove_edge_property ename g = (Raise ValueError, g) /\
  set_graph_property gname source g = (Raise ValueError, g) /\
  remove_graph_property gname g = (Raise ValueError, g).
Proof.
  intros Hv He Hg.
  unfold set_vertex_property, remove_vertex_property, set_edge_property, remove_edge_property,
    set_graph_property, remove_graph_property, edge_properties, graph_properties, bind,
    get__base, ret. simpl.
  rewrite !dict_has_keys.
  rewrite (dict_has_missing _ _ Hv), (dict_has_missing _ _ He), (dict_has_missing _ _ Hg).
  done.
Qed.

Lemma define_graph_property_state g name (source : pyval sample) :
  define_graph_property name source g =
    (Ok tt, mk_Graph
       (mk_gt_Graph (gt_directed (base g)) (gt_num_vertices (base g)) (gt_edges (base g))
          (gt_vertex_properties (base g)) (gt_edge_properties (base g))
          (if dict_has (gt_graph_properties (base g)) name && is_None source
           then gt_graph_properties (base g)
           else <[name := source]> (gt_graph_properties (base g)))
          (gt_view (base g)))
       PyNone PyNone PyNone).
Proof.
  destruct g as [[d n es vp ep gp vw] mv mf fe]. simpl.
  unfold define_graph_property, set_graph_property, add_graph_property, graph_properties,
    store_graph_property, bind, get__base, set__base, invalidate_caches, ret. simpl.
  rewrite dict_has_keys. destruct (dict_has gp name) eqn:E; simpl; [|done].
  rewrite dict_has_keys, E. simpl. by destruct (is_None source).
Qed.

(** [define_graph_property] never raises and leaves the cache invalid.
    Afterwards the property reads as the value given, except that defining
    an existing property as [None] keeps the value it had; no other graph
    property changes. *)
Theorem define_graph_property_lookup g name (source : pyval sample) :
  exists g',
    define_graph_property name source g = (Ok tt, g') /\
    cache_invalid g' /\
    graph_property name g' =
      (Ok (match gt_graph_properties (base g) !! name with
           | Some old => if is_None source then old else source
           | None => source
           end), g') /\
    forall other, other <> name ->
      gt_graph_properties (base g') !! other = gt_graph_properties (base g) !! other.
Proof.
  eexists. split; [apply define_graph_property_state|]. split; [reflexivity|].
  unfold graph_property, bind, get__base, lift, dict_get, dict_has. simpl.
  destruct (gt_graph_properties (base g) !! name) as [old|] eqn:E; simpl.
  - destruct (is_None source); simpl.
    + rewrite E. done.
    + rewrite lookup_insert_eq. split; [done|]. intros other Ho. by rewrite lookup_insert_ne.
  - rewrite lookup_insert_eq. split; [done|]. intros other Ho. by rewrite lookup_insert_ne.
Qed.

(** After a property is removed, reading it raises [KeyError] and the
    other properties of the same kind are as before; this holds for vertex,
    edge and graph properties. *)
Theorem removed_property_is_gone g (vname ename gname : string) :
  is_Some (gt_vertex_properties (base g) !! vname) ->
  is_Some (gt_edge_properties (base g) !! ename) ->
  is_Some (gt_graph_properties (base g) !! gname) ->
  (exists g', remove_vertex_property vname g = (Ok tt, g') /\
     vertex_property vname None g' = (Raise (KeyError vname), g') /\
     gt_vertex_properties (base g') = delete vname (gt_vertex_properties (base g))) /\
  (exists g', remove_edge_property ename g = (Ok tt, g') /\
     edge_property ename None g' = (Raise (KeyError ename), g') /\
     gt_edge_properties (base g') = delete ename (gt_edge_properties (base g))) /\
  (exists g', remove_graph_property gname g = (Ok tt, g') /\
     graph_property gname g' = (Raise (KeyError gname), g') /\
     gt_graph_properties (base g') = delete gname (gt_graph_properties (base g))).
Proof.
  intros [pv Hv] [pe He] [pg Hg].
  unfold remove_vertex_property, remove_edge_property, remove_graph_property,
    vertex_property, edge_property, graph_property, edge_properties, graph_properties, bind,
    get__base, set__base, invalidate_caches, ret, lift. simpl.
  rewrite !dict_has_keys.
  rewrite (dict_has_present _ _ _ Hv), (dict_has_present _ _ _ He), (dict_has_present _ _ _ Hg).
  simpl. unfold dict_get.
  split; [|split]; eexists; (split; [reflexivity|]); simpl; rewrite lookup_delete_eq; done.
Qed.

(** After the shape is set to a sequence, [shape] reads it back and [ndim]
    is its length, whatever the graph held before. *)
Theorem set_shape_ndim g (items : list (pyval sample)) :
  exists g',
    set_shape (PyList items) g = (Ok tt, g') /\
    shape g' = (Ok (PyList items), g') /\
    ndim g' = (Ok (Z.of_nat (length items)), g').
Proof.
  eexists. split; [apply define_graph_property_state|].
  simpl. rewrite andb_false_r.
  assert (Hs : forall g' : Graph sample,
            gt_graph_properties (base g') !! "shape"%string = Some (PyList items) ->
            shape g' = (Ok (PyList items), g')).
  { intros g' Hg'. unfold shape, graph_property, bind, get__base, lift, dict_get. simpl.
    by rewrite Hg'. }
  split.
  - apply Hs. simpl. apply lookup_insert_eq.
  - unfold ndim. unfold bind at 1. rewrite Hs by apply lookup_insert_eq. cbn [is_None].
    unfold bind. rewrite Hs by apply lookup_insert_eq. done.
Qed.

(** Once the meshes are computed with vertices and faces that are not
    [None], reading [edge_meshes] again returns the same arrays and
    changes nothing. *)
Theorem edge_meshes_cached g g1 (m : pyval sample * pyval sample * pyval sample) :
  edge_meshes g = (Ok m, g1) ->
  is_None m.1.1 = false ->
  is_None m.1.2 = false ->
  edge_meshes g1 = (Ok m, g1).
Proof.
  unfold edge_meshes, bind, get, put, ret. simpl.
  destruct (is_None (mesh_vertices g) || is_None (mesh_faces g)) eqn:Ec.
  - destruct (mesh_tube g) as [[v f] ids]. simpl. intros [= <- <-]. simpl.
    intros -> ->. simpl. done.
  - simpl. intros [= <- <-]. simpl. intros Hv Hf. rewrite Hv, Hf. simpl. done.
Qed.

(** [set_edge_geometry_type] rejects a type other than 'graph' and 'edge'
    with [ValueError] and leaves the graph as it is. *)
Theorem set_edge_geometry_type_invalid g (typ : string) :
  typ ∉ ["graph"; "edge"]%string ->
  set_edge_geometry_type typ g = (Raise ValueError, g).
Proof.
  intros Hn. unfold set_edge_geometry_type. rewrite bool_decide_eq_false_2 by done. done.
Qed.

(** [set_edge_geometry_type] returns at once when the graph already has
    the type asked for: the graph is unchanged, and its mesh cache is not
    invalidated. *)
Theorem set_edge_geometry_type_same g (typ : string) :
  typ ∈ ["graph"; "edge"]%string ->
  gt_graph_properties (base g) !! "edge_geometry_type"%string = Some (PyStr typ) ->
  set_edge_geometry_type typ g = (Ok tt, g).
Proof.
  intros Hin Ht. unfold set_edge_geometry_type. rewrite bool_decide_eq_true_2 by done. simpl.
  unfold edge_geometry_type, graph_property, bind, get__base, lift, dict_get. simpl.
  rewrite Ht. simpl. rewrite bool_decide_eq_true_2 by done. done.
Qed.

Lemma geometry_name_is_type name :
  edge_geometry_property_name name = "edge_geometry_type"%string <-> name = "type"%string.
Proof.
  unfold edge_geometry_property_name. split; [intros [= E]; exact E|intros ->; reflexivity].
Qed.

Lemma geometry_name_prefix name :
  String.prefix (edge_geometry_property_name "") (edge_geometry_property_name name) = true.
Proof. destruct name; vm_compute; reflexivity. Qed.

Lemma geometry_name_listed name (properties : list string) :
  bool_decide (edge_geometry_property_name name ∈
      filter (fun p => String.prefix (edge_geometry_property_name "") p = true
                       /\ p <> "edge_geometry_type"%string) properties)
  = negb (bool_decide (name = "type"%string))
    && bool_decide (edge_geometry_property_name name ∈ properties).
Proof.
  apply eq_true_iff_eq.
  rewrite andb_true_iff, negb_true_iff, bool_decide_eq_false, !bool_decide_eq_true.
  rewrite list_elem_of_filter, geometry_name_is_type.
  pose proof (geometry_name_prefix name). tauto.
Qed.

(** A graph has the edge geometry [name] when the dictionary of its mode
    (graph properties in 'graph' mode, edge properties otherwise) holds
    [edge_geometry_<name>]; the name 'type' never counts, although
    [edge_geometry_type] is a graph property. *)
Theorem has_edge_geometry_lookup g name (t : pyval sample) :
  gt_graph_properties (base g) !! "edge_geometry_type"%string = Some t ->
  has_edge_geometry name g =
    (Ok (negb (bool_decide (name = "type"%string)) &&
         if is_str t "graph"
         then dict_has (gt_graph_properties (base g)) (edge_geometry_property_name name)
         else dict_has (gt_edge_properties (base g)) (edge_geometry_property_name name)), g).
Proof.
  intros Ht.
  unfold has_edge_geometry, edge_geometry_property_names, edge_geometry_type, graph_property,
    graph_properties, edge_properties, bind, get__base, ret, lift, dict_get. simpl.
  rewrite Ht. simpl.
  destruct (is_str t "graph"); simpl; rewrite geometry_name_listed, dict_has_keys; done.
Qed.

Lemma for_each_one {S A} (x : A) (body : A -> M S unit) (s : S) :
  for_each [x] body s = body x s.
Proof. simpl. unfold bind, ret. by destruct (body x s) as [[[]|e] s']. Qed.

(** In 'graph' mode [remove_edge_geometry(name)] deletes the graph
    property [edge_geometry_<name>] and nothing else, and does not raise
    when there is no such property. *)
Theorem remove_edge_geometry_graph_mode g name :
  in_graph_mode g ->
  exists g',
    remove_edge_geometry (Some (inl name)) g = (Ok tt, g') /\
    gt_graph_properties (base g') =
      delete (edge_geometry_property_name name) (gt_graph_properties (base g)) /\
    gt_edge_properties (base g') = gt_edge_properties (base g) /\
    gt_vertex_properties (base g') = gt_vertex_properties (base g) /\
    gt_edges (base g') = gt_edges (base g) /\
    gt_num_vertices (base g') = gt_num_vertices (base g).
Proof.
  unfold in_graph_mode. intros Hmode.
  unfold remove_edge_geometry. unfold bind at 1. unfold ret at 1. rewrite for_each_one.
  unfold edge_geometry_type, graph_property, _remove_edge_geometry_graph, remove_graph_property,
    graph_properties, bind, get__base, set__base, invalidate_caches, ret, lift, dict_get.
  simpl. rewrite Hmode. simpl. rewrite !dict_has_keys. unfold dict_has.
  destruct (gt_graph_properties (base g) !! edge_geometry_property_name name) eqn:E; simpl.
  - rewrite dict_has_keys. unfold dict_has. rewrite E. simpl. eexists. split; [reflexivity|]. done.
  - exists g. split; [done|]. by rewrite delete_id.
Qed.

(** In 'edge' mode [remove_edge_geometry(name)] raises [ValueError] when
    there is no edge property [edge_geometry_<name>], and leaves the graph
    as it is. *)
Theorem remove_edge_geometry_edge_mode_missing g name :
  gt_graph_properties (base g) !! "edge_geometry_type"%string = Some (PyStr "edge") ->
  gt_edge_properties (base g) !! edge_geometry_property_name name = None ->
  remove_edge_geometry (Some (inl name)) g = (Raise ValueError, g).
Proof.
  intros Hmode Hmiss.
  unfold remove_edge_geometry. unfold bind at 1. unfold ret at 1. rewrite for_each_one.
  unfold edge_geometry_type, graph_property, _remove_edge_geometry_edge, remove_edge_property,
    edge_properties, bind, get__base, ret, lift, dict_get.
  simpl. rewrite Hmode. simpl. rewrite dict_has_keys. unfold dict_has. by rewrite Hmiss.
Qed.

End PropertyFacts.

Lemma missing_property_raises_witness :
  set_vertex_property "radii" (PyInt 1) None Reference.scenario
    = (Raise ValueError, Reference.scenario) /\
  remove_vertex_property "radii" Reference.scenario = (Raise ValueError, Reference.scenario) /\
  set_edge_property "radii" (PyInt 1) None Reference.scenario
    = (Raise ValueError, Reference.scenario) /\
  remove_edge_property "radii" Reference.scenario = (Raise ValueError, Reference.scenario) /\
  set_graph_property "radii" (PyInt 1) Reference.scenario
    = (Raise ValueError, Reference.scenario) /\
  remove_graph_property "radii" Reference.scenario = (Raise ValueError, Reference.scenario).
Proof.
  apply (missing_property_raises Reference.scenario); vm_compute; reflexivity.
Defined.

Lemma removed_property_is_gone_witness :
  let g := Reference.state_after (add_vertex_property "radii" None) Reference.scenario in
  (exists g', remove_vertex_property "radii" g = (Ok tt, g') /\
     vertex_property "radii" None g' = (Raise (KeyError "radii"), g') /\
     gt_vertex_properties (base g') = delete "radii" (gt_vertex_properties (base g))) /\
  (exists g', remove_edge_property "edge_geometry_indices" g = (Ok tt, g') /\
     edge_property "edge_geometry_indices" None g'
       = (Raise (KeyError "edge_geometry_indices"), g') /\
     gt_edge_properties (base g')
       = delete "edge_geometry_indices" (gt_edge_properties (base g))) /\
  (exists g', remove_graph_property "shape" g = (Ok tt, g') /\
     graph_property "shape" g' = (Raise (KeyError "shape"), g') /\
     gt_graph_properties (base g') = delete "shape" (gt_graph_properties (base g))).
Proof.
  apply (removed_property_is_gone
           (Reference.state_after (add_vertex_property "radii" None) Reference.scenario));
    eexists; vm_compute; reflexivity.
Defined.

Lemma edge_meshes_cached_witness :
  edge_meshes (Reference.state_after edge_meshes Reference.scenario)
    = (Ok (PyNdarray [], PyNdarray [], PyNdarray [PyInt 0; PyInt 1; PyInt 2; PyInt 3]),
       Reference.state_after edge_meshes Reference.scenario).
Proof.
  apply (edge_meshes_cached Reference.scenario); vm_compute; reflexivity.
Defined.

Lemma set_edge_geometry_type_invalid_witness :
  set_edge_geometry_type "vertex" Reference.scenario = (Raise ValueError, Reference.scenario).
Proof.
  apply (set_edge_geometry_type_invalid Reference.scenario).
  apply (bool_decide_unpack _). vm_compute. exact I.
Defined.

Lemma set_edge_geometry_type_same_witness :
  set_edge_geometry_type "graph" Reference.scenario = (Ok tt, Reference.scenario).
Proof.
  apply (set_edge_geometry_type_same Reference.scenario).
  - apply (bool_decide_unpack _). vm_compute. exact I.
  - vm_compute. reflexivity.
Defined.

Lemma has_edge_geometry_lookup_witness :
  has_edge_geometry "coordinates" Reference.scenario =
    (Ok (negb (bool_decide ("coordinates" = "type")%string) &&
         if is_str (PyStr "graph" : pyval Z) "graph"
         then dict_has (gt_graph_properties (base Reference.scenario))
                (edge_geometry_property_name "coordinates")
         else dict_has (gt_edge_properties (base Reference.scenario))
                (edge_geometry_property_name "coordinates")), Reference.scenario).
Proof.
  apply (has_edge_geometry_lookup Reference.scenario). vm_compute. reflexivity.
Defined.

Example has_edge_geometry_scenario :
  Reference.outcome (has_edge_geometry "coordinates") Reference.scenario = Ok true /\
  Reference.outcome (has_edge_geometry "type") Reference.scenario = Ok false /\
  Reference.outcome (has_edge_geometry "indices") Reference.scenario = Ok false.
Proof. vm_compute. done. Qed.

Lemma remove_edge_geometry_graph_mode_witness :
  exists g',
    remove_edge_geometry (Some (inl "coordinates"%string)) Reference.scenario = (Ok tt, g') /\
    gt_graph_properties (base g') =
      delete (edge_geometry_property_name "coordinates")
        (gt_graph_properties (base Reference.scenario)) /\
    gt_edge_properties (base g') = gt_edge_properties (base Reference.scenario) /\
    gt_vertex_properties (base g') = gt_vertex_properties (base Reference.scenario) /\
    gt_edges (base g') = gt_edges (base Reference.scenario) /\
    gt_num_vertices (base g') = gt_num_vertices (base Reference.scenario).
Proof.
  apply (remove_edge_geometry_graph_mode Reference.scenario). vm_compute. reflexivity.
Defined.

Lemma remove_edge_geometry_edge_mode_missing_witness :
  let g := Reference.state_after
             (set_graph_property "edge_geometry_type" (PyStr "edge")) Reference.scenario_bare in
  remove_edge_geometry (Some (inl "coordinates"%string)) g = (Raise ValueError, g).
Proof.
  apply (remove_edge_geometry_edge_mode_missing
           (Reference.state_after
              (set_graph_property "edge_geometry_type" (PyStr "edge")) Reference.scenario_bare));
    vm_compute; reflexivity.
Defined.

(** ** Reading back a packed geometry *)

Lemma slice_middle {A} (p a q : list A) :
  Np.slice (p ++ a ++ q) (Z.of_nat (length p)) (Z.of_nat (length p) + Z.of_nat (length a)) = a.
Proof.
  unfold Np.slice, Np.slice_bound. rewrite !length_app.
  rewrite (proj2 (Z.ltb_ge _ 0)) by lia. rewrite (proj2 (Z.ltb_ge _ 0)) by lia.
  rewrite !Z.min_l by lia.
  replace (Z.to_nat (Z.of_nat (length p) + Z.of_nat (length a) - Z.of_nat (length p)))
    with (length a) by lia.
  rewrite Nat2Z.id, drop_app_length, take_app_length. done.
Qed.

Lemma zsum_take_lengths {B} (arrays : list (list B)) (i : nat) :
  zsum (take i (lengths_of arrays)) = Z.of_nat (length (concat (take i arrays))).
Proof.
  unfold lengths_of. rewrite <- fmap_take. apply (zsum_lengths_concat (take i arrays)).
Qed.

Lemma concat_middle {B} (arrays : list (list B)) (i : nat) (a : list B) :
  arrays !! i = Some a ->
  concat arrays = concat (take i arrays) ++ a ++ concat (drop (S i) arrays).
Proof.
  intros Ha. rewrite <- (take_drop_middle arrays i a Ha) at 1.
  rewrite concat_app. done.
Qed.

Lemma slices_of_concat {B} (arrays : list (list B)) (ranges : list (Z * Z)) :
  packing_law (lengths_of arrays) ranges ->
  map (fun r => Np.slice (concat arrays) r.1 r.2) ranges = arrays.
Proof.
  intros [Hlen Hlaw]. unfold lengths_of in Hlen. rewrite length_map in Hlen.
  apply list_eq. intros i. rewrite list_lookup_fmap.
  destruct (arrays !! i) as [a|] eqn:Ha.
  - assert (Hi : (i < length (lengths_of arrays))%nat).
    { unfold lengths_of. rewrite length_map. by apply lookup_lt_Some in Ha. }
    rewrite (Hlaw i Hi). simpl. f_equal.
    rewrite (zsum_take_S (lengths_of arrays) i (Z.of_nat (length a))).
    2:{ unfold lengths_of. by rewrite list_lookup_fmap, Ha. }
    rewrite !zsum_take_lengths. rewrite (concat_middle arrays i a Ha) at 1.
    apply slice_middle.
  - apply lookup_ge_None in Ha. rewrite lookup_ge_None_2 by lia. done.
Qed.

Section PackedRoundTrip.
Context {sample : Type} `{Zero sample} `{Engine sample}.
Implicit Types (g : Graph sample) (arrays : list (list (pyval sample))).

Lemma index_rows_indices_array (ranges : list (Z * Z)) :
  index_rows (sample := sample) (PyNdarray (map (fun r => PyRange r.1 r.2) ranges)) = Ok ranges.
Proof.
  unfold index_rows. simpl. induction ranges as [|[s e] l IH]; simpl; [done|]. by rewrite IH.
Qed.

Lemma map_result_py_slice (items : list (pyval sample)) (ranges : list (Z * Z)) :
  map_result (py_slice (PyNdarray items)) ranges
    = Ok (map (fun r => PyNdarray (Np.slice items r.1 r.2)) ranges).
Proof. induction ranges as [|r l IH]; simpl; [done|]. by rewrite IH. Qed.

(** What is set is what is read: after a packed geometry is set from one
    array per edge, each an array of two or more dimensions with at least
    one row and all with rows of one shape, [edge_geometry] returns these
    arrays, for all edges at once and for each edge alone, and
    [edge_geometry_lengths] their lengths. *)
Theorem edge_geometry_graph_round_trip g (name : string) (item_shape : list nat) arrays :
  in_graph_mode g ->
  name <> "type"%string ->
  item_shape <> [] ->
  Forall (items_of_shape item_shape) arrays ->
  arrays <> [] ->
  length arrays = length (gt_edges (base g)) ->
  zsum (lengths_of arrays) <= Np.int64_max ->
  exists g',
    set_edge_geometry name (PyList (map PyNdarray arrays)) None None g = (Ok tt, g') /\
    edge_geometry name None true false true None g'
      = (Ok (PyList (map PyNdarray arrays), None), g') /\
    (forall (i : nat) a, arrays !! i = Some a ->
       edge_geometry name (Some (EdgeDescriptor i)) true false true None g'
         = (Ok (PyNdarray a, None), g')) /\
    edge_geometry_lengths name g' = (Ok (lengths_of arrays), g').
Proof.
  intros Hmode Hname Hshape Hall Hne Hlen Hmax.
  destruct (set_edge_geometry_graph_state g name item_shape arrays Hmode Hshape Hall Hne Hlen Hmax)
    as (ranges & Hlaw & Hset).
  eexists. split; [exact Hset|].
  assert (Htype : (<[edge_geometry_property_name name := PyNdarray (concat arrays)]>
                     (gt_graph_properties (base g))) !! "edge_geometry_type"%string
                  = Some (PyStr "graph")).
  { rewrite lookup_insert_ne; [exact Hmode|]. by rewrite geometry_name_is_type. }
  split; [|split].
  - unfold edge_geometry, edge_geometry_type, graph_property, bind, get__base, lift, dict_get, ret.
    simpl. rewrite Htype. simpl.
    unfold _edge_geometry_graph, _edge_geometry_indices_graph, edge_property, graph_property,
      bind, get__base, lift, dict_get, ret. simpl.
    rewrite !lookup_insert_eq. simpl. unfold property_map_to_python.
    rewrite index_rows_indices_array. simpl. rewrite map_result_py_slice. simpl.
    rewrite <- (slices_of_concat arrays ranges Hlaw) at 2.
    by rewrite <- list_fmap_compose.
  - intros i a Ha.
    assert (Hr : ranges !! i = Some (zsum (take i (lengths_of arrays)),
                                     zsum (take (S i) (lengths_of arrays)))).
    { apply Hlaw. unfold lengths_of. rewrite length_map. by apply lookup_lt_Some in Ha. }
    unfold edge_geometry, edge_geometry_type, graph_property, bind, get__base, lift, dict_get, ret.
    simpl. rewrite Htype. simpl.
    unfold _edge_geometry_graph, _edge_geometry_indices_graph, edge_property, edge_index, edge,
      edge_key, graph_property, bind, get__base, lift, dict_get, ret. simpl.
    rewrite !lookup_insert_eq. simpl. unfold item_get.
    rewrite list_lookup_fmap, Hr. simpl.
    pose proof (slices_of_concat arrays ranges Hlaw) as Hs.
    apply (f_equal (fun l => l !! i)) in Hs. rewrite list_lookup_fmap, Hr, Ha in Hs.
    simpl in Hs. injection Hs as Hs.
    rewrite ?lookup_insert_eq. simpl. rewrite Hs. done.
  - unfold edge_geometry_lengths, edge_geometry_type, graph_property, bind, get__base, lift,
      dict_get, ret. simpl. rewrite Htype. simpl.
    unfold _edge_geometry_indices_graph, edge_property, bind, get__base, lift, dict_get, ret.
    simpl. rewrite lookup_insert_eq. simpl. unfold property_map_to_python.
    rewrite index_rows_indices_array. simpl.
    rewrite diff_rows_valid, (packing_law_lengths _ _ Hlaw); [done|].
    apply (packing_law_valid (lengths_of arrays)); [|done..].
    unfold lengths_of. clear. induction arrays; simpl; constructor; [lia|done].
Qed.

End PackedRoundTrip.

Lemma edge_geometry_graph_round_trip_witness :
  exists g',
    set_edge_geometry "coordinates" (PyList (map PyNdarray Reference.scenario_arrays))
      None None Reference.scenario_bare = (Ok tt, g') /\
    edge_geometry "coordinates" None true false true None g'
      = (Ok (PyList (map PyNdarray Reference.scenario_arrays), None), g') /\
    (forall (i : nat) a, Reference.scenario_arrays !! i = Some a ->
       edge_geometry "coordinates" (Some (EdgeDescriptor i)) true false true None g'
         = (Ok (PyNdarray a, None), g')) /\
    edge_geometry_lengths "coordinates" g' = (Ok (lengths_of Reference.scenario_arrays), g').
Proof.
  apply (edge_geometry_graph_round_trip Reference.scenario_bare "coordinates" [3%nat]
           Reference.scenario_arrays).
  - vm_compute. reflexivity.
  - discriminate.
  - discriminate.
  - unfold items_of_shape. apply (bool_decide_unpack _). vm_compute. exact I.
  - discriminate.
  - reflexivity.
  - vm_compute. discriminate.
Defined.

(** ** Mode changes and compaction at the edges of their domain *)

Section EdgeCases.
Context {sample : Type} `{Zero sample} `{Engine sample}.
Implicit Types (g : Graph sample) (name : string).

(** Converting a packed graph to 'edge' mode reads the index property
    first: on a graph that has none (no geometry was ever set) the
    conversion raises [KeyError] and changes nothing. *)
Theorem set_edge_geometry_type_edge_without_indices g :
  in_graph_mode g ->
  gt_edge_properties (base g) !! "edge_geometry_indices"%string = None ->
  set_edge_geometry_type "edge" g = (Raise (KeyError "edge_geometry_indices"), g).
Proof.
  unfold in_graph_mode. intros Hmode Hmiss.
  unfold set_edge_geometry_type. rewrite bool_decide_eq_true_2 by (rewrite !elem_of_cons; tauto).
  simpl.
  unfold edge_geometry_type, graph_property, _edge_geometry_indices_graph, edge_property, bind,
    get__base, lift, dict_get. simpl.
  rewrite Hmode. simpl. unfold _edge_geometry_indices_name_graph.
  change (edge_geometry_property_name "indices") with "edge_geometry_indices"%string.
  rewrite Hmiss. done.
Qed.

(** [resize_edge_geometry] does nothing on a graph without a
    'coordinates' geometry and on a graph in 'edge' mode. *)
Theorem resize_edge_geometry_nothing_to_do g (t : pyval sample) :
  gt_graph_properties (base g) !! "edge_geometry_type"%string = Some t ->
  (if is_str t "graph"
   then gt_graph_properties (base g) !! edge_geometry_property_name "coordinates" = None
   else True) ->
  resize_edge_geometry g = (Ok tt, g).
Proof.
  intros Ht Hno. unfold resize_edge_geometry. unfold bind at 1.
  assert (Hhas : has_edge_geometry "coordinates" g =
            (Ok (if is_str t "graph"
                 then dict_has (gt_graph_properties (base g))
                        (edge_geometry_property_name "coordinates")
                 else dict_has (gt_edge_properties (base g))
                        (edge_geometry_property_name "coordinates")), g)).
  { unfold has_edge_geometry, edge_geometry_property_names, edge_geometry_type, graph_property,
      graph_properties, edge_properties, bind, get__base, ret, lift, dict_get. simpl.
    rewrite Ht. simpl.
    destruct (is_str t "graph"); simpl; rewrite geometry_name_listed, dict_has_keys; done. }
  rewrite Hhas.
  destruct (is_str t "graph") eqn:Es.
  - rewrite (dict_has_missing _ _ Hno). done.
  - destruct (dict_has _ _); simpl; [|done].
    unfold edge_geometry_type, graph_property, bind, get__base, lift, dict_get. simpl.
    rewrite Ht. simpl. rewrite Es. done.
Qed.

End EdgeCases.

Lemma set_edge_geometry_type_edge_without_indices_witness :
  set_edge_geometry_type "edge" Reference.scenario_bare
    = (Raise (KeyError "edge_geometry_indices"), Reference.scenario_bare).
Proof.
  apply (set_edge_geometry_type_edge_without_indices Reference.scenario_bare);
    vm_compute; reflexivity.
Defined.

Lemma resize_edge_geometry_nothing_to_do_witness :
  resize_edge_geometry Reference.scenario_bare = (Ok tt, Reference.scenario_bare).
Proof.
  apply (resize_edge_geometry_nothing_to_do Reference.scenario_bare (PyStr "graph"));
    vm_compute; reflexivity.
Defined.

(** ** Opening twice *)

Section OpenTwice.
Context {sample : Type} (b : gt_Graph sample).
Implicit Types a c : list bool.
Local Abbreviation D := (round_result b true).
Local Abbreviation E := (round_result b false).

Lemma true_within_antisym a c :
  length a = length c -> true_within a c -> true_within c a -> a = c.
Proof.
  intros Hlen Hac Hca. apply list_eq. intros i.
  destruct (a !! i) as [x|] eqn:Ha.
  - assert (Hi : (i < length c)%nat) by (rewrite <- Hlen; by apply lookup_lt_Some in Ha).
    apply lookup_lt_is_Some_2 in Hi as [y Hy]. rewrite Hy. f_equal.
    destruct x, y; try done.
    + apply Hac in Ha. congruence.
    + apply Hca in Hy. congruence.
  - apply lookup_ge_None in Ha. symmetry. apply lookup_ge_None. lia.
Qed.

Lemma dilate_rounds_mono (n : nat) a c :
  length a = length (gt_edges b) -> length c = length (gt_edges b) ->
  true_within a c -> true_within (Nat.iter n D a) (Nat.iter n D c).
Proof.
  intros Ha Hc Hac. induction n as [|n IH]; [done|]. rewrite !Nat.iter_succ.
  apply dilate_round_mono; [by rewrite iter_round_length..|done].
Qed.

Lemma erode_rounds_mono (n : nat) a c :
  length a = length (gt_edges b) -> length c = length (gt_edges b) ->
  true_within a c -> true_within (Nat.iter n E a) (Nat.iter n E c).
Proof.
  intros Ha Hc Hac. induction n as [|n IH]; [done|]. rewrite !Nat.iter_succ.
  apply erode_round_mono; [by rewrite iter_round_length..|done].
Qed.

Lemma erode_of_open_rounds (n : nat) a :
  gt_directed b = false -> length a = length (gt_edges b) ->
  Nat.iter n E (Nat.iter n D (Nat.iter n E a)) = Nat.iter n E a.
Proof.
  intros Hu Ha. apply true_within_antisym.
  - by rewrite !iter_round_length.
  - apply erode_rounds_mono; [by rewrite !iter_round_length|done|by apply open_rounds].
  - apply close_rounds; [done|by rewrite iter_round_length].
Qed.

Lemma open_rounds_idempotent (n : nat) a :
  gt_directed b = false -> length a = length (gt_edges b) ->
  Nat.iter n D (Nat.iter n E (Nat.iter n D (Nat.iter n E a))) = Nat.iter n D (Nat.iter n E a).
Proof. intros Hu Ha. by rewrite erode_of_open_rounds. Qed.

End OpenTwice.

Section OpenTwiceMethod.
Context {sample : Type} (g : Graph sample).

(** In an undirected graph opening is idempotent: opening the opening of
    a label gives the opening again. *)
Theorem edge_open_binary_idempotent (h : gmap nat (list bool)) (ref : nat)
    (label : list bool) (steps : Z) :
  h !! ref = Some label ->
  length label = length (gt_edges (base g)) ->
  wf_edges (base g) ->
  gt_directed (base g) = false ->
  exists out,
    returns_array (edge_open_binary g ref (Some steps)) h out /\
    returns_array
      (opened <- edge_open_binary g ref (Some steps) ;; edge_open_binary g opened (Some steps))
      h out.
Proof.
  intros Hl Hlen Hwf Hu.
  set (n := Z.to_nat steps).
  set (out := Nat.iter n (round_result (base g) true)
                (Nat.iter n (round_result (base g) false) label)).
  assert (Hout : length out = length (gt_edges (base g))).
  { unfold out. by rewrite !iter_round_length. }
  destruct (propagate_twice_returns g false true steps h ref label Hl Hlen Hwf)
    as (r1 & h1 & E1 & Hr1).
  fold n in Hr1. fold out in Hr1.
  exists out. split.
  - by exists r1, h1.
  - destruct (propagate_twice_returns g false true steps h1 r1 out Hr1 Hout Hwf)
      as (r2 & h2 & E2 & Hr2).
    fold n in Hr2. unfold out in Hr2 at 1. rewrite open_rounds_idempotent in Hr2 by done.
    fold n in Hr2. fold out in Hr2.
    exists r2, h2. split; [|done].
    unfold bind at 1. unfold edge_open_binary, edge_erode_binary, edge_dilate_binary at 1.
    rewrite E1. exact E2.
Qed.

End OpenTwiceMethod.

Lemma edge_open_binary_idempotent_witness :
  exists out,
    returns_array (edge_open_binary Reference.scenario 0 (Some 1))
      {[0%nat := [true; true; true; false]]} out /\
    returns_array
      (opened <- edge_open_binary Reference.scenario 0 (Some 1) ;;
       edge_open_binary Reference.scenario opened (Some 1))
      {[0%nat := [true; true; true; false]]} out.
Proof.
  apply (edge_open_binary_idempotent Reference.scenario _ _ [true; true; true; false]).
  - reflexivity.
  - vm_compute. reflexivity.
  - unfold wf_edges. apply (bool_decide_unpack _). vm_compute. exact I.
  - vm_compute. reflexivity.
Defined.

(** ** Removing every edge geometry *)

Lemma substring_all (s : string) : String.substring 0 (String.length s) s = s.
Proof. induction s as [|a s IH]; simpl; [done|]. by rewrite IH. Qed.

Lemma prefix_strip (pre p : string) :
  String.prefix pre p = true ->
  pre +:+ String.substring (String.length pre) (String.length p - String.length pre) p = p.
Proof.
  revert p. induction pre as [|a pre IH]; intros p Hp.
  - simpl. rewrite Nat.sub_0_r. apply substring_all.
  - destruct p as [|c p]; [done|]. simpl in Hp.
    destruct (Ascii.ascii_dec a c) as [->|]; [|done].
    simpl. unfold String.append. fold String.append. f_equal. by apply IH.
Qed.

Lemma lookup_delete_all {V} (m : gmap string V) (l : list string) (p : string) :
  foldr delete m l !! p = if bool_decide (p ∈ l) then None else m !! p.
Proof.
  induction l as [|q l IH]; simpl; [done|].
  destruct (decide (p = q)) as [->|Hne].
  - rewrite lookup_delete_eq. rewrite bool_decide_eq_true_2; [done|]. by left.
  - rewrite lookup_delete_ne by done. rewrite IH.
    destruct (decide (p ∈ l)) as [Hin|Hin].
    + rewrite !bool_decide_eq_true_2; [done|by right|done].
    + rewrite !bool_decide_eq_false_2; [done| |done]. rewrite elem_of_cons. tauto.
Qed.

Lemma filter_none {B} (P : B -> Prop) `{forall x, Decision (P x)} (l : list B) :
  (forall x, x ∈ l -> ~ P x) -> filter P l = [].
Proof.
  intros Hno. induction l as [|x l IH]; [done|].
  rewrite filter_cons. rewrite decide_False by (apply Hno; by left).
  apply IH. intros y Hy. apply Hno. by right.
Qed.

Section RemoveAll.
Context {sample : Type} `{Zero sample} `{Engine sample}.
Implicit Types (g : Graph sample) (name : string).

(** The other parts of the graph that a removal of geometry leaves alone. *)
Local Abbreviation same_structure g g' :=
  (gt_vertex_properties (base g') = gt_vertex_properties (base g) /\
   gt_edges (base g') = gt_edges (base g) /\
   gt_num_vertices (base g') = gt_num_vertices (base g)).

Lemma remove_geometry_step g name :
  in_graph_mode g ->
  exists g',
    (t <- edge_geometry_type ;;
     if is_str t "graph" then _remove_edge_geometry_graph name
     else _remove_edge_geometry_edge name) g = (Ok tt, g') /\
    gt_graph_properties (base g') =
      delete (edge_geometry_property_name name) (gt_graph_properties (base g)) /\
    gt_edge_properties (base g') = gt_edge_properties (base g) /\
    same_structure g g'.
Proof.
  unfold in_graph_mode. intros Hmode.
  unfold edge_geometry_type, graph_property, _remove_edge_geometry_graph, remove_graph_property,
    graph_properties, bind, get__base, set__base, invalidate_caches, ret, lift, dict_get.
  simpl. rewrite Hmode. simpl. rewrite !dict_has_keys. unfold dict_has.
  destruct (gt_graph_properties (base g) !! edge_geometry_property_name name) eqn:E; simpl.
  - rewrite dict_has_keys. unfold dict_has. rewrite E. simpl. eexists. split; [reflexivity|]. done.
  - exists g. split; [done|]. by rewrite delete_id.
Qed.

Lemma remove_indices_step g :
  exists g',
    _remove_edge_geometry_indices_graph g = (Ok tt, g') /\
    gt_edge_properties (base g') =
      delete "edge_geometry_indices"%string (gt_edge_properties (base g)) /\
    gt_graph_properties (base g') = gt_graph_properties (base g) /\
    same_structure g g'.
Proof.
  unfold _remove_edge_geometry_indices_graph, _edge_geometry_indices_name_graph,
    remove_edge_property, edge_properties, bind, get__base, set__base, invalidate_caches, ret.
  change (edge_geometry_property_name "indices") with "edge_geometry_indices"%string.
  simpl. rewrite !dict_has_keys. unfold dict_has.
  destruct (gt_edge_properties (base g) !! "edge_geometry_indices"%string) eqn:E; simpl.
  - rewrite dict_has_keys. unfold dict_has. rewrite E. simpl. eexists. split; [reflexivity|]. done.
  - exists g. split; [done|]. by rewrite delete_id.
Qed.

Lemma geometry_name_strip (p : string) :
  is_geometry_name p ->
  edge_geometry_property_name
    (String.substring (String.length (edge_geometry_property_name ""))
       (String.length p - String.length (edge_geometry_property_name "")) p) = p.
Proof. intros [Hp _]. apply (prefix_strip (edge_geometry_property_name "") p Hp). Qed.

Lemma remove_geometry_loop (l : list string) : forall g,
  in_graph_mode g ->
  Forall is_geometry_name l ->
  exists g',
    for_each
      (map (fun p => String.substring (String.length (edge_geometry_property_name ""))
                       (String.length p - String.length (edge_geometry_property_name "")) p) l)
      (fun n => t <- edge_geometry_type ;;
                if is_str t "graph" then _remove_edge_geometry_graph n
                else _remove_edge_geometry_edge n) g = (Ok tt, g') /\
    (forall p, gt_graph_properties (base g') !! p =
               if bool_decide (p ∈ l) then None else gt_graph_properties (base g) !! p) /\
    gt_edge_properties (base g') = gt_edge_properties (base g) /\
    same_structure g g'.
Proof.
  induction l as [|q l IH]; intros g Hmode Hall.
  - exists g. split; [done|]. split; [|done]. intros p.
    rewrite bool_decide_eq_false_2; [done|]. apply not_elem_of_nil.
  - apply Forall_cons in Hall as [Hq Hall].
    destruct (remove_geometry_step g
                (String.substring (String.length (edge_geometry_property_name ""))
                   (String.length q - String.length (edge_geometry_property_name "")) q) Hmode)
      as (g1 & E1 & Hg1 & He1 & Hs1).
    rewrite (geometry_name_strip q Hq) in Hg1.
    destruct (IH g1) as (g' & E' & Hg' & He' & Hs'); [|done|].
    { unfold in_graph_mode. rewrite Hg1, lookup_delete_ne; [done|]. by destruct Hq. }
    exists g'. cbn [map for_each]. unfold bind at 1. rewrite E1.
    split; [exact E'|]. split; [|split; [congruence|]].
    + intros p. rewrite Hg', Hg1.
      destruct (decide (p = q)) as [->|Hne].
      * rewrite lookup_delete_eq. rewrite (bool_decide_eq_true_2 (q ∈ q :: l)) by by left.
        by destruct (bool_decide (q ∈ l)).
      * rewrite lookup_delete_ne by done.
        rewrite (bool_decide_ext (p ∈ q :: l) (p ∈ l)); [done|].
        rewrite elem_of_cons. tauto.
    + destruct Hs1 as (? & ? & ?), Hs' as (? & ? & ?). repeat split; congruence.
Qed.

Lemma edge_geometry_type_graph g :
  in_graph_mode g -> edge_geometry_type g = (Ok (PyStr "graph"), g).
Proof.
  unfold in_graph_mode. intros Hmode.
  unfold edge_geometry_type, graph_property, bind, get__base, lift, dict_get. simpl.
  by rewrite Hmode.
Qed.

Lemma edge_geometry_property_names_graph g :
  in_graph_mode g ->
  edge_geometry_property_names g =
    (Ok (filter (fun p => String.prefix (edge_geometry_property_name "") p = true
                          /\ p <> "edge_geometry_type"%string)
           (dict_keys (gt_graph_properties (base g)))), g).
Proof.
  intros Hmode. unfold edge_geometry_property_names. unfold bind at 1.
  rewrite (edge_geometry_type_graph g Hmode). done.
Qed.

(** In 'graph' mode [remove_edge_geometry()] without a name removes the
    index property and every geometry property: afterwards the graph lists
    no edge geometry, and its other graph properties, its vertex
    properties, vertices and edges are as before. *)
Theorem remove_edge_geometry_all_graph_mode g :
  in_graph_mode g ->
  exists g',
    remove_edge_geometry None g = (Ok tt, g') /\
    edge_geometry_property_names g' = (Ok [], g') /\
    gt_edge_properties (base g') =
      delete "edge_geometry_indices"%string (gt_edge_properties (base g)) /\
    (forall p, ~ is_geometry_name p ->
       gt_graph_properties (base g') !! p = gt_graph_properties (base g) !! p) /\
    gt_vertex_properties (base g') = gt_vertex_properties (base g) /\
    gt_edges (base g') = gt_edges (base g) /\
    gt_num_vertices (base g') = gt_num_vertices (base g).
Proof.
  intros Hmode.
  destruct (remove_indices_step g) as (g1 & E1 & He1 & Hg1 & Hs1).
  assert (Hmode1 : in_graph_mode g1) by (unfold in_graph_mode; by rewrite Hg1).
  set (names := filter (fun p => String.prefix (edge_geometry_property_name "") p = true
                                 /\ p <> "edge_geometry_type"%string)
                  (dict_keys (gt_graph_properties (base g1)))).
  assert (Hnames : forall p, p ∈ names <->
            is_geometry_name p /\ is_Some (gt_graph_properties (base g1) !! p)).
  { intros p. unfold names. rewrite list_elem_of_filter, dict_keys_elem. done. }
  destruct (remove_geometry_loop names g1 Hmode1) as (g' & E' & Hg' & He' & Hs').
  { apply Forall_forall. intros p Hp. by apply Hnames in Hp as [? _]. }
  exists g'.
  assert (Hkeep : forall p, ~ is_geometry_name p ->
            gt_graph_properties (base g') !! p = gt_graph_properties (base g) !! p).
  { intros p Hp. rewrite Hg', <- Hg1. rewrite bool_decide_eq_false_2; [done|].
    rewrite Hnames. tauto. }
  split; [|split; [|split; [congruence|split; [exact Hkeep|]]]].
  - unfold remove_edge_geometry. unfold bind at 1. unfold bind at 1.
    rewrite (edge_geometry_type_graph g Hmode). cbn [is_str]. rewrite bool_decide_eq_true_2 by done.
    unfold bind at 1. rewrite E1.
    unfold edge_geometry_properties. unfold bind at 1.
    rewrite (edge_geometry_property_names_graph g1 Hmode1). unfold ret at 1. exact E'.
  - rewrite edge_geometry_property_names_graph.
    + f_equal. f_equal. apply filter_none. intros p Hp HP.
      apply dict_keys_elem in Hp. rewrite Hg' in Hp.
      destruct (decide (p ∈ names)) as [Hin|Hin].
      * rewrite bool_decide_eq_true_2 in Hp by done. by destruct Hp.
      * rewrite bool_decide_eq_false_2 in Hp by done. apply Hin, Hnames. done.
    + unfold in_graph_mode. rewrite Hkeep; [exact Hmode|]. by intros [_ ?].
  - destruct Hs1 as (? & ? & ?), Hs' as (? & ? & ?). repeat split; congruence.
Qed.

End RemoveAll.

Lemma remove_edge_geometry_all_graph_mode_witness :
  exists g',
    remove_edge_geometry None Reference.scenario = (Ok tt, g') /\
    edge_geometry_property_names g' = (Ok [], g') /\
    gt_edge_properties (base g') =
      delete "edge_geometry_indices"%string (gt_edge_properties (base Reference.scenario)) /\
    (forall p, ~ is_geometry_name p ->
       gt_graph_properties (base g') !! p
         = gt_graph_properties (base Reference.scenario) !! p) /\
    gt_vertex_properties (base g') = gt_vertex_properties (base Reference.scenario) /\
    gt_edges (base g') = gt_edges (base Reference.scenario) /\
    gt_num_vertices (base g') = gt_num_vertices (base Reference.scenario).
Proof.
  apply (remove_edge_geometry_all_graph_mode Reference.scenario). vm_compute. reflexivity.
Defined.

Example remove_edge_geometry_all_scenario :
  dict_keys (gt_graph_properties
               (base (Reference.state_after (remove_edge_geometry None) Reference.scenario)))
    ≡ₚ ["shape"; "edge_geometry_type"]%string.
Proof. vm_compute. apply Permutation_refl || apply perm_swap. Qed.

(** ** The largest component: the graph it returns *)

(** The entries [keep_items] keeps. *)











(** The copy loop of the compaction. *)



Section CopyLoop.
Context {sample : Type}.
Implicit Types (prop dst pre rest : list (pyval sample)) (old new : list (Z * Z)).





End CopyLoop.

Section Resize.
Context {sample : Type} `{Zero sample} `{Engine sample}.
Implicit Types (b : gt_Graph sample) (rows : list (Z * Z)).









End Resize.




Section LargestComponentGraph.
Context {sample : Type} `{Zero sample} `{Engine sample}.






End LargestComponentGraph.


(** ** Edge propagation: rounds and the caller's array *)

Lemma reaches_undirected {sample} (b : gt_Graph sample) (j i : nat) :
  gt_directed b = false -> reaches b j i <-> share_vertex b j i.
Proof.
  intros Hu. unfold reaches, share_vertex. split.
  - intros (e & v & He & Hv & Hin). apply gt_out_edges_elem in Hin as (e' & He' & Hp).
    exists e, e'. split; [done|]. split; [done|].
    destruct Hv as [->| ->], Hp as [Hp|[_ Hp]]; rewrite Hp; tauto.
  - intros (e & e' & He & He' & Hp).
    destruct Hp as [Hp|[Hp|[Hp|Hp]]].
    + exists e, e.1. split; [done|]. split; [by left|]. apply gt_out_edges_elem.
      exists e'. split; [done|]. by left.
    + exists e, e.2. split; [done|]. split; [by right|]. apply gt_out_edges_elem.
      exists e'. split; [done|]. by left.
    + exists e, e.1. split; [done|]. split; [by left|]. apply gt_out_edges_elem.
      exists e'. split; [done|]. by right.
    + exists e, e.2. split; [done|]. split; [by right|]. apply gt_out_edges_elem.
      exists e'. split; [done|]. by right.
Qed.

Section PropagateRounds.
Context {sample : Type} (g : Graph sample).

(** C9.  Dilation and erosion of an edge label are monotone round by
    round.  On a graph whose edges join existing vertices and for a label
    with one entry per edge, [edge_propagate] with the value [True] returns
    after [steps] rounds an array in which every edge that is [True] in the
    label is [True], and one more round keeps every [True] of the round
    before; with the value [False] every [True] of the result is [True] in
    the label, and one more round adds none.  A round of dilation makes
    [True] exactly the edges that the edge iterator gives at an end vertex
    of an edge that is [True] before the round; in an undirected graph
    these are the edges that share a vertex with such an edge. *)
Theorem edge_propagate_monotone (h : gmap nat (list bool)) (ref : nat) (label : list bool)
    (steps : Z) :
  h !! ref = Some label ->
  length label = length (gt_edges (base g)) ->
  wf_edges (base g) ->
  0 <= steps ->
  exists dilated dilated' eroded eroded',
    returns_array (edge_propagate g ref true (Some steps)) h dilated /\
    returns_array (edge_propagate g ref true (Some (steps + 1))) h dilated' /\
    returns_array (edge_propagate g ref false (Some steps)) h eroded /\
    returns_array (edge_propagate g ref false (Some (steps + 1))) h eroded' /\
    true_within label dilated /\ true_within dilated dilated' /\
    true_within eroded label /\ true_within eroded' eroded /\
    (forall i : nat,
       dilated' !! i = Some true <->
       exists j : nat, dilated !! j = Some true /\ reaches (base g) j i) /\
    (gt_directed (base g) = false ->
     forall i : nat,
       dilated' !! i = Some true <->
       exists j : nat, dilated !! j = Some true /\ share_vertex (base g) j i).
Proof.
  intros E Hlen Hwf Hs.
  set (n := Z.to_nat steps).
  assert (En : Z.to_nat (steps + 1) = S n) by (unfold n; lia).
  exists (Nat.iter n (round_result (base g) true) label),
         (Nat.iter (S n) (round_result (base g) true) label),
         (Nat.iter n (round_result (base g) false) label),
         (Nat.iter (S n) (round_result (base g) false) label).
  assert (Hround : forall i : nat,
            Nat.iter (S n) (round_result (base g) true) label !! i = Some true <->
            exists j : nat, Nat.iter n (round_result (base g) true) label !! j = Some true
                            /\ reaches (base g) j i).
  { intros i. simpl. apply round_result_value. by rewrite iter_round_length. }
  split; [by apply edge_propagate_returns|].
  split; [rewrite <- En; by apply edge_propagate_returns|].
  split; [by apply edge_propagate_returns|].
  split; [rewrite <- En; by apply edge_propagate_returns|].
  split; [by apply dilate_rounds_grow|].
  split; [simpl; apply dilate_round_grows; by rewrite iter_round_length|].
  split; [by apply erode_rounds_shrink|].
  split; [simpl; apply erode_round_shrinks; by rewrite iter_round_length|].
  split; [exact Hround|].
  intros Hu i. rewrite Hround. split; intros (j & Hj & Hr); exists j; split; try done;
    by apply (reaches_undirected (base g) j i Hu).
Qed.

End PropagateRounds.

Lemma edge_propagate_monotone_witness :
  exists dilated dilated' eroded eroded',
    returns_array (edge_propagate Reference.scenario 0 true (Some 0))
      {[0%nat := [true; false; false; false]]} dilated /\
    returns_array (edge_propagate Reference.scenario 0 true (Some (0 + 1)))
      {[0%nat := [true; false; false; false]]} dilated' /\
    returns_array (edge_propagate Reference.scenario 0 false (Some 0))
      {[0%nat := [true; false; false; false]]} eroded /\
    returns_array (edge_propagate Reference.scenario 0 false (Some (0 + 1)))
      {[0%nat := [true; false; false; false]]} eroded' /\
    true_within [true; false; false; false] dilated /\ true_within dilated dilated' /\
    true_within eroded [true; false; false; false] /\ true_within eroded' eroded /\
    (forall i : nat,
       dilated' !! i = Some true <->
       exists j : nat, dilated !! j = Some true /\ reaches (base Reference.scenario) j i) /\
    (gt_directed (base Reference.scenario) = false ->
     forall i : nat,
       dilated' !! i = Some true <->
       exists j : nat, dilated !! j = Some true /\ share_vertex (base Reference.scenario) j i).
Proof.
  apply (edge_propagate_monotone Reference.scenario _ _ [true; false; false; false]).
  - reflexivity.
  - vm_compute. reflexivity.
  - unfold wf_edges. apply (bool_decide_unpack _). vm_compute. exact I.
  - lia.
Defined.

(** In a directed graph the iterator gives the edges that leave a vertex:
    with the edges [0 -> 1] and [2 -> 1] and the first one [True], vertex
    [1] is an end of a [True] edge and the second edge is incident to it,
    and yet a round of dilation leaves the second edge [False]. *)
Lemma edge_dilate_directed_in_edge :
  returns_array (edge_propagate Reference.scenario_directed 0 true (Some 1))
    {[0%nat := [true; false]]} [true; false] /\
  share_vertex (base Reference.scenario_directed) 0 1.
Proof.
  split.
  - eexists _, _. split; vm_compute; reflexivity.
  - exists (0, 1)%nat, (2, 1)%nat. split; [done|]. split; [done|]. simpl. tauto.
Qed.

Section PropagateCopy.
Context {sample : Type} {A : Type} `{EqDecision A} (g : Graph sample).

(** C10.  [edge_propagate] works on a copy.  Whatever the graph, the
    value and the steps, and also when a round raises, the caller's label
    array and every other array that exists at the call hold afterwards
    what they held before; the array returned is a new one.  Without a
    round ([steps] is [None]) it holds the contents of the label, and after
    [steps] rounds on a label with one entry per edge the rounds applied to
    the contents of the label. *)
Theorem edge_propagate_copies (h : gmap nat (list A)) (ref : nat) (label : list A)
    (value : A) (steps : option Z) :
  h !! ref = Some label ->
  exists outcome h',
    edge_propagate g ref value steps h = (outcome, h') /\
    h' !! ref = Some label /\
    (forall (k : nat) (a : list A), h !! k = Some a -> h' !! k = Some a) /\
    (forall ref' : nat, outcome = Ok ref' ->
       ref' <> ref /\ h !! ref' = None /\ is_Some (h' !! ref')) /\
    match steps with
    | None => exists ref' : nat, outcome = Ok ref' /\ h' !! ref' = Some label
    | Some n =>
        length label = length (gt_edges (base g)) -> wf_edges (base g) ->
        exists ref' : nat,
          outcome = Ok ref' /\
          h' !! ref' = Some (Nat.iter (Z.to_nat n) (round_result (base g) value) label)
    end.
Proof.
  intros E.
  destruct (edge_propagate g ref value steps h) as [r h'] eqn:Ep.
  exists r, h'. split; [done|].
  set (ref0 := fresh (dom h)).
  assert (Hfresh : h !! ref0 = None) by apply fresh_lookup.
  assert (Hne : ref0 <> ref) by (intros Heq; rewrite Heq in Hfresh; congruence).
  assert (Hkeep : (forall (k : nat) (a : list A), h !! k = Some a -> h' !! k = Some a) /\
                  (forall ref' : nat, r = Ok ref' ->
                     ref' <> ref /\ h !! ref' = None /\ is_Some (h' !! ref'))).
  { pose proof Ep as Ep'. unfold edge_propagate in Ep'. unfold bind at 1 in Ep'.
    rewrite (np_array_ok _ _ _ E) in Ep'. fold ref0 in Ep'.
    destruct steps as [n|].
    - unfold bind in Ep'.
      destruct (for_each (seq 0 (Z.to_nat n)) (fun _ => edge_propagate_round g ref0 value)
                  (<[ref0 := label]> h)) as [r1 h1] eqn:E1.
      destruct (writes_only_for_each ref0 _ _ (fun _ => writes_only_round g ref0 value) _ _ _ E1)
        as [Hw Hp].
      assert (Hk : forall k x, h !! k = Some x -> h1 !! k = Some x).
      { intros k x Hk. rewrite Hw by congruence. rewrite lookup_insert_ne by congruence. done. }
      destruct r1 as [[]|e]; injection Ep' as <- <-.
      + split; [done|]. intros ref' [= <-]. split; [done|]. split; [done|].
        apply Hp. rewrite lookup_insert_eq. eauto.
      + split; [done|]. intros ref' [=].
    - injection Ep' as <- <-. split.
      + intros k x Hk. rewrite lookup_insert_ne by congruence. done.
      + intros ref' [= <-]. rewrite lookup_insert_eq. eauto. }
  destruct Hkeep as [Hk Hnew].
  split; [by apply Hk|]. split; [done|]. split; [done|].
  destruct steps as [n|].
  - intros Hlen Hwf. rewrite (edge_propagate_ok g ref value n label h E Hlen Hwf) in Ep.
    injection Ep as <- <-. exists (fresh (dom h)). split; [done|]. apply lookup_insert_eq.
  - unfold edge_propagate in Ep. unfold bind at 1 in Ep.
    rewrite (np_array_ok _ _ _ E) in Ep. injection Ep as <- <-.
    exists (fresh (dom h)). split; [done|]. apply lookup_insert_eq.
Qed.

End PropagateCopy.

Lemma edge_propagate_copies_witness :
  let h : gmap nat (list bool) := {[0%nat := [true; false; false; false]]} in
  exists outcome h',
    edge_propagate Reference.scenario 0 true None h = (outcome, h') /\
    h' !! 0%nat = Some [true; false; false; false] /\
    (forall (k : nat) (a : list bool), h !! k = Some a -> h' !! k = Some a) /\
    (forall ref' : nat, outcome = Ok ref' ->
       ref' <> 0%nat /\ h !! ref' = None /\ is_Some (h' !! ref')) /\
    exists ref' : nat, outcome = Ok ref' /\ h' !! ref' = Some [true; false; false; false].
Proof.
  apply (edge_propagate_copies Reference.scenario _ 0%nat [true; false; false; false] true None).
  reflexivity.
Defined.
